(** * update-config-logos.py: a shallow embedding and its properties

    The script loads [src/config.json], lists [src/assets/logos], rewrites
    the [logoUrl] of every chapter whose expected local logo file exists,
    and writes the document back.  This development embeds the script
    between [json.load] and [json.dump]: the two helper functions, the
    inventory loop, the chapter loop and the progress lines they print.
    Of a [print] only whether it raises is kept, not the text that reaches
    standard output.  Standard output is taken to encode every code point
    that is not a surrogate, as UTF-8 does; what becomes of a surrogate is
    left to its error handler.  Reading and writing the file and the
    lines printed before the one and after the other are left out.

    Python strings are sequences of Unicode code points, so a string is a
    [list N].  JSON values keep their dynamic types, and every operation
    that raises in Python returns [Raise] here. *)

From Stdlib Require Import List NArith ZArith Bool Lia String Ascii.
From Stdlib Require Import Floats.SpecFloat.
Import ListNotations.

Local Open Scope N_scope.

(** ** Python strings *)

Definition codepoint := N.
Definition pystr := list codepoint.

(** An ASCII literal of the source as a Python string. *)
Definition lit (s : string) : pystr := map N_of_ascii (list_ascii_of_string s).

Definition HYPHEN : codepoint := 45.
Definition DOT : codepoint := 46.
Definition QUESTION : codepoint := 63.
Definition NEWLINE : codepoint := 10.

Fixpoint str_eqb (a b : pystr) : bool :=
  match a, b with
  | [], [] => true
  | x :: a', y :: b' => (x =? y) && str_eqb a' b'
  | _, _ => false
  end.

(** [s.startswith(c)] for a one-character prefix. *)
Definition startswith (s : pystr) (c : codepoint) : bool :=
  match s with
  | x :: _ => x =? c
  | [] => false
  end.

(** *** Character classes of the patterns *)

Definition in_range (lo hi c : codepoint) : bool := (lo <=? c) && (c <=? hi).

Definition is_ascii_upper (c : codepoint) : bool := in_range 65 90 c.

(** The class [[a-z0-9]] (no flags: exactly these 36 code points). *)
Definition in_a_z_0_9 (c : codepoint) : bool := in_range 97 122 c || in_range 48 57 c.

(** The negated class [[^a-z0-9]]. *)
Definition not_a_z_0_9 (c : codepoint) : bool := negb (in_a_z_0_9 c).

Definition is_hyphen (c : codepoint) : bool := c =? HYPHEN.

(** *** [re.sub(r'X+', '-', s)] for a one-character class X

    Every maximal run of characters of the class is replaced by one
    hyphen.  The scan keeps one bit: whether the previous character was
    in the class, in which case the hyphen of this run is already out. *)

Fixpoint sub_runs (cls : codepoint -> bool) (in_run : bool) (s : pystr) : pystr :=
  match s with
  | [] => []
  | c :: s' =>
      if cls c then
        if in_run then sub_runs cls true s' else HYPHEN :: sub_runs cls true s'
      else c :: sub_runs cls false s'
  end.

Definition re_sub_plus (cls : codepoint -> bool) (s : pystr) : pystr :=
  sub_runs cls false s.

(** *** [s.strip('-')] *)

Fixpoint lstrip (ch : codepoint) (s : pystr) : pystr :=
  match s with
  | c :: s' => if c =? ch then lstrip ch s' else s
  | [] => []
  end.

Definition rstrip (ch : codepoint) (s : pystr) : pystr := rev (lstrip ch (rev s)).

Definition strip (ch : codepoint) (s : pystr) : pystr := rstrip ch (lstrip ch s).

(** ** The pattern of get_extension_from_url

    [re.search(r'\.(jpg|jpeg|png|svg|gif|webp)(\?|$)', url, re.IGNORECASE)]:
    the leftmost position where a dot is followed by one of the six
    names and then by the closing group.  The names are tried in the
    order of the pattern, and the engine moves on to the next name when
    the closing group fails after one of them. *)

(** One letter of the pattern against one character of the subject under
    [re.IGNORECASE] on a [str] pattern.  [p] is a lowercase ASCII letter:
    it matches itself and its capital, and the engine adds U+0130 and
    U+0131 for "i", U+017F for "s" and U+212A for "k". *)
Definition letter_matches (p c : codepoint) : bool :=
  (c =? p) || (c =? p - 32)
  || ((p =? 105) && ((c =? 304) || (c =? 305)))
  || ((p =? 115) && (c =? 383))
  || ((p =? 107) && (c =? 8490)).

Definition extensions : list pystr :=
  [lit "jpg"; lit "jpeg"; lit "png"; lit "svg"; lit "gif"; lit "webp"].

(** The letters of one name at the head of [s]: the matched text and what
    follows it. *)
Fixpoint match_letters (name s : pystr) : option (pystr * pystr) :=
  match name with
  | [] => Some ([], s)
  | p :: name' =>
      match s with
      | [] => None
      | c :: s' =>
          if letter_matches p c then
            match match_letters name' s' with
            | Some (g, rest) => Some (c :: g, rest)
            | None => None
            end
          else None
      end
  end.

(** The closing group [(\?|$)].  Without [re.MULTILINE], [$] matches at
    the end of the string and also just before a newline that is the
    last character of the string. *)
Definition closing_group (rest : pystr) : bool :=
  match rest with
  | [] => true
  | c :: rest' =>
      (c =? QUESTION) || ((c =? NEWLINE) && match rest' with [] => true | _ => false end)
  end.

Section Search.

(** The search is written over the closing group, so that the same
    function also runs with the closing group as the specification
    words it. *)
Variable closing : pystr -> bool.

Fixpoint try_names (names : list pystr) (s : pystr) : option pystr :=
  match names with
  | [] => None
  | name :: names' =>
      match match_letters name s with
      | Some (g, rest) => if closing rest then Some g else try_names names' s
      | None => try_names names' s
      end
  end.

(** A match that starts at the head of [s]; the result is group 1. *)
Definition match_here (s : pystr) : option pystr :=
  match s with
  | c :: s' => if c =? DOT then try_names extensions s' else None
  | [] => None
  end.

Fixpoint search_from (s : pystr) : option pystr :=
  match match_here s with
  | Some g => Some g
  | None =>
      match s with
      | [] => None
      | _ :: s' => search_from s'
      end
  end.

End Search.

Definition re_search_extension (url : pystr) : option pystr :=
  search_from closing_group url.

(** ** JSON values, as [json.load] builds them *)

#[local] Unset Elimination Schemes.
Inductive json : Type :=
  | JNull
  | JBool (b : bool)
  | JInt (z : Z)
  | JFloat (f : spec_float)
  | JStr (s : pystr)
  | JArr (items : list json)
  | JObj (fields : list (pystr * json)).
#[local] Set Elimination Schemes.

(** A Python [dict]: keys in insertion order, each key once. *)
Definition pydict (V : Type) := list (pystr * V).

Fixpoint dict_get {V : Type} (k : pystr) (d : pydict V) : option V :=
  match d with
  | [] => None
  | (k', v) :: d' => if str_eqb k' k then Some v else dict_get k d'
  end.

(** [d[k] = v]: an existing key keeps its place, a new key goes last. *)
Fixpoint dict_set {V : Type} (k : pystr) (v : V) (d : pydict V) : pydict V :=
  match d with
  | [] => [(k, v)]
  | (k', v') :: d' =>
      if str_eqb k' k then (k', v) :: d' else (k', v') :: dict_set k v d'
  end.

(** [k in d] *)
Definition dict_mem {V : Type} (k : pystr) (d : pydict V) : bool :=
  match dict_get k d with
  | Some _ => true
  | None => false
  end.

(** Truth value of a JSON value, as [not x] tests it. *)
Definition truthy (v : json) : bool :=
  match v with
  | JNull => false
  | JBool b => b
  | JInt z => negb (z =? 0)%Z
  | JFloat (S754_zero _) => false
  | JFloat _ => true
  | JStr s => match s with [] => false | _ => true end
  | JArr items => match items with [] => false | _ => true end
  | JObj fields => match fields with [] => false | _ => true end
  end.

(** ** Exceptions *)

Inductive exn : Type :=
  | KeyError
  | TypeError
  | AttributeError
  | NotADirectoryError
  | UnicodeEncodeError.

Inductive result (A : Type) : Type :=
  | Ok (a : A)
  | Raise (e : exn).

Arguments Ok {A} a.
Arguments Raise {A} e.

Definition bind {A B : Type} (m : result A) (k : A -> result B) : result B :=
  match m with
  | Ok a => k a
  | Raise e => Raise e
  end.

Notation "x <- m ;; k" := (bind m (fun x => k))
  (at level 61, m at next level, right associativity).
Notation "' p <- m ;; k" := (bind m (fun x => let p := x in k))
  (at level 61, p pattern, m at next level, right associativity).

(** [obj.get(key, default)]: only a dict has the method. *)
Definition py_get (obj : json) (key : pystr) (default : json) : result json :=
  match obj with
  | JObj fields =>
      match dict_get key fields with
      | Some v => Ok v
      | None => Ok default
      end
  | _ => Raise AttributeError
  end.

(** [obj[key]] for a string key. *)
Definition py_getitem (obj : json) (key : pystr) : result json :=
  match obj with
  | JObj fields =>
      match dict_get key fields with
      | Some v => Ok v
      | None => Raise KeyError
      end
  | _ => Raise TypeError
  end.

(** [obj[key] = v] for a string key. *)
Definition py_setitem (obj : json) (key : pystr) (v : json) : result json :=
  match obj with
  | JObj fields => Ok (JObj (dict_set key v fields))
  | _ => Raise TypeError
  end.

(** The items a [for] loop draws from a value: the elements of a list,
    the keys of a dict, the characters of a string. *)
Definition py_iter (v : json) : result (list json) :=
  match v with
  | JArr items => Ok items
  | JObj fields => Ok (map (fun kv => JStr (fst kv)) fields)
  | JStr s => Ok (map (fun c => JStr [c]) s)
  | _ => Raise TypeError
  end.

(** ** The logos directory and the inventory *)

Inductive path_state : Type :=
  | NoSuchPath
  | RegularFile
  | Directory (entries : list pystr).

(** The loop over [os.listdir(LOGOS_DIR)]. *)
Fixpoint inventory_loop (entries : list pystr) (downloaded_logos : pydict bool)
    : pydict bool :=
  match entries with
  | [] => downloaded_logos
  | filename :: entries' =>
      if startswith filename DOT then inventory_loop entries' downloaded_logos
      else inventory_loop entries' (dict_set filename true downloaded_logos)
  end.

Definition build_inventory (logos_dir : path_state) : result (pydict bool) :=
  match logos_dir with
  | NoSuchPath => Ok []
  | RegularFile => Raise NotADirectoryError
  | Directory entries => Ok (inventory_loop entries [])
  end.

(** ** Statistics *)

Record stats : Type := mkStats {
  updated_count : nat;
  skipped_count : nat;
  missing_count : nat
}.

Definition no_stats : stats := mkStats 0 0 0.

Definition count_updated (st : stats) : stats :=
  mkStats (S (updated_count st)) (skipped_count st) (missing_count st).
Definition count_skipped (st : stats) : stats :=
  mkStats (updated_count st) (S (skipped_count st)) (missing_count st).
Definition count_missing (st : stats) : stats :=
  mkStats (updated_count st) (skipped_count st) (S (missing_count st)).

Definition KEY_CHAPTERS : pystr := lit "chapters".
Definition KEY_ID : pystr := lit "id".
Definition KEY_TITLE : pystr := lit "title".
Definition KEY_LOGOURL : pystr := lit "logoUrl".
Definition LOCAL_PREFIX : pystr := lit "assets/logos/".
Definition DEFAULT_EXTENSION : pystr := lit ".png".

(** The type of the Unicode lowercase tables: the characters before, the
    character, the characters after. *)
Definition lower_table := pystr -> codepoint -> pystr -> pystr.

(** ** Standard output *)

(** The surrogates, U+D800 to U+DFFF. *)
Definition is_surrogate (c : codepoint) : bool := in_range 55296 57343 c.

(** The type of the text that [str] gives for a float, a list or a
    dict, and that of the error handler of standard output on the
    surrogates. *)
Definition repr_table := json -> pystr.
Definition error_handler := codepoint -> bool.

(** [str(n)] for an int. *)
Fixpoint uint_text (d : Decimal.uint) : pystr :=
  match d with
  | Decimal.Nil => []
  | Decimal.D0 d' => 48 :: uint_text d'
  | Decimal.D1 d' => 49 :: uint_text d'
  | Decimal.D2 d' => 50 :: uint_text d'
  | Decimal.D3 d' => 51 :: uint_text d'
  | Decimal.D4 d' => 52 :: uint_text d'
  | Decimal.D5 d' => 53 :: uint_text d'
  | Decimal.D6 d' => 54 :: uint_text d'
  | Decimal.D7 d' => 55 :: uint_text d'
  | Decimal.D8 d' => 56 :: uint_text d'
  | Decimal.D9 d' => 57 :: uint_text d'
  end.

Definition int_text (z : Z) : pystr :=
  match Z.to_int z with
  | Decimal.Pos d => uint_text d
  | Decimal.Neg d => HYPHEN :: uint_text d
  end.

(** The literal parts of the progress lines, lines 50 to 90 of the
    script.  The marks are U+2705, U+1F504, U+26A0 U+FE0F and U+1F4BE. *)
Definition FOUND_PREFIX : pystr := 9989 :: lit " Found ".
Definition FOUND_SUFFIX : pystr := lit " downloaded logos" ++ [NEWLINE].
Definition UPDATING_LINE : pystr :=
  128260 :: lit " Updating chapter logo URLs..." ++ [NEWLINE].
Definition UPDATED_MARK : pystr := 9989 :: lit " #".
Definition MISSING_MARK : pystr := 9888 :: 65039 :: lit "  #".
Definition COLON_SPACE : pystr := lit ": ".
Definition INDENT : pystr := lit "   ".
Definition NOT_FOUND : pystr := lit "   Logo not found: ".
Definition KEEPING : pystr := lit "   Keeping original URL: ".
Definition SAVING_LINE : pystr :=
  NEWLINE :: 128190 :: lit " Saving updated config.json...".

Section Script.


(** The Unicode lowercase tables (see [lower_char]). *)
Variable table : lower_table.

(** [str(v)] for a value that is a float, a list or a dict. *)
Variable repr_text : repr_table.

(** What the error handler of standard output makes of a surrogate:
    [true] when it writes something for it, [false] when it raises (the
    default). *)
Variable stdout_accepts : error_handler.

(** *** [print]

    A line goes out when standard output can encode each of its
    characters; the newline that [print] adds always does. *)
Definition encodable (c : codepoint) : bool :=
  negb (is_surrogate c) || stdout_accepts c.

Definition printable (text : pystr) : bool := forallb encodable text.

Definition py_print (text : pystr) : result unit :=
  if printable text then Ok tt else Raise UnicodeEncodeError.

(** The text of a value inside an f-string. *)
Definition py_str (v : json) : pystr :=
  match v with
  | JStr s => s
  | JNull => lit "None"
  | JBool true => lit "True"
  | JBool false => lit "False"
  | JInt z => int_text z
  | _ => repr_text v
  end.

(** *** [str.lower()]

    On ASCII, [lower] maps A-Z to a-z and keeps everything else.  Three
    code points outside ASCII can be matched by the extension pattern
    under [re.IGNORECASE], so their lowercase forms are written out:
    U+0130 (capital I with dot above) becomes "i" followed by U+0307,
    and U+0131 (dotless i) and U+017F (long s) are already lowercase.
    The lowercase of every other code point comes from the Unicode
    tables, which are a parameter here; it may depend on the characters
    around it (capital sigma). *)

Definition lower_char (before : pystr) (c : codepoint) (after : pystr) : pystr :=
  if c <? 128 then (if is_ascii_upper c then [c + 32] else [c])
  else if c =? 304 then [105; 775]
  else if (c =? 305) || (c =? 383) then [c]
  else table before c after.

Fixpoint lower_from (before s : pystr) : pystr :=
  match s with
  | [] => []
  | c :: s' => lower_char before c s' ++ lower_from (before ++ [c]) s'
  end.

Definition lower (s : pystr) : pystr := lower_from [] s.

(** ** sanitize_filename, on a string *)

(** The string before the final slice [[:50]]. *)
Definition sanitize_stripped (title : pystr) : pystr :=
  let filename := lower title in
  let filename := re_sub_plus not_a_z_0_9 filename in
  let filename := re_sub_plus is_hyphen filename in
  strip HYPHEN filename.

Definition sanitize (title : pystr) : pystr :=
  firstn 50 (sanitize_stripped title).

(** *** sanitize_filename(title) *)
Definition sanitize_filename (title : json) : result pystr :=
  match title with
  | JStr s => Ok (sanitize s)
  | _ => Raise AttributeError
  end.

(** *** get_extension_from_url(url) *)

(** The function on a non-empty string. *)
Definition extension (url : pystr) : pystr :=
  match re_search_extension url with
  | Some g => DOT :: lower g
  | None => DEFAULT_EXTENSION
  end.

Definition get_extension_from_url (url : json) : result pystr :=
  if negb (truthy url) then Ok DEFAULT_EXTENSION
  else
    match url with
    | JStr s => Ok (extension s)
    | _ => Raise TypeError
    end.

(** *** One turn of the chapter loop *)
Definition update_chapter (downloaded_logos : pydict bool)
    (chapter : json) (st : stats) : result (json * stats) :=
  chapter_id <- py_get chapter KEY_ID JNull ;;
  title <- py_get chapter KEY_TITLE (JStr []) ;;
  original_url <- py_get chapter KEY_LOGOURL (JStr []) ;;
  if negb (truthy original_url) then Ok (chapter, count_skipped st)
  else
    base_name <- sanitize_filename title ;;
    extension <- get_extension_from_url original_url ;;
    let expected_filename := base_name ++ extension in
    let local_path := LOCAL_PREFIX ++ expected_filename in
    if dict_mem expected_filename downloaded_logos then
      chapter' <- py_setitem chapter KEY_LOGOURL (JStr local_path) ;;
      line78 <- py_print (UPDATED_MARK ++ py_str chapter_id ++ COLON_SPACE
                            ++ py_str title) ;;
      line79 <- py_print (INDENT ++ local_path) ;;
      line87 <- py_print [] ;;
      Ok (chapter', count_updated st)
    else
      line82 <- py_print (MISSING_MARK ++ py_str chapter_id ++ COLON_SPACE
                            ++ py_str title) ;;
      line83 <- py_print (NOT_FOUND ++ expected_filename) ;;
      line84 <- py_print (KEEPING ++ py_str original_url) ;;
      line87 <- py_print [] ;;
      Ok (chapter, count_missing st).

(** *** The chapter loop *)
Fixpoint update_chapters (downloaded_logos : pydict bool)
    (chapters : list json) (st : stats) : result (list json * stats) :=
  match chapters with
  | [] => Ok ([], st)
  | chapter :: rest =>
      '(chapter', st1) <- update_chapter downloaded_logos chapter st ;;
      '(rest', st2) <- update_chapters downloaded_logos rest st1 ;;
      Ok (chapter' :: rest', st2)
  end.

(** *** The script between [json.load] and [json.dump]

    The loop mutates the chapter dicts in place; they are the elements
    of the list under ["chapters"], so the document that is written
    holds the updated list there.  When ["chapters"] is not a list the
    loop items are fresh strings and the document is as loaded. *)
Definition run (config : json) (downloaded_logos : pydict bool)
    : result (json * stats) :=
  line58 <- py_print UPDATING_LINE ;;
  chapters <- py_getitem config KEY_CHAPTERS ;;
  items <- py_iter chapters ;;
  '(items', st) <- update_chapters downloaded_logos items no_stats ;;
  config' <- match chapters with
             | JArr _ => py_setitem config KEY_CHAPTERS (JArr items')
             | _ => Ok config
             end ;;
  line90 <- py_print SAVING_LINE ;;
  Ok (config', st).

(** The whole script on the loaded document and the state of the logos
    directory. *)
Definition script (config : json) (logos_dir : path_state)
    : result (json * stats) :=
  downloaded_logos <- build_inventory logos_dir ;;
  line50 <- py_print (FOUND_PREFIX
                        ++ int_text (Z.of_nat (List.length downloaded_logos))
                        ++ FOUND_SUFFIX) ;;
  run config downloaded_logos.

(** No two neighbours of [s] are both [h]. *)
Fixpoint no_double (h : codepoint) (s : pystr) : Prop :=
  match s with
  | [] => True
  | x :: s' =>
      match s' with
      | [] => True
      | y :: _ => ~ (x = h /\ y = h)
      end /\ no_double h s'
  end.

(** ** Vocabulary of the statements *)

(** The characters a sanitized name is made of. *)
Definition name_char (c : codepoint) : Prop := in_a_z_0_9 c = true \/ c = HYPHEN.

(** [lower] on one ASCII character. *)
Definition ascii_lower (c : codepoint) : codepoint :=
  if is_ascii_upper c then c + 32 else c.

(** An ASCII character that is neither a letter nor a digit. *)
Definition ascii_symbol (c : codepoint) : bool :=
  (c <? 128) && negb (is_ascii_upper c) && negb (in_a_z_0_9 c).

(** ** The extension pattern against its reading as a specification *)

(** [g] spells [name] up to case, letter by letter. *)
Definition spells (name g : pystr) : Prop :=
  Forall2 (fun p c => letter_matches p c = true) name g.

(** An extension token of [url]: after [pre] come a dot, the text [g]
    that spells one of the six names, and a rest that the closing group
    accepts. *)
Definition token_at (closing : pystr -> bool) (url pre g : pystr) : Prop :=
  exists name rest,
    url = pre ++ DOT :: g ++ rest /\ In name extensions /\ spells name g /\
    closing rest = true.

(** The token that starts first. *)
Definition leftmost_token (closing : pystr -> bool) (url pre g : pystr) : Prop :=
  token_at closing url pre g /\
  forall pre' g', token_at closing url pre' g' ->
                  (List.length pre <= List.length pre')%nat.

(** The closing group as the specification words it: the end of the
    string or a question mark. *)
Definition spec_closing (rest : pystr) : bool :=
  match rest with
  | [] => true
  | c :: _ => c =? QUESTION
  end.

Definition lowercase_letter (p : codepoint) : Prop := 97 <= p <= 122.

(** Two names agree as far as both go. *)
Fixpoint agree (a b : pystr) : bool :=
  match a, b with
  | x :: a', y :: b' => (x =? y) && agree a' b'
  | _, _ => true
  end.

(** Position by position the keys are the same, and so are the values,
    except under key [k], where they are related by [R]. *)
Definition same_but (k : pystr) (R : json -> json -> Prop) (d d' : pydict json) : Prop :=
  Forall2 (fun kv kv' =>
             fst kv' = fst kv /\
             (fst kv <> k -> snd kv' = snd kv) /\
             (fst kv = k -> R (snd kv) (snd kv'))) d d'.

(** ** One turn of the loop, as a relation *)

(** [chapter.get('title', '')] and [chapter.get('logoUrl', '')] on the
    fields of a chapter. *)
Definition title_of (fields : pydict json) : json :=
  match dict_get KEY_TITLE fields with
  | Some v => v
  | None => JStr []
  end.

Definition url_of (fields : pydict json) : json :=
  match dict_get KEY_LOGOURL fields with
  | Some v => v
  | None => JStr []
  end.

(** [chapter.get('id')] on the fields of a chapter. *)
Definition id_of (fields : pydict json) : json :=
  match dict_get KEY_ID fields with
  | Some v => v
  | None => JNull
  end.

(** Standard output can encode the id and the title, which both the
    line of an updated chapter and that of a missing one show. *)
Definition heading_prints (fields : pydict json) (title : pystr) : bool :=
  printable (py_str (id_of fields)) && printable title.

Definition expected_filename (title url : pystr) : pystr :=
  sanitize title ++ extension url.

Definition local_path (title url : pystr) : pystr :=
  LOCAL_PREFIX ++ expected_filename title url.

Inductive outcome : Type := Updated | Skipped | Missing.

Definition count (o : outcome) (st : stats) : stats :=
  match o with
  | Updated => count_updated st
  | Skipped => count_skipped st
  | Missing => count_missing st
  end.

Inductive chapter_step (downloaded_logos : pydict bool)
    : json -> json -> outcome -> Prop :=
  | step_skipped fields :
      truthy (url_of fields) = false ->
      chapter_step downloaded_logos (JObj fields) (JObj fields) Skipped
  | step_updated fields title url :
      url_of fields = JStr url -> url <> [] -> title_of fields = JStr title ->
      dict_mem (expected_filename title url) downloaded_logos = true ->
      heading_prints fields title = true ->
      chapter_step downloaded_logos (JObj fields)
        (JObj (dict_set KEY_LOGOURL (JStr (local_path title url)) fields)) Updated
  | step_missing fields title url :
      url_of fields = JStr url -> url <> [] -> title_of fields = JStr title ->
      dict_mem (expected_filename title url) downloaded_logos = false ->
      heading_prints fields title = true -> printable url = true ->
      chapter_step downloaded_logos (JObj fields) (JObj fields) Missing.

(** The three counters together. *)
Definition total (st : stats) : nat :=
  (updated_count st + missing_count st + skipped_count st)%nat.

(** ** The documents of the data model *)

Definition is_str (v : json) : bool :=
  match v with
  | JStr _ => true
  | _ => false
  end.

(** A chapter is a mapping whose title and logoUrl, when present, are
    strings. *)
Definition chapter_well_typed (chapter : json) : bool :=
  match chapter with
  | JObj fields => is_str (title_of fields) && is_str (url_of fields)
  | _ => false
  end.

(** The chapter list of a document whose ["chapters"] is a list. *)
Definition chapters_of (config : json) : option (list json) :=
  match config with
  | JObj fields =>
      match dict_get KEY_CHAPTERS fields with
      | Some (JArr items) => Some items
      | _ => None
      end
  | _ => None
  end.

Definition document_well_typed (config : json) : bool :=
  match chapters_of config with
  | Some items => forallb chapter_well_typed items
  | None => false
  end.

(** Standard output can encode the id, the title and the logoUrl of the
    chapter. *)
Definition chapter_printable (chapter : json) : bool :=
  match chapter with
  | JObj fields =>
      printable (py_str (id_of fields)) && printable (py_str (title_of fields)) &&
      printable (py_str (url_of fields))
  | _ => true
  end.

Definition document_printable (config : json) : bool :=
  match chapters_of config with
  | Some items => forallb chapter_printable items
  | None => true
  end.

(** In every run that ends over a document that holds [chapter] at some
    position of its chapter list, the document written holds
    [chapter'] at that position. *)
Definition after_run (downloaded_logos : pydict bool) (chapter chapter' : json) : Prop :=
  forall config items i config' st,
    chapters_of config = Some items -> nth_error items i = Some chapter ->
    run config downloaded_logos = Ok (config', st) ->
    exists items', chapters_of config' = Some items' /\
                   nth_error items' i = Some chapter'.

(** ** What a run may change *)

(** The value under ["logoUrl"] before and after: the same, or a string
    replaced by the local path of a file of the inventory. *)
Definition logo_rewrite (downloaded_logos : pydict bool) (fields : pydict json)
    (v v' : json) : Prop :=
  v' = v \/
  exists title url,
    title_of fields = JStr title /\ v = JStr url /\ url <> [] /\
    dict_mem (expected_filename title url) downloaded_logos = true /\
    v' = JStr (local_path title url).

Definition chapter_frame (downloaded_logos : pydict bool) (chapter chapter' : json) : Prop :=
  exists fields fields',
    chapter = JObj fields /\ chapter' = JObj fields' /\
    same_but KEY_LOGOURL (logo_rewrite downloaded_logos fields) fields fields'.

(** The value under ["chapters"] before and after. *)
Definition chapters_frame (downloaded_logos : pydict bool) (v v' : json) : Prop :=
  v' = v \/
  exists items items',
    v = JArr items /\ v' = JArr items' /\
    List.length items' = List.length items /\
    Forall2 (chapter_frame downloaded_logos) items items'.

Definition document_frame (downloaded_logos : pydict bool) (config config' : json) : Prop :=
  exists fields fields',
    config = JObj fields /\ config' = JObj fields' /\
    same_but KEY_CHAPTERS (chapters_frame downloaded_logos) fields fields'.

(** The characters of a matched text other than U+0130: ASCII letters,
    U+0131 and U+017F. *)
Definition settled (c : codepoint) : Prop := c < 128 \/ c = 305 \/ c = 383.

(** [lower] on such characters. *)
Definition fold_case (c : codepoint) : codepoint :=
  if c <? 128 then ascii_lower c else c.

(** Every logoUrl string of the chapter is free of U+0130. *)
Definition plain_url (chapter : json) : bool :=
  match chapter with
  | JObj fields =>
      match url_of fields with
      | JStr url => negb (existsb (N.eqb 304) url)
      | _ => true
      end
  | _ => true
  end.

Definition plain_urls (config : json) : bool :=
  match chapters_of config with
  | Some items => forallb plain_url items
  | None => true
  end.

(** ** Inputs named in the claims *)

(** A chapter whose logoUrl is empty or absent: the key is missing, or
    its value is the empty string or [null]. *)
Definition url_empty_or_absent (fields : pydict json) : Prop :=
  dict_get KEY_LOGOURL fields = None \/
  dict_get KEY_LOGOURL fields = Some (JStr []) \/
  dict_get KEY_LOGOURL fields = Some JNull.

(** The example of the specification. *)
Definition example_title : pystr := lit "Chapter One: Intro!".
Definition example_url : pystr := lit "https://x.com/a.PNG".
Definition example_chapter (url : pystr) : json :=
  JObj [(KEY_ID, JInt 1); (KEY_TITLE, JStr example_title); (KEY_LOGOURL, JStr url)].

(** A title that the slice cuts right after a hyphen: 49 times "a", a
    space, "b". *)
Definition cut_title : pystr := repeat 97 49 ++ lit " b".

(** ** Vocabulary of the further properties *)

(** The maximal runs of characters of [[a-z0-9]] in [s], in order: what
    [re.findall(r'[a-z0-9]+', s)] returns. *)
Fixpoint words (s : pystr) : list pystr :=
  match s with
  | [] => []
  | c :: s' =>
      let rest := words s' in
      if in_a_z_0_9 c then
        match s' with
        | [] => [[c]]
        | c' :: _ =>
            if in_a_z_0_9 c' then
              match rest with
              | w :: ws => (c :: w) :: ws
              | [] => [[c]]
              end
            else [c] :: rest
        end
      else rest
  end.

(** [sep.join(ws)] for a one-character separator. *)
Fixpoint join (sep : codepoint) (ws : list pystr) : pystr :=
  match ws with
  | [] => []
  | w :: ws' =>
      match ws' with
      | [] => w
      | _ :: _ => w ++ sep :: join sep ws'
      end
  end.

(** Two neighbours of [s] are both [h]. *)
Fixpoint has_double (h : codepoint) (s : pystr) : bool :=
  match s with
  | [] => false
  | x :: s' =>
      match s' with
      | [] => false
      | y :: _ => (x =? h) && (y =? h)
      end || has_double h s'
  end.

Definition name_charb (c : codepoint) : bool := in_a_z_0_9 c || (c =? HYPHEN).

(** A name as the sanitizer makes them when it cuts nothing off: made of
    a-z, 0-9 and hyphens, no two hyphens in a row, no hyphen at either
    end, at most 50 characters. *)
Definition clean_name (s : pystr) : bool :=
  forallb name_charb s && negb (has_double HYPHEN s) &&
  negb (startswith s HYPHEN) && negb (startswith (rev s) HYPHEN) &&
  (List.length s <=? 50)%nat.

Definition is_ascii (s : pystr) : bool := forallb (fun c => c <? 128) s.

(** The six extensions with their dot. *)
Definition dotted_extensions : list pystr := map (cons DOT) extensions.

(** The chapters on which a loop turn does not raise: a mapping whose
    logoUrl is falsy, or whose title and logoUrl are both strings, with
    an id and a title that standard output can encode, and a logoUrl
    that it can encode when the expected file is not in the inventory. *)
Definition chapter_runs (downloaded_logos : pydict bool) (chapter : json) : bool :=
  match chapter with
  | JObj fields =>
      if truthy (url_of fields) then
        match title_of fields, url_of fields with
        | JStr title, JStr url =>
            heading_prints fields title &&
            (dict_mem (expected_filename title url) downloaded_logos || printable url)
        | _, _ => false
        end
      else true
  | _ => false
  end.

(** The documents on which the run does not raise. *)
Definition config_runs (downloaded_logos : pydict bool) (config : json) : bool :=
  match config with
  | JObj fields =>
      match dict_get KEY_CHAPTERS fields with
      | Some (JArr items) => forallb (chapter_runs downloaded_logos) items
      | Some (JStr []) => true
      | Some (JObj []) => true
      | _ => false
      end
  | _ => false
  end.

(** The text that the resolver matches in [url], if any, has no U+0130. *)
Definition matched_text_plain (url : pystr) : bool :=
  match re_search_extension url with
  | Some g => negb (existsb (N.eqb 304) g)
  | None => true
  end.

(** A chapter that a second run leaves as the first run left it: it is
    not updated, or the text that the resolver matches in its logoUrl has
    no U+0130, or there is no ".png" file of its name in the inventory. *)
Definition rerun_safe (downloaded_logos : pydict bool) (chapter : json) : bool :=
  match chapter with
  | JObj fields =>
      match title_of fields, url_of fields with
      | JStr title, JStr url =>
          negb (dict_mem (expected_filename title url) downloaded_logos) ||
          matched_text_plain url ||
          negb (dict_mem (sanitize title ++ DEFAULT_EXTENSION) downloaded_logos)
      | _, _ => true
      end
  | _ => true
  end.

Definition reruns_safe (downloaded_logos : pydict bool) (config : json) : bool :=
  match chapters_of config with
  | Some items => forallb (rerun_safe downloaded_logos) items
  | None => true
  end.

Definition outcome_eqb (a b : outcome) : bool :=
  match a, b with
  | Updated, Updated => true
  | Skipped, Skipped => true
  | Missing, Missing => true
  | _, _ => false
  end.

(** The kind of a chapter, read off its fields and the inventory. *)
Definition kind_of (downloaded_logos : pydict bool) (chapter : json) : outcome :=
  match chapter with
  | JObj fields =>
      if truthy (url_of fields) then
        match title_of fields, url_of fields with
        | JStr title, JStr url =>
            if dict_mem (expected_filename title url) downloaded_logos
            then Updated else Missing
        | _, _ => Skipped
        end
      else Skipped
  | _ => Skipped
  end.

Definition count_kind (downloaded_logos : pydict bool) (o : outcome)
    (items : list json) : nat :=
  List.length (filter (fun c => outcome_eqb (kind_of downloaded_logos c) o) items).

(** The hyphen that the first substitution puts in front of the words:
    one, when [s] starts with a character outside [[a-z0-9]] and no run is
    under way. *)
Definition lead_hyphen (in_run : bool) (s : pystr) : pystr :=
  match s with
  | c :: _ => if not_a_z_0_9 c && negb in_run then [HYPHEN] else []
  | [] => []
  end.

(** A word is not empty and is made of characters of [[a-z0-9]]. *)
Definition word (w : pystr) : Prop :=
  w <> [] /\ Forall (fun c => in_a_z_0_9 c = true) w.

Definition SLASH : codepoint := 47.

(** The characters that a lowercased matched text is made of: neither a
    dot nor a slash. *)
Definition plain_char (c : codepoint) : Prop := c <> DOT /\ c <> SLASH.

(** The longest that the lowercase of a text spelling [name] can be: one
    character for each letter, and one more for each "i", which U+0130
    spells. *)
Definition lowered_bound (name : pystr) : nat :=
  (List.length name + List.length (filter (N.eqb 105) name))%nat.

(** An entry of the logos directory that the inventory loop keeps. *)
Definition kept (filename : pystr) : bool := negb (startswith filename DOT).

(** The characters of a lowercased matched text. *)
Definition lowered_char (x : codepoint) : Prop :=
  97 <= x <= 122 \/ x = 775 \/ x = 305 \/ x = 383.

(** A chapter that a run maps to a chapter that a further run leaves as
    it is, with the same kind both times. *)
Definition settles (downloaded_logos : pydict bool) (chapter : json) : Prop :=
  exists chapter' o,
    chapter_step downloaded_logos chapter chapter' o /\
    chapter_step downloaded_logos chapter' chapter' o.

(** ** Concrete inputs *)

(** A table that leaves every code point as it is.  The inputs below have
    no character that reaches the table. *)
Definition plain_table : lower_table := fun _ c _ => [c].

(** The text of a float, a list or a dict.  No id below is one. *)
Definition plain_repr : repr_table := fun _ => lit "?".

(** Standard output with the error handler it has by default, which
    refuses every surrogate. *)
Definition strict_stdout : error_handler := fun _ => false.

Definition sample_config : json :=
  JObj [(lit "name", JStr (lit "guide"));
        (KEY_CHAPTERS,
         JArr [example_chapter example_url;
               JObj [(KEY_ID, JInt 2); (KEY_TITLE, JStr (lit "??"))];
               JObj [(KEY_TITLE, JStr (lit "Foo Bar"));
                     (KEY_LOGOURL, JStr (lit "https://cdn.x/img.svg?v=2"))]])].

Definition sample_dir : path_state :=
  Directory [lit ".hidden.png"; lit "chapter-one-intro.png"].

Definition sample_inventory : pydict bool := [(lit "chapter-one-intro.png", true)].

(** [sample_inventory] with the logo of one more chapter. *)
Definition fuller_inventory : pydict bool :=
  [(lit "chapter-one-intro.png", true); (lit "foo-bar.svg", true)].

(** A URL whose extension is followed by a newline that ends the string. *)
Definition newline_url : pystr := lit "a.jpg" ++ [NEWLINE].

(** A chapter whose URL spells "gif" with U+0130, and a directory that
    holds both the file of that spelling lowercased and a ".png" file. *)
Definition dotted_config : json :=
  JObj [(KEY_CHAPTERS,
         JArr [JObj [(KEY_TITLE, JStr (lit "a"));
                     (KEY_LOGOURL, JStr (lit "x.g" ++ [304] ++ lit "f"))]])].

Definition dotted_dir : path_state :=
  Directory [lit "a.g" ++ [105; 775] ++ lit "f"; lit "a.png"].

Definition dotted_after (path : pystr) : json :=
  JObj [(KEY_CHAPTERS,
         JArr [JObj [(KEY_TITLE, JStr (lit "a")); (KEY_LOGOURL, JStr path)]])].

(** The inventory of [dotted_dir]. *)
Definition dotted_inventory : pydict bool :=
  [(lit "a.g" ++ [105; 775] ++ lit "f", true); (lit "a.png", true)].

(** A chapter list whose second element is not a mapping. *)
Definition broken_config : json :=
  JObj [(KEY_CHAPTERS, JArr [example_chapter example_url; JInt 3; JObj []])].

(** A chapter with a logoUrl and a title that is not a string. *)
Definition untitled_fields : pydict json :=
  [(KEY_TITLE, JNull); (KEY_LOGOURL, JStr example_url)].

(** A chapter whose title is a lone surrogate, U+D800, and a document
    that holds it before an element that is not a mapping. *)
Definition surrogate_fields : pydict json :=
  [(KEY_TITLE, JStr [55296]); (KEY_LOGOURL, JStr (lit "x.png"))].

Definition surrogate_config : json :=
  JObj [(KEY_CHAPTERS, JArr [JObj surrogate_fields; JInt 3])].

(** [sample_config] after a run with [sample_inventory]. *)
Definition sample_config_after : json :=
  JObj [(lit "name", JStr (lit "guide"));
        (KEY_CHAPTERS,
         JArr [example_chapter (lit "assets/logos/chapter-one-intro.png");
               JObj [(KEY_ID, JInt 2); (KEY_TITLE, JStr (lit "??"))];
               JObj [(KEY_TITLE, JStr (lit "Foo Bar"));
                     (KEY_LOGOURL, JStr (lit "https://cdn.x/img.svg?v=2"))]])].

(** ** Properties of the string operations *)

Lemma str_eqb_eq (a b : pystr) : str_eqb a b = true <-> a = b.
Proof.
  revert b; induction a as [|x a IH]; intros [|y b]; simpl;
    try (split; [discriminate | congruence]); [tauto |].
  rewrite andb_true_iff, N.eqb_eq, IH. split.
  - intros [-> ->]; reflexivity.
  - intros E; injection E as -> ->; auto.
Qed.

Lemma str_eqb_refl (a : pystr) : str_eqb a a = true.
Proof. apply str_eqb_eq; reflexivity. Qed.

Lemma str_eqb_neq (a b : pystr) : str_eqb a b = false <-> a <> b.
Proof.
  rewrite <- str_eqb_eq. destruct (str_eqb a b); split; congruence.
Qed.

Lemma no_double_app_l h (a b : pystr) : no_double h (a ++ b) -> no_double h a.
Proof.
  induction a as [|x a IH]; simpl; [tauto |].
  intros [H1 H2]. split; [| auto].
  destruct a as [|y a]; simpl in *; auto.
Qed.

Lemma no_double_app_r h (a b : pystr) : no_double h (a ++ b) -> no_double h b.
Proof. induction a as [|x a IH]; simpl; [tauto | intros [_ H]; auto]. Qed.

Lemma no_double_spec h (s : pystr) :
  no_double h s -> forall pre post, s <> pre ++ h :: h :: post.
Proof.
  intros H pre post ->. apply no_double_app_r in H.
  simpl in H. destruct H as [H _]. apply H; split; reflexivity.
Qed.

Section Runs.
Variable cls : codepoint -> bool.
Hypothesis cls_hyphen : cls HYPHEN = true.

(** After a run has started, the output does not begin with another
    hyphen. *)
Lemma sub_runs_no_double (b : bool) (s : pystr) :
  no_double HYPHEN ((if b then [HYPHEN] else []) ++ sub_runs cls b s).
Proof.
  revert b; induction s as [|c s IH]; intros b.
  - destruct b; simpl; auto.
  - simpl. destruct (cls c) eqn:Ec.
    + destruct b; [apply (IH true) | apply (IH true)].
    + assert (c <> HYPHEN) by (intros ->; congruence).
      pose proof (IH false) as IHf. simpl in IHf.
      destruct b; simpl; repeat split; try tauto; auto;
        destruct (sub_runs cls false s); tauto.
Qed.

Lemma re_sub_plus_no_double (s : pystr) : no_double HYPHEN (re_sub_plus cls s).
Proof. apply (sub_runs_no_double false). Qed.
End Runs.

Lemma sub_runs_Forall (P : codepoint -> Prop) cls (b : bool) (s : pystr) :
  P HYPHEN -> (forall c, In c s -> cls c = false -> P c) ->
  Forall P (sub_runs cls b s).
Proof.
  intros PH. revert b; induction s as [|c s IH]; intros b Hs; simpl; [constructor |].
  assert (Hs' : forall c0, In c0 s -> cls c0 = false -> P c0)
    by (intros; apply Hs; simpl; auto).
  destruct (cls c) eqn:Ec.
  - destruct b; [| constructor]; auto.
  - constructor; [apply Hs; simpl; auto | auto].
Qed.

(** A string of characters of the class collapses to one hyphen. *)
Lemma sub_runs_all_in_class cls (s : pystr) :
  Forall (fun c => cls c = true) s ->
  sub_runs cls true s = [] /\
  sub_runs cls false s = match s with [] => [] | _ => [HYPHEN] end.
Proof.
  induction 1 as [|c s Hc Hs [IH1 IH2]]; simpl; [auto |].
  rewrite Hc, IH1. auto.
Qed.

Lemma lstrip_suffix ch (s : pystr) :
  exists pre, s = pre ++ lstrip ch s /\ Forall (fun c => c = ch) pre.
Proof.
  induction s as [|c s [pre [E F]]]; simpl.
  - exists []; auto.
  - destruct (N.eqb_spec c ch) as [->|Hne].
    + exists (ch :: pre); simpl; split; [congruence | constructor; auto].
    + exists []; auto.
Qed.

Lemma lstrip_head ch (s : pystr) : forall post, lstrip ch s <> ch :: post.
Proof.
  induction s as [|c s IH]; simpl; [discriminate |].
  destruct (N.eqb_spec c ch); [auto | congruence].
Qed.

Lemma rstrip_prefix ch (s : pystr) :
  exists post, s = rstrip ch s ++ post /\ Forall (fun c => c = ch) post.
Proof.
  unfold rstrip. destruct (lstrip_suffix ch (rev s)) as [pre [E F]].
  exists (rev pre). split.
  - rewrite <- rev_app_distr, <- E, rev_involutive; reflexivity.
  - apply Forall_rev; assumption.
Qed.

Lemma rstrip_last ch (s : pystr) : forall pre, rstrip ch s <> pre ++ [ch].
Proof.
  unfold rstrip. intros pre E.
  apply (f_equal (@rev codepoint)) in E.
  rewrite rev_involutive, rev_app_distr in E. simpl in E.
  exact (lstrip_head ch (rev s) _ E).
Qed.

Lemma strip_infix ch (s : pystr) :
  exists pre post, s = pre ++ strip ch s ++ post.
Proof.
  unfold strip. destruct (lstrip_suffix ch s) as [pre [E _]].
  destruct (rstrip_prefix ch (lstrip ch s)) as [post [E' _]].
  exists pre, post. rewrite <- E'. exact E.
Qed.

Lemma strip_head ch (s : pystr) : forall post, strip ch s <> ch :: post.
Proof.
  unfold strip. intros post E.
  destruct (rstrip_prefix ch (lstrip ch s)) as [t [E' _]].
  rewrite E in E'. simpl in E'. exact (lstrip_head ch s _ E').
Qed.

Lemma strip_last ch (s : pystr) : forall pre, strip ch s <> pre ++ [ch].
Proof. unfold strip. apply rstrip_last. Qed.

Lemma strip_all ch (s : pystr) : Forall (fun c => c = ch) s -> strip ch s = [].
Proof.
  intros F. unfold strip.
  assert (L : lstrip ch s = []).
  { induction F as [|c s -> _ IH]; simpl; [reflexivity |].
    rewrite N.eqb_refl. exact IH. }
  rewrite L. reflexivity.
Qed.

(** ** Properties of sanitize *)

Lemma Forall_prefix (P : codepoint -> Prop) (a b : pystr) :
  Forall P (a ++ b) -> Forall P a.
Proof. intros H; apply Forall_app in H; tauto. Qed.

Lemma Forall_firstn_of (P : codepoint -> Prop) n (s : pystr) :
  Forall P s -> Forall P (firstn n s).
Proof.
  intros H. rewrite <- (firstn_skipn n s) in H. exact (Forall_prefix _ _ _ H).
Qed.

Lemma sanitize_stripped_chars (title : pystr) :
  Forall name_char (sanitize_stripped title).
Proof.
  unfold sanitize_stripped.
  set (s1 := re_sub_plus not_a_z_0_9 (lower title)).
  assert (F1 : Forall name_char s1).
  { apply sub_runs_Forall; [right; reflexivity |].
    intros c _ Hc. left. unfold not_a_z_0_9 in Hc.
    destruct (in_a_z_0_9 c); [reflexivity | discriminate]. }
  set (s2 := re_sub_plus is_hyphen s1).
  assert (F2 : Forall name_char s2).
  { apply sub_runs_Forall; [right; reflexivity |].
    intros c Hc _. rewrite Forall_forall in F1. auto. }
  destruct (strip_infix HYPHEN s2) as [pre [post E]].
  rewrite E in F2. apply Forall_app in F2. destruct F2 as [_ F2].
  exact (Forall_prefix _ _ _ F2).
Qed.

Lemma sanitize_chars (title : pystr) : Forall name_char (sanitize title).
Proof. apply Forall_firstn_of, sanitize_stripped_chars. Qed.

Lemma sanitize_length (title : pystr) : (List.length (sanitize title) <= 50)%nat.
Proof. unfold sanitize. apply firstn_le_length. Qed.

Lemma sanitize_stripped_no_double (title : pystr) :
  no_double HYPHEN (sanitize_stripped title).
Proof.
  unfold sanitize_stripped.
  set (s2 := re_sub_plus is_hyphen _).
  assert (D : no_double HYPHEN s2)
    by (apply re_sub_plus_no_double; reflexivity).
  destruct (strip_infix HYPHEN s2) as [pre [post E]].
  rewrite E in D. exact (no_double_app_l _ _ _ (no_double_app_r _ _ _ D)).
Qed.

Lemma sanitize_no_double (title : pystr) : no_double HYPHEN (sanitize title).
Proof.
  unfold sanitize. pose proof (sanitize_stripped_no_double title) as D.
  rewrite <- (firstn_skipn 50 (sanitize_stripped title)) in D.
  exact (no_double_app_l _ _ _ D).
Qed.

Lemma sanitize_no_consecutive_hyphens (title : pystr) :
  forall pre post, sanitize title <> pre ++ HYPHEN :: HYPHEN :: post.
Proof. apply no_double_spec, sanitize_no_double. Qed.

Lemma sanitize_no_leading_hyphen (title : pystr) :
  forall post, sanitize title <> HYPHEN :: post.
Proof.
  intros post E. unfold sanitize in E.
  pose proof (firstn_skipn 50 (sanitize_stripped title)) as S.
  rewrite E in S. simpl in S. symmetry in S.
  exact (strip_head HYPHEN _ _ S).
Qed.

(** The slice leaves a trailing hyphen only where it cuts. *)
Lemma sanitize_no_trailing_hyphen_if_short (title : pystr) :
  (List.length (sanitize_stripped title) <= 50)%nat ->
  forall pre, sanitize title <> pre ++ [HYPHEN].
Proof.
  intros L pre. unfold sanitize. rewrite firstn_all2 by exact L.
  apply strip_last.
Qed.

(** The sanitizer does nothing more to its own results. *)
Lemma lower_from_ascii (before s : pystr) :
  Forall (fun c => c < 128) s -> lower_from before s = map ascii_lower s.
Proof.
  intros F; revert before; induction F as [|c s Hc F IH]; intros before; simpl.
  - reflexivity.
  - rewrite IH. unfold lower_char, ascii_lower.
    apply N.ltb_lt in Hc. rewrite Hc. destruct (is_ascii_upper c); reflexivity.
Qed.

Lemma name_char_ascii (c : codepoint) : name_char c -> c < 128.
Proof.
  unfold name_char, in_a_z_0_9, in_range, HYPHEN. intros [H | ->]; [| lia].
  rewrite orb_true_iff, !andb_true_iff, !N.leb_le in H. lia.
Qed.

Lemma name_char_not_upper (c : codepoint) : name_char c -> is_ascii_upper c = false.
Proof.
  unfold name_char, in_a_z_0_9, is_ascii_upper, in_range, HYPHEN.
  intros [H | ->]; [| reflexivity].
  rewrite orb_true_iff, !andb_true_iff, !N.leb_le in H.
  apply andb_false_iff. rewrite !N.leb_gt. lia.
Qed.

Lemma lower_name_chars (s : pystr) : Forall name_char s -> lower s = s.
Proof.
  intros F. unfold lower. rewrite lower_from_ascii.
  - induction F as [|c s Hc F IH]; simpl; [reflexivity |].
    rewrite IH. unfold ascii_lower. rewrite (name_char_not_upper c Hc). reflexivity.
  - eapply Forall_impl; [| exact F]. apply name_char_ascii.
Qed.

Lemma sanitize_lowercase (title : pystr) :
  lower (sanitize title) = sanitize title /\
  Forall (fun c => is_ascii_upper c = false) (sanitize title).
Proof.
  split.
  - apply lower_name_chars, sanitize_chars.
  - eapply Forall_impl; [| apply sanitize_chars]. apply name_char_not_upper.
Qed.

Lemma sanitize_nil : sanitize [] = [].
Proof. reflexivity. Qed.

(** A title whose lowercase form has no character of [[a-z0-9]]. *)
Lemma sanitize_no_alnum (title : pystr) :
  Forall (fun c => not_a_z_0_9 c = true) (lower title) -> sanitize title = [].
Proof.
  intros F. unfold sanitize, sanitize_stripped, re_sub_plus.
  destruct (sub_runs_all_in_class not_a_z_0_9 _ F) as [_ ->].
  destruct (lower title); [reflexivity |].
  simpl. reflexivity.
Qed.

Lemma sanitize_symbols (title : pystr) :
  Forall (fun c => ascii_symbol c = true) title -> sanitize title = [].
Proof.
  intros F. apply sanitize_no_alnum. unfold lower.
  rewrite lower_from_ascii.
  - induction F as [|c s Hc F IH]; simpl; constructor; [| exact IH].
    unfold ascii_symbol in Hc. rewrite !andb_true_iff, !negb_true_iff in Hc.
    destruct Hc as [[_ Hu] Hn]. unfold ascii_lower, not_a_z_0_9.
    rewrite Hu, Hn. reflexivity.
  - eapply Forall_impl; [| exact F]. intros c Hc.
    unfold ascii_symbol in Hc. rewrite !andb_true_iff in Hc.
    apply N.ltb_lt. tauto.
Qed.

(** What every result of the sanitizer satisfies: it is its own lowercase
    form, it is made of a-z, 0-9 and hyphens, no two hyphens are
    neighbours, it does not start with a hyphen, it has at most 50
    characters, and it does not end with a hyphen when the slice cuts
    nothing off. *)
Lemma sanitize_guarantees (title : pystr) :
  lower (sanitize title) = sanitize title /\
  Forall name_char (sanitize title) /\
  (forall pre post, sanitize title <> pre ++ HYPHEN :: HYPHEN :: post) /\
  (forall post, sanitize title <> HYPHEN :: post) /\
  (List.length (sanitize title) <= 50)%nat /\
  ((List.length (sanitize_stripped title) <= 50)%nat ->
   forall pre, sanitize title <> pre ++ [HYPHEN]).
Proof.
  split; [apply sanitize_lowercase |].
  split; [apply sanitize_chars |].
  split; [apply sanitize_no_consecutive_hyphens |].
  split; [apply sanitize_no_leading_hyphen |].
  split; [apply sanitize_length | apply sanitize_no_trailing_hyphen_if_short].
Qed.

(** ** The search against the tokens of the URL *)

Lemma letter_matches_inj (p q c : codepoint) :
  lowercase_letter p -> lowercase_letter q ->
  letter_matches p c = true -> letter_matches q c = true -> p = q.
Proof.
  unfold lowercase_letter, letter_matches. intros Hp Hq.
  rewrite !orb_true_iff, !andb_true_iff, !orb_true_iff, !N.eqb_eq. lia.
Qed.

Lemma match_letters_sound (name s g rest : pystr) :
  match_letters name s = Some (g, rest) -> s = g ++ rest /\ spells name g.
Proof.
  revert s g; induction name as [|p name IH]; intros s g; simpl.
  - intros E; injection E as <- <-. split; [reflexivity | constructor].
  - destruct s as [|c s]; [discriminate |].
    destruct (letter_matches p c) eqn:Ec; [| discriminate].
    destruct (match_letters name s) as [[g0 r0]|] eqn:Em; [| discriminate].
    intros E; injection E as <- <-.
    destruct (IH _ _ Em) as [-> S0]. split; [reflexivity |].
    constructor; assumption.
Qed.

Lemma match_letters_complete (name g rest : pystr) :
  spells name g -> match_letters name (g ++ rest) = Some (g, rest).
Proof.
  induction 1 as [|p c name g Hc _ IH]; simpl; [reflexivity |].
  rewrite Hc, IH. reflexivity.
Qed.

Lemma match_letters_spec (name s g rest : pystr) :
  match_letters name s = Some (g, rest) <-> s = g ++ rest /\ spells name g.
Proof.
  split; [apply match_letters_sound |].
  intros [-> S0]. apply match_letters_complete; assumption.
Qed.

Lemma spells_agree (n1 n2 g1 g2 r1 r2 : pystr) :
  Forall lowercase_letter n1 -> Forall lowercase_letter n2 ->
  spells n1 g1 -> spells n2 g2 -> g1 ++ r1 = g2 ++ r2 -> agree n1 n2 = true.
Proof.
  intros L1; revert n2 g1 g2; induction L1 as [|p n1 Hp L1 IH];
    intros n2 g1 g2 L2 S1 S2 E; [reflexivity |].
  destruct L2 as [|q n2 Hq L2]; [reflexivity |].
  inversion S1 as [|? c1 ? g1' Hc1 S1']; subst.
  inversion S2 as [|? c2 ? g2' Hc2 S2']; subst.
  simpl in E. injection E as <- E. simpl.
  rewrite (letter_matches_inj p q c1 Hp Hq Hc1 Hc2), N.eqb_refl. simpl.
  exact (IH n2 g1' g2' L2 S1' S2' E).
Qed.

Lemma extensions_lowercase (name : pystr) :
  In name extensions -> Forall lowercase_letter name.
Proof.
  unfold lowercase_letter. simpl.
  intros [<-|[<-|[<-|[<-|[<-|[<-|[]]]]]]]; repeat constructor; simpl; lia.
Qed.

Lemma extensions_agree (n1 n2 : pystr) :
  In n1 extensions -> In n2 extensions -> agree n1 n2 = true -> n1 = n2.
Proof.
  simpl.
  intros [<-|[<-|[<-|[<-|[<-|[<-|[]]]]]]] [<-|[<-|[<-|[<-|[<-|[<-|[]]]]]]];
    vm_compute; congruence.
Qed.

Lemma Forall2_length_eq (n g : pystr) : spells n g -> List.length g = List.length n.
Proof. induction 1; simpl; congruence. Qed.

Lemma app_eq_same_length (a b c d : pystr) :
  List.length a = List.length c -> a ++ b = c ++ d -> a = c /\ b = d.
Proof.
  revert c; induction a as [|x a IH]; intros [|y c] L E; simpl in *;
    try discriminate; [auto |].
  injection E as -> E. injection L as L.
  destruct (IH c L E) as [-> ->]. auto.
Qed.

(** At one position at most one text can be the group. *)
Lemma spells_unique (n1 n2 g1 g2 r1 r2 : pystr) :
  In n1 extensions -> In n2 extensions ->
  spells n1 g1 -> spells n2 g2 -> g1 ++ r1 = g2 ++ r2 ->
  n1 = n2 /\ g1 = g2 /\ r1 = r2.
Proof.
  intros I1 I2 S1 S2 E.
  assert (N : n1 = n2).
  { apply extensions_agree; try assumption.
    eapply spells_agree; eauto using extensions_lowercase. }
  subst n2. split; [reflexivity |].
  apply app_eq_same_length; [| assumption].
  rewrite (Forall2_length_eq _ _ S1), (Forall2_length_eq _ _ S2). reflexivity.
Qed.

Section SearchSpec.
Variable closing : pystr -> bool.

Lemma try_names_sound (names : list pystr) (s g : pystr) :
  try_names closing names s = Some g ->
  exists name rest,
    In name names /\ s = g ++ rest /\ spells name g /\ closing rest = true.
Proof.
  induction names as [|n names IH]; simpl; [discriminate |].
  destruct (match_letters n s) as [[g0 r0]|] eqn:Em.
  - destruct (closing r0) eqn:Ec.
    + intros E; injection E as <-. apply match_letters_spec in Em.
      exists n, r0. tauto.
    + intros E. destruct (IH E) as [name [rest H]]. exists name, rest. tauto.
  - intros E. destruct (IH E) as [name [rest H]]. exists name, rest. tauto.
Qed.

Lemma try_names_complete (names : list pystr) (s g name rest : pystr) :
  incl names extensions ->
  In name names -> s = g ++ rest -> spells name g -> closing rest = true ->
  try_names closing names s = Some g.
Proof.
  intros Hincl Hin -> Hs Hc.
  induction names as [|n names IH]; simpl; [destruct Hin |].
  assert (In n extensions) by (apply Hincl; simpl; auto).
  assert (In name extensions) by (apply Hincl; assumption).
  destruct (match_letters n (g ++ rest)) as [[g0 r0]|] eqn:Em.
  - apply match_letters_spec in Em. destruct Em as [E S0].
    destruct (spells_unique name n g g0 rest r0) as [_ [<- <-]]; try assumption.
    rewrite Hc. reflexivity.
  - destruct Hin as [->|Hin].
    + assert (M : match_letters name (g ++ rest) = Some (g, rest))
        by (apply match_letters_spec; auto).
      congruence.
    + apply IH; [| assumption].
      intros x Hx. apply Hincl. simpl; auto.
Qed.

Lemma match_here_spec (s g : pystr) :
  match_here closing s = Some g <-> token_at closing s [] g.
Proof.
  unfold match_here, token_at. split.
  - destruct s as [|c s]; [discriminate |].
    destruct (N.eqb_spec c DOT) as [->|]; [| discriminate].
    intros E. apply try_names_sound in E.
    destruct E as [name [rest [I [-> [S C]]]]].
    exists name, rest. simpl. auto.
  - intros [name [rest [-> [I [S C]]]]]. simpl.
    apply (try_names_complete extensions _ g name rest); auto.
    apply incl_refl.
Qed.

Lemma token_at_cons (c : codepoint) (s pre g : pystr) :
  token_at closing (c :: s) (c :: pre) g <-> token_at closing s pre g.
Proof.
  unfold token_at. split; intros [name [rest [E H]]]; exists name, rest.
  - simpl in E. injection E as E. tauto.
  - subst s. simpl. tauto.
Qed.

Lemma token_at_head (url pre g : pystr) :
  token_at closing url pre g ->
  match pre with
  | [] => match_here closing url = Some g
  | c :: pre' => exists s, url = c :: s /\ token_at closing s pre' g
  end.
Proof.
  intros T. destruct pre as [|c pre'].
  - apply match_here_spec; assumption.
  - destruct T as [name [rest [E H]]]. simpl in E.
    exists (pre' ++ DOT :: g ++ rest). split; [assumption |].
    exists name, rest. tauto.
Qed.

Lemma search_from_none (url : pystr) :
  search_from closing url = None <-> forall pre g, ~ token_at closing url pre g.
Proof.
  induction url as [|c url IH].
  - simpl. split; [| reflexivity]. intros _ pre g [name [rest [E _]]].
    destruct pre; discriminate.
  - cbn [search_from].
    destruct (match_here closing (c :: url)) as [g0|] eqn:Eh.
    + split; [discriminate |]. intros H. exfalso.
      apply (H [] g0). apply match_here_spec. exact Eh.
    + rewrite IH. split.
      * intros H pre g T. apply token_at_head in T. destruct pre as [|c' pre'].
        -- congruence.
        -- destruct T as [s [E T]]. injection E as <- <-. exact (H _ _ T).
      * intros H pre g T. apply (H (c :: pre) g). apply token_at_cons. exact T.
Qed.

Lemma search_from_some (url g : pystr) :
  search_from closing url = Some g <-> exists pre, leftmost_token closing url pre g.
Proof.
  induction url as [|c url IH].
  - simpl. split; [discriminate |].
    intros [pre [[name [rest [E _]]] _]]. destruct pre; discriminate.
  - cbn [search_from].
    destruct (match_here closing (c :: url)) as [g0|] eqn:Eh.
    + split.
      * intros E; injection E as <-. exists []. split.
        -- apply match_here_spec; assumption.
        -- intros; simpl; lia.
      * intros [pre [T L]].
        assert (T0 : token_at closing (c :: url) [] g0)
          by (apply match_here_spec; assumption).
        specialize (L _ _ T0). destruct pre; [| simpl in L; lia].
        apply match_here_spec in T. congruence.
    + rewrite IH. split.
      * intros [pre [T L]]. exists (c :: pre). split.
        -- apply token_at_cons; assumption.
        -- intros pre' g' T'. apply token_at_head in T'.
           destruct pre' as [|c' pre'']; [congruence |].
           destruct T' as [s [E T']]. injection E as <- <-.
           specialize (L _ _ T'). simpl; lia.
      * intros [pre [T L]]. apply token_at_head in T.
        destruct pre as [|c' pre']; [congruence |].
        destruct T as [s [E T]]. injection E as <- <-.
        exists pre'. split; [assumption |].
        intros pre'' g'' T''.
        assert (T3 : token_at closing (c :: url) (c :: pre'') g'')
          by (apply token_at_cons; assumption).
        specialize (L _ _ T3). simpl in L; lia.
Qed.
End SearchSpec.

Lemma closing_group_spec (rest : pystr) :
  closing_group rest = true <->
  rest = [] \/ rest = [NEWLINE] \/ exists rest', rest = QUESTION :: rest'.
Proof.
  unfold closing_group. destruct rest as [|c rest'].
  - split; auto.
  - rewrite orb_true_iff, andb_true_iff, !N.eqb_eq. split.
    + intros [->|[-> H]].
      * right; right; eexists; reflexivity.
      * destruct rest'; [auto | discriminate].
    + intros [E|[E|[r E]]]; try discriminate; injection E as -> ->; auto.
Qed.

(** Lowercasing an ASCII text that spells a name gives the name. *)
Lemma spells_ascii_lower (name g : pystr) :
  Forall lowercase_letter name -> spells name g ->
  Forall (fun c => c < 128) g -> lower g = name.
Proof.
  intros L S A. unfold lower. rewrite lower_from_ascii by assumption.
  induction S as [|p c name g Hc S IH]; [reflexivity |].
  inversion L as [|? ? Hp L']; subst. inversion A as [|? ? Ha A']; subst.
  simpl. rewrite (IH L' A'). f_equal.
  unfold letter_matches in Hc. unfold lowercase_letter in Hp.
  rewrite !orb_true_iff, !andb_true_iff, !orb_true_iff, !N.eqb_eq in Hc.
  unfold ascii_lower, is_ascii_upper, in_range.
  destruct ((65 <=? c) && (c <=? 90)) eqn:U.
  - rewrite andb_true_iff, !N.leb_le in U. lia.
  - rewrite andb_false_iff, !N.leb_gt in U. lia.
Qed.

Lemma extension_of_match (url g : pystr) :
  re_search_extension url = Some g -> extension url = DOT :: lower g.
Proof. unfold extension. intros ->. reflexivity. Qed.

Lemma extension_of_no_match (url : pystr) :
  re_search_extension url = None -> extension url = DEFAULT_EXTENSION.
Proof. unfold extension. intros ->. reflexivity. Qed.

Lemma extension_starts_with_dot (url : pystr) : exists e, extension url = DOT :: e.
Proof.
  unfold extension. destruct (re_search_extension url); eexists; reflexivity.
Qed.

(** ** Dictionaries *)

Lemma dict_get_set {V : Type} (k k' : pystr) (v : V) (d : pydict V) :
  dict_get k (dict_set k' v d) = if str_eqb k' k then Some v else dict_get k d.
Proof.
  induction d as [|[k0 v0] d IH]; simpl.
  - destruct (str_eqb k' k); reflexivity.
  - destruct (str_eqb k0 k') eqn:E0; simpl.
    + apply str_eqb_eq in E0. subst k0. destruct (str_eqb k' k); reflexivity.
    + rewrite IH. destruct (str_eqb k0 k) eqn:E1; [| reflexivity].
      apply str_eqb_eq in E1. subst k0.
      destruct (str_eqb k' k) eqn:E2; [| reflexivity].
      apply str_eqb_eq in E2. subst k'. rewrite str_eqb_refl in E0. discriminate.
Qed.

Lemma dict_mem_set {V : Type} (k k' : pystr) (v : V) (d : pydict V) :
  dict_mem k (dict_set k' v d) = str_eqb k' k || dict_mem k d.
Proof.
  unfold dict_mem. rewrite dict_get_set. destruct (str_eqb k' k); reflexivity.
Qed.

Lemma same_but_refl k (R : json -> json -> Prop) (d : pydict json) :
  (forall v, R v v) -> same_but k R d d.
Proof. intros HR. induction d; constructor; auto. Qed.

Lemma same_but_set k (R : json -> json -> Prop) (d : pydict json) (v v' : json) :
  (forall x, R x x) -> dict_get k d = Some v -> R v v' ->
  same_but k R d (dict_set k v' d).
Proof.
  intros HR. induction d as [|[k0 v0] d IH]; simpl; [discriminate |].
  destruct (str_eqb k0 k) eqn:E0.
  - intros E Hv. injection E as ->. apply str_eqb_eq in E0. subst k0.
    constructor; [simpl; tauto | apply same_but_refl; assumption].
  - intros E Hv. apply str_eqb_neq in E0.
    constructor; [| apply IH; assumption].
    simpl. split; [reflexivity |]. split; [reflexivity | intros; apply HR].
Qed.

Lemma same_but_length k R (d d' : pydict json) :
  same_but k R d d' -> map fst d' = map fst d.
Proof. induction 1 as [|? ? ? ? [E _]]; simpl; congruence. Qed.

(** ** Standard output *)

Lemma extensions_letters (name : pystr) :
  In name extensions -> Forall (fun p => lowercase_letter p /\ p <> 107) name.
Proof.
  unfold lowercase_letter. simpl.
  intros [<-|[<-|[<-|[<-|[<-|[<-|[]]]]]]]; repeat constructor; simpl; lia.
Qed.

Lemma search_result_spells (url g : pystr) :
  re_search_extension url = Some g ->
  exists name, In name extensions /\ spells name g.
Proof.
  intros E. unfold re_search_extension in E. apply search_from_some in E.
  destruct E as [pre [[name [rest [_ [I [S _]]]]] _]]. exists name. auto.
Qed.

Lemma lower_char_matched_values (p c : codepoint) (before after : pystr) :
  lowercase_letter p -> p <> 107 -> letter_matches p c = true ->
  Forall lowered_char (lower_char before c after).
Proof.
  intros Hp Hk M. pose proof Hp as Hp'. unfold lowercase_letter in Hp'.
  unfold letter_matches in M.
  rewrite !orb_true_iff, !andb_true_iff, !orb_true_iff, !N.eqb_eq in M.
  unfold lowered_char.
  destruct M as [[[[E|E]|[E1 [E|E]]]|[E1 E]]|[E1 E]]; try lia; subst.
  - unfold lower_char, is_ascii_upper, in_range.
    assert (L : (p <? 128) = true) by (apply N.ltb_lt; lia).
    assert (U : (65 <=? p) && (p <=? 90) = false)
      by (apply andb_false_iff; rewrite !N.leb_gt; lia).
    rewrite L, U. repeat constructor; lia.
  - unfold lower_char, is_ascii_upper, in_range.
    assert (L : (p - 32 <? 128) = true) by (apply N.ltb_lt; lia).
    assert (U : (65 <=? p - 32) && (p - 32 <=? 90) = true)
      by (apply andb_true_iff; rewrite !N.leb_le; lia).
    rewrite L, U. repeat constructor; lia.
  - repeat constructor; lia.
  - repeat constructor; lia.
  - repeat constructor; lia.
Qed.

Lemma lower_from_matched_values (name g before : pystr) :
  Forall (fun p => lowercase_letter p /\ p <> 107) name -> spells name g ->
  Forall lowered_char (lower_from before g).
Proof.
  intros L S. revert before; induction S as [|p c name g Hc S IH]; intros before.
  - constructor.
  - inversion L as [|? ? [Hp Hk] L']; subst. cbn [lower_from].
    apply Forall_app. split; [| apply IH; exact L'].
    apply (lower_char_matched_values p c); assumption.
Qed.

Lemma printable_app (a b : pystr) :
  printable (a ++ b) = printable a && printable b.
Proof. unfold printable. apply forallb_app. Qed.

Lemma printable_plain (text : pystr) :
  Forall (fun c => is_surrogate c = false) text -> printable text = true.
Proof.
  intros F. unfold printable. apply forallb_forall. intros c Hc.
  rewrite Forall_forall in F. unfold encodable. rewrite (F c Hc). reflexivity.
Qed.

Lemma py_print_ok (text : pystr) : printable text = true -> py_print text = Ok tt.
Proof. unfold py_print. intros ->. reflexivity. Qed.

Lemma uint_text_printable (d : Decimal.uint) : printable (uint_text d) = true.
Proof. induction d; simpl; try reflexivity; exact IHd. Qed.

(** The text of an int is made of digits and a sign. *)
Lemma int_text_printable (z : Z) : printable (int_text z) = true.
Proof.
  unfold int_text. destruct (Z.to_int z); simpl; apply uint_text_printable.
Qed.

Lemma name_char_no_surrogate (c : codepoint) : name_char c -> is_surrogate c = false.
Proof.
  intros H. apply name_char_ascii in H. unfold is_surrogate, in_range.
  apply andb_false_iff. left. apply N.leb_gt. lia.
Qed.

Lemma lowered_char_no_surrogate (c : codepoint) :
  lowered_char c -> is_surrogate c = false.
Proof.
  unfold lowered_char, is_surrogate, in_range. intros H.
  apply andb_false_iff. left. apply N.leb_gt. lia.
Qed.

(** The resolver returns nothing that standard output cannot encode. *)
Lemma extension_printable (url : pystr) : printable (extension url) = true.
Proof.
  unfold extension. destruct (re_search_extension url) as [g|] eqn:Es.
  - destruct (search_result_spells url g Es) as [name [I S]].
    change (DOT :: lower g) with ([DOT] ++ lower g).
    rewrite printable_app. apply andb_true_iff. split; [reflexivity |].
    apply printable_plain.
    eapply Forall_impl;
      [| exact (lower_from_matched_values name g [] (extensions_letters name I) S)].
    apply lowered_char_no_surrogate.
  - reflexivity.
Qed.

Lemma sanitize_printable (title : pystr) : printable (sanitize title) = true.
Proof.
  apply printable_plain. eapply Forall_impl; [| apply sanitize_chars].
  apply name_char_no_surrogate.
Qed.

Lemma expected_filename_printable (title url : pystr) :
  printable (expected_filename title url) = true.
Proof.
  unfold expected_filename.
  rewrite printable_app, sanitize_printable, extension_printable. reflexivity.
Qed.

Lemma local_path_printable (title url : pystr) :
  printable (local_path title url) = true.
Proof.
  unfold local_path. rewrite printable_app, expected_filename_printable.
  reflexivity.
Qed.

(** ** One turn of the loop *)

Lemma truthy_str (s : pystr) : truthy (JStr s) = true <-> s <> [].
Proof. destruct s; simpl; split; congruence. Qed.

Lemma update_chapter_fields (downloaded_logos : pydict bool)
    (fields : pydict json) (st : stats) :
  update_chapter downloaded_logos (JObj fields) st =
  if negb (truthy (url_of fields)) then Ok (JObj fields, count_skipped st)
  else
    base_name <- sanitize_filename (title_of fields) ;;
    ext <- get_extension_from_url (url_of fields) ;;
    if dict_mem (base_name ++ ext) downloaded_logos then
      line78 <- py_print (UPDATED_MARK ++ py_str (id_of fields) ++ COLON_SPACE
                            ++ py_str (title_of fields)) ;;
      line79 <- py_print (INDENT ++ LOCAL_PREFIX ++ base_name ++ ext) ;;
      Ok (JObj (dict_set KEY_LOGOURL (JStr (LOCAL_PREFIX ++ base_name ++ ext)) fields),
          count_updated st)
    else
      line82 <- py_print (MISSING_MARK ++ py_str (id_of fields) ++ COLON_SPACE
                            ++ py_str (title_of fields)) ;;
      line83 <- py_print (NOT_FOUND ++ base_name ++ ext) ;;
      line84 <- py_print (KEEPING ++ py_str (url_of fields)) ;;
      Ok (JObj fields, count_missing st).
Proof.
  unfold update_chapter, py_get, title_of, url_of, id_of.
  destruct (dict_get KEY_ID fields); destruct (dict_get KEY_TITLE fields);
    destruct (dict_get KEY_LOGOURL fields); reflexivity.
Qed.

Lemma heading_printable (mark : pystr) (fields : pydict json) (title : pystr) :
  printable mark = true ->
  printable (mark ++ py_str (id_of fields) ++ COLON_SPACE ++ title) =
  heading_prints fields title.
Proof.
  intros M. unfold heading_prints. rewrite !printable_app, M. reflexivity.
Qed.

(** The turn on a chapter with a string title and a non-empty string
    logoUrl: it ends when the lines it prints can be encoded. *)
Lemma update_chapter_strings (downloaded_logos : pydict bool)
    (fields : pydict json) (title url : pystr) (st : stats) :
  title_of fields = JStr title -> url_of fields = JStr url -> url <> [] ->
  update_chapter downloaded_logos (JObj fields) st =
  if dict_mem (expected_filename title url) downloaded_logos then
    if heading_prints fields title then
      Ok (JObj (dict_set KEY_LOGOURL (JStr (local_path title url)) fields),
          count_updated st)
    else Raise UnicodeEncodeError
  else
    if heading_prints fields title && printable url then
      Ok (JObj fields, count_missing st)
    else Raise UnicodeEncodeError.
Proof.
  intros Et Eu Hn. rewrite update_chapter_fields, Et, Eu.
  apply truthy_str in Hn. rewrite Hn. cbn [negb sanitize_filename bind].
  unfold get_extension_from_url. rewrite Hn. cbn [negb bind py_str].
  fold (expected_filename title url).
  destruct (dict_mem (expected_filename title url) downloaded_logos).
  - unfold py_print.
    rewrite (heading_printable UPDATED_MARK fields title eq_refl).
    destruct (heading_prints fields title); [| reflexivity].
    cbn [bind]. fold (local_path title url).
    rewrite printable_app, local_path_printable. reflexivity.
  - unfold py_print.
    rewrite (heading_printable MISSING_MARK fields title eq_refl).
    destruct (heading_prints fields title); [| reflexivity].
    cbn [bind andb]. rewrite printable_app, expected_filename_printable.
    cbn [andb bind]. rewrite printable_app.
    destruct (printable url); reflexivity.
Qed.

Lemma update_chapter_sound (downloaded_logos : pydict bool)
    (chapter chapter' : json) (st st' : stats) :
  update_chapter downloaded_logos chapter st = Ok (chapter', st') ->
  exists o, chapter_step downloaded_logos chapter chapter' o /\ st' = count o st.
Proof.
  destruct chapter as [| | | | | |fields]; try discriminate.
  destruct (truthy (url_of fields)) eqn:Et.
  - destruct (title_of fields) as [| | | |title| |] eqn:Etitle;
      try (rewrite update_chapter_fields, Et, Etitle; discriminate).
    destruct (url_of fields) as [| | | |url| |] eqn:Eurl;
      try (rewrite update_chapter_fields, Eurl, Etitle, Et;
           cbn [negb sanitize_filename bind];
           unfold get_extension_from_url; rewrite Et; discriminate).
    apply truthy_str in Et.
    rewrite (update_chapter_strings _ _ title url st Etitle Eurl Et).
    destruct (dict_mem (expected_filename title url) downloaded_logos) eqn:Em.
    + destruct (heading_prints fields title) eqn:Hp; [| discriminate].
      intros E; injection E as <- <-. exists Updated. split; [| reflexivity].
      apply step_updated; assumption.
    + destruct (heading_prints fields title) eqn:Hp; [| discriminate].
      destruct (printable url) eqn:Hu; [| discriminate].
      intros E; injection E as <- <-. exists Missing. split; [| reflexivity].
      apply (step_missing _ _ title url); assumption.
  - rewrite update_chapter_fields, Et. simpl.
    intros E; injection E as <- <-. exists Skipped.
    split; [| reflexivity]. apply step_skipped; assumption.
Qed.

Lemma update_chapter_complete (downloaded_logos : pydict bool)
    (chapter chapter' : json) (o : outcome) (st : stats) :
  chapter_step downloaded_logos chapter chapter' o ->
  update_chapter downloaded_logos chapter st = Ok (chapter', count o st).
Proof.
  intros H. destruct H as [fields Et | fields title url Eu Hn Etitle Em Hp
                          | fields title url Eu Hn Etitle Em Hp Hu].
  - rewrite update_chapter_fields, Et. reflexivity.
  - rewrite (update_chapter_strings _ _ title url st Etitle Eu Hn), Em, Hp.
    reflexivity.
  - rewrite (update_chapter_strings _ _ title url st Etitle Eu Hn), Em, Hp, Hu.
    reflexivity.
Qed.

(** ** The loop *)

Lemma total_count (o : outcome) (st : stats) : total (count o st) = S (total st).
Proof. destruct o; unfold total; simpl; lia. Qed.

Lemma update_chapters_cons (downloaded_logos : pydict bool)
    (chapter : json) (rest out : list json) (st st' : stats) :
  update_chapters downloaded_logos (chapter :: rest) st = Ok (out, st') ->
  exists chapter' st1 rest',
    update_chapter downloaded_logos chapter st = Ok (chapter', st1) /\
    update_chapters downloaded_logos rest st1 = Ok (rest', st') /\
    out = chapter' :: rest'.
Proof.
  simpl. destruct (update_chapter downloaded_logos chapter st) as [[c1 st1]|];
    simpl; [| discriminate].
  destruct (update_chapters downloaded_logos rest st1) as [[r1 st2]|] eqn:E2;
    simpl; [| discriminate].
  intros E; injection E as <- <-. exists c1, st1, r1. auto.
Qed.

Lemma update_chapters_sound (downloaded_logos : pydict bool)
    (chapters out : list json) (st st' : stats) :
  update_chapters downloaded_logos chapters st = Ok (out, st') ->
  Forall2 (fun c c' => exists o, chapter_step downloaded_logos c c' o) chapters out /\
  total st' = (total st + List.length chapters)%nat.
Proof.
  revert out st; induction chapters as [|c rest IH]; intros out st.
  - simpl. intros E; injection E as <- <-. split; [constructor | lia].
  - intros E. apply update_chapters_cons in E.
    destruct E as [c1 [st1 [r1 [E1 [E2 ->]]]]].
    apply update_chapter_sound in E1. destruct E1 as [o [Hs ->]].
    destruct (IH _ _ E2) as [F T]. split.
    + constructor; [exists o; assumption | assumption].
    + rewrite T, total_count. simpl. lia.
Qed.

Lemma update_chapters_complete (downloaded_logos : pydict bool)
    (chapters out : list json) (st : stats) :
  Forall2 (fun c c' => exists o, chapter_step downloaded_logos c c' o) chapters out ->
  exists st', update_chapters downloaded_logos chapters st = Ok (out, st').
Proof.
  intros F; revert st; induction F as [|c c' rest out [o Hs] F IH]; intros st.
  - exists st. reflexivity.
  - simpl. rewrite (update_chapter_complete _ _ _ _ st Hs). simpl.
    destruct (IH (count o st)) as [st' ->]. simpl. eexists; reflexivity.
Qed.

Lemma chapter_well_typed_step (downloaded_logos : pydict bool) (chapter : json) :
  chapter_well_typed chapter = true -> chapter_printable chapter = true ->
  exists chapter' o, chapter_step downloaded_logos chapter chapter' o.
Proof.
  destruct chapter as [| | | | | |fields]; try discriminate. simpl.
  rewrite !andb_true_iff. intros [Ht Hu] [[Pi Pt] Pu].
  destruct (title_of fields) as [| | | |title| |] eqn:Etitle; try discriminate.
  destruct (url_of fields) as [| | | |url| |] eqn:Eurl; try discriminate.
  simpl in Pt, Pu.
  assert (Hp : heading_prints fields title = true)
    by (unfold heading_prints; rewrite Pi, Pt; reflexivity).
  destruct url as [|c url].
  - exists (JObj fields), Skipped. apply step_skipped. rewrite Eurl. reflexivity.
  - destruct (dict_mem (expected_filename title (c :: url)) downloaded_logos) eqn:Em.
    + eexists; exists Updated. eapply step_updated; eauto. discriminate.
    + eexists; exists Missing. eapply step_missing; eauto. discriminate.
Qed.

Lemma update_chapters_well_typed (downloaded_logos : pydict bool)
    (chapters : list json) (st : stats) :
  forallb chapter_well_typed chapters = true ->
  forallb chapter_printable chapters = true ->
  exists out st', update_chapters downloaded_logos chapters st = Ok (out, st').
Proof.
  intros W P.
  assert (F : exists out,
             Forall2 (fun c c' => exists o, chapter_step downloaded_logos c c' o)
               chapters out).
  { induction chapters as [|c rest IH]; [exists []; constructor |].
    simpl in W, P. apply andb_true_iff in W. destruct W as [Wc Wr].
    apply andb_true_iff in P. destruct P as [Pc Pr].
    destruct (chapter_well_typed_step downloaded_logos c Wc Pc) as [c' [o Hs]].
    destruct (IH Wr Pr) as [out F]. exists (c' :: out).
    constructor; [exists o; assumption | assumption]. }
  destruct F as [out F]. exists out.
  apply update_chapters_complete; assumption.
Qed.

(** ** The run *)

Lemma chapters_of_some (config : json) (items : list json) :
  chapters_of config = Some items ->
  exists fields, config = JObj fields /\
                 dict_get KEY_CHAPTERS fields = Some (JArr items).
Proof.
  destruct config as [| | | | | |fields]; try discriminate. unfold chapters_of.
  destruct (dict_get KEY_CHAPTERS fields) as [[| | | | |l|]|] eqn:Ed;
    try discriminate.
  intros E; injection E as ->. exists fields; auto.
Qed.

Lemma print_updating : py_print UPDATING_LINE = Ok tt.
Proof. reflexivity. Qed.

Lemma print_saving : py_print SAVING_LINE = Ok tt.
Proof. reflexivity. Qed.

Lemma run_list (downloaded_logos : pydict bool) (fields : pydict json)
    (items : list json) :
  dict_get KEY_CHAPTERS fields = Some (JArr items) ->
  run (JObj fields) downloaded_logos =
  match update_chapters downloaded_logos items no_stats with
  | Ok (items', st) => Ok (JObj (dict_set KEY_CHAPTERS (JArr items') fields), st)
  | Raise e => Raise e
  end.
Proof.
  intros E. unfold run, py_getitem. rewrite print_updating, E.
  cbn [bind py_iter py_setitem].
  destruct (update_chapters downloaded_logos items no_stats) as [[items' st]|];
    [| reflexivity].
  cbn [bind]. rewrite print_saving. reflexivity.
Qed.

(** When ["chapters"] is not a list, a run that ends has looped over
    nothing. *)
Lemma run_not_list (downloaded_logos : pydict bool) (config config' : json)
    (st : stats) :
  chapters_of config = None ->
  run config downloaded_logos = Ok (config', st) ->
  config' = config /\ st = no_stats.
Proof.
  destruct config as [| | | | | |fields]; try discriminate.
  unfold run, py_getitem. rewrite print_updating. cbn [chapters_of bind].
  destruct (dict_get KEY_CHAPTERS fields) as [v|]; [| discriminate].
  destruct v as [| | | |s|l|d]; try discriminate; intros _; cbn [bind py_iter].
  - destruct s as [|c s]; simpl.
    + intros E; injection E as <- <-; auto.
    + discriminate.
  - destruct d as [|kv d]; simpl.
    + intros E; injection E as <- <-; auto.
    + discriminate.
Qed.

Lemma run_well_typed (downloaded_logos : pydict bool) (config : json) :
  document_well_typed config = true -> document_printable config = true ->
  exists config' st, run config downloaded_logos = Ok (config', st).
Proof.
  unfold document_well_typed, document_printable.
  destruct (chapters_of config) as [items|] eqn:Ec; [| discriminate].
  intros W P. apply chapters_of_some in Ec. destruct Ec as [fields [-> Ec]].
  rewrite (run_list _ _ _ Ec).
  destruct (update_chapters_well_typed downloaded_logos items no_stats W P)
    as [out [st' ->]].
  do 2 eexists; reflexivity.
Qed.

Lemma Forall2_nth_error_l {A B : Type} (R : A -> B -> Prop)
    (l : list A) (l' : list B) (i : nat) (a : A) :
  Forall2 R l l' -> nth_error l i = Some a ->
  exists b, nth_error l' i = Some b /\ R a b.
Proof.
  intros F; revert i; induction F as [|x y l l' Hxy F IH]; intros i.
  - destruct i; discriminate.
  - destruct i as [|i]; simpl.
    + intros E; injection E as <-. exists y; auto.
    + apply IH.
Qed.

Lemma chapters_of_set (fields : pydict json) (items : list json) :
  chapters_of (JObj (dict_set KEY_CHAPTERS (JArr items) fields)) = Some items.
Proof. simpl. rewrite dict_get_set, str_eqb_refl. reflexivity. Qed.

Lemma step_after_run (downloaded_logos : pydict bool)
    (chapter chapter' : json) (st st' : stats) :
  update_chapter downloaded_logos chapter st = Ok (chapter', st') ->
  after_run downloaded_logos chapter chapter'.
Proof.
  intros U config items i config' st0 Ec Hn R.
  apply chapters_of_some in Ec. destruct Ec as [fields [-> Ec]].
  rewrite (run_list _ _ _ Ec) in R.
  destruct (update_chapters downloaded_logos items no_stats)
    as [[items' st1]|] eqn:El; [| discriminate].
  injection R as <- <-. exists items'. split; [apply chapters_of_set |].
  apply update_chapters_sound in El. destruct El as [F _].
  destruct (Forall2_nth_error_l _ _ _ _ _ F Hn) as [c1 [Hn1 [o Hs]]].
  rewrite Hn1. f_equal.
  apply (update_chapter_complete _ _ _ _ st) in Hs. congruence.
Qed.

(** The same when the loop turn has one possible outcome, whether or not
    it ends. *)
Lemma one_step_after_run (downloaded_logos : pydict bool) (chapter chapter' : json) :
  (forall c1 o, chapter_step downloaded_logos chapter c1 o -> c1 = chapter') ->
  after_run downloaded_logos chapter chapter'.
Proof.
  intros D config items i config' st0 Ec Hn R.
  apply chapters_of_some in Ec. destruct Ec as [fields [-> Ec]].
  rewrite (run_list _ _ _ Ec) in R.
  destruct (update_chapters downloaded_logos items no_stats)
    as [[items' st1]|] eqn:El; [| discriminate].
  injection R as <- <-. exists items'. split; [apply chapters_of_set |].
  apply update_chapters_sound in El. destruct El as [F _].
  destruct (Forall2_nth_error_l _ _ _ _ _ F Hn) as [c1 [Hn1 [o Hs]]].
  rewrite Hn1. f_equal. exact (D _ _ Hs).
Qed.

Lemma chapter_step_present (downloaded_logos : pydict bool) (fields : pydict json)
    (title url : pystr) (c1 : json) (o : outcome) :
  title_of fields = JStr title -> url_of fields = JStr url -> url <> [] ->
  dict_mem (expected_filename title url) downloaded_logos = true ->
  chapter_step downloaded_logos (JObj fields) c1 o ->
  c1 = JObj (dict_set KEY_LOGOURL (JStr (local_path title url)) fields).
Proof.
  intros Et Eu Hn Em H. inversion H as [f T | f t u Eu' Hn' Et' Em' Hp
                                       | f t u Eu' Hn' Et' Em' Hp Hu]; subst.
  - rewrite Eu in T. apply truthy_str in Hn. congruence.
  - rewrite Eu in Eu'. rewrite Et in Et'. injection Eu' as <-. injection Et' as <-.
    reflexivity.
  - rewrite Eu in Eu'. rewrite Et in Et'. injection Eu' as <-. injection Et' as <-.
    congruence.
Qed.

Lemma chapter_step_absent (downloaded_logos : pydict bool) (fields : pydict json)
    (title url : pystr) (c1 : json) (o : outcome) :
  title_of fields = JStr title -> url_of fields = JStr url ->
  dict_mem (expected_filename title url) downloaded_logos = false ->
  chapter_step downloaded_logos (JObj fields) c1 o ->
  c1 = JObj fields.
Proof.
  intros Et Eu Em H. inversion H as [f T | f t u Eu' Hn' Et' Em' Hp
                                    | f t u Eu' Hn' Et' Em' Hp Hu]; subst.
  - reflexivity.
  - rewrite Eu in Eu'. rewrite Et in Et'. injection Eu' as <-. injection Et' as <-.
    congruence.
  - reflexivity.
Qed.

(** ** What a run changes *)

Lemma url_of_nonempty (fields : pydict json) (url : pystr) :
  url_of fields = JStr url -> url <> [] ->
  dict_get KEY_LOGOURL fields = Some (JStr url).
Proof.
  unfold url_of. destruct (dict_get KEY_LOGOURL fields) as [v|].
  - intros ->; reflexivity.
  - intros E; injection E as <-. congruence.
Qed.

Lemma chapter_step_frame (downloaded_logos : pydict bool)
    (chapter chapter' : json) (o : outcome) :
  chapter_step downloaded_logos chapter chapter' o ->
  chapter_frame downloaded_logos chapter chapter'.
Proof.
  intros H. destruct H as [fields Et | fields title url Eu Hn Etitle Em Hp
                          | fields title url Eu Hn Etitle Em Hp Hu].
  - exists fields, fields. repeat split. apply same_but_refl. left; reflexivity.
  - exists fields, (dict_set KEY_LOGOURL (JStr (local_path title url)) fields).
    repeat split. apply (same_but_set _ _ _ (JStr url)).
    + left; reflexivity.
    + apply url_of_nonempty; assumption.
    + right. exists title, url. auto.
  - exists fields, fields. repeat split. apply same_but_refl. left; reflexivity.
Qed.

Lemma Forall2_length_same {A B : Type} (R : A -> B -> Prop) (l : list A) (l' : list B) :
  Forall2 R l l' -> List.length l' = List.length l.
Proof. induction 1; simpl; congruence. Qed.

Lemma run_frame (downloaded_logos : pydict bool) (config config' : json) (st : stats) :
  run config downloaded_logos = Ok (config', st) ->
  document_frame downloaded_logos config config'.
Proof.
  intros R.
  assert (O : exists fields, config = JObj fields).
  { destruct config; try discriminate. eexists; reflexivity. }
  destruct O as [fields ->].
  destruct (chapters_of (JObj fields)) as [items|] eqn:Ec.
  - apply chapters_of_some in Ec. destruct Ec as [fields0 [E0 Ec]].
    injection E0 as <-. rewrite (run_list _ _ _ Ec) in R.
    destruct (update_chapters downloaded_logos items no_stats)
      as [[items' st1]|] eqn:El; [| discriminate].
    injection R as <- <-. apply update_chapters_sound in El. destruct El as [F _].
    exists fields, (dict_set KEY_CHAPTERS (JArr items') fields). repeat split.
    apply (same_but_set _ _ _ (JArr items)); [left; reflexivity | assumption |].
    right. exists items, items'. repeat split.
    + exact (Forall2_length_same _ _ _ F).
    + eapply Forall2_impl; [| exact F].
      intros c c' [o Hs]. exact (chapter_step_frame _ _ _ _ Hs).
  - destruct (run_not_list _ _ _ _ Ec R) as [-> _].
    exists fields, fields. repeat split. apply same_but_refl. left; reflexivity.
Qed.

Lemma run_total (downloaded_logos : pydict bool) (config config' : json)
    (items : list json) (st : stats) :
  chapters_of config = Some items ->
  run config downloaded_logos = Ok (config', st) ->
  total st = List.length items.
Proof.
  intros Ec R. apply chapters_of_some in Ec. destruct Ec as [fields [-> Ec]].
  rewrite (run_list _ _ _ Ec) in R.
  destruct (update_chapters downloaded_logos items no_stats)
    as [[items' st1]|] eqn:El; [| discriminate].
  injection R as <- <-. apply update_chapters_sound in El.
  destruct El as [_ T]. rewrite T. reflexivity.
Qed.

(** ** The inventory *)

Lemma inventory_loop_mem (entries : list pystr) (acc : pydict bool) (name : pystr) :
  dict_mem name (inventory_loop entries acc) = true <->
  dict_mem name acc = true \/ (In name entries /\ startswith name DOT = false).
Proof.
  revert acc; induction entries as [|e entries IH]; intros acc; simpl.
  - tauto.
  - destruct (startswith e DOT) eqn:Es; rewrite IH.
    + split; [tauto |]. intros [H|[[->|H] D]]; auto. congruence.
    + rewrite dict_mem_set, orb_true_iff, str_eqb_eq. split.
      * intros [[->|H]|[H D]]; auto.
      * intros [H|[[->|H] D]]; auto.
Qed.

Lemma dict_mem_keys {V : Type} (k : pystr) (d : pydict V) :
  dict_mem k d = true <-> In k (map fst d).
Proof.
  unfold dict_mem. induction d as [|[k0 v0] d IH]; simpl.
  - split; [discriminate | tauto].
  - destruct (str_eqb k0 k) eqn:E.
    + apply str_eqb_eq in E. tauto.
    + apply str_eqb_neq in E. rewrite IH. tauto.
Qed.

Lemma dict_set_keys {V : Type} (k : pystr) (v : V) (d : pydict V) :
  map fst (dict_set k v d) = if dict_mem k d then map fst d else map fst d ++ [k].
Proof.
  unfold dict_mem. induction d as [|[k0 v0] d IH]; simpl; [reflexivity |].
  destruct (str_eqb k0 k) eqn:E; simpl; [reflexivity |].
  rewrite IH. destruct (dict_get k d); reflexivity.
Qed.

(** The keys of a dict stay distinct under assignment. *)
Lemma dict_set_NoDup {V : Type} (k : pystr) (v : V) (d : pydict V) :
  NoDup (map fst d) -> NoDup (map fst (dict_set k v d)).
Proof.
  intros N. rewrite dict_set_keys. destruct (dict_mem k d) eqn:E; [assumption |].
  assert (H : ~ In k (map fst d)).
  { intros H. apply dict_mem_keys in H. congruence. }
  clear E. induction (map fst d) as [|x l IH]; simpl.
  - constructor; [tauto | constructor].
  - inversion N as [|? ? Hx Nl]; subst. constructor.
    + rewrite in_app_iff. simpl in *. intros [Hin|[->|[]]]; tauto.
    + apply IH; [assumption |]. simpl in H. tauto.
Qed.

Lemma inventory_loop_NoDup (entries : list pystr) (acc : pydict bool) :
  NoDup (map fst acc) -> NoDup (map fst (inventory_loop entries acc)).
Proof.
  revert acc; induction entries as [|e entries IH]; intros acc N; simpl.
  - exact N.
  - destruct (startswith e DOT); apply IH; [exact N | apply dict_set_NoDup; exact N].
Qed.

Lemma build_inventory_mem (logos_dir : path_state) (downloaded_logos : pydict bool)
    (name : pystr) :
  build_inventory logos_dir = Ok downloaded_logos ->
  dict_mem name downloaded_logos = true -> startswith name DOT = false.
Proof.
  destruct logos_dir as [| |entries]; simpl; try discriminate.
  - intros E; injection E as <-. discriminate.
  - intros E; injection E as <-. rewrite inventory_loop_mem.
    intros [H|[_ H]]; [discriminate | assumption].
Qed.

(** ** A second run *)

Lemma search_from_skip closing (pre s : pystr) :
  Forall (fun c => c <> DOT) pre ->
  search_from closing (pre ++ s) = search_from closing s.
Proof.
  induction 1 as [|c pre Hc _ IH]; [reflexivity |].
  change ((c :: pre) ++ s) with (c :: (pre ++ s)). cbn [search_from match_here].
  apply N.eqb_neq in Hc. rewrite Hc. exact IH.
Qed.

Lemma name_char_not_dot (c : codepoint) : name_char c -> c <> DOT.
Proof.
  unfold name_char, in_a_z_0_9, in_range, HYPHEN, DOT. intros [H | ->]; [| lia].
  rewrite orb_true_iff, !andb_true_iff, !N.leb_le in H. lia.
Qed.

Lemma local_prefix_no_dot : Forall (fun c => c <> DOT) LOCAL_PREFIX.
Proof. repeat constructor; discriminate. Qed.

Lemma lower_from_settled (before g : pystr) :
  Forall settled g -> lower_from before g = map fold_case g.
Proof.
  intros F; revert before; induction F as [|c g Hc F IH]; intros before; simpl.
  - reflexivity.
  - rewrite IH. f_equal. unfold lower_char, fold_case, ascii_lower.
    destruct (c <? 128) eqn:E; [destruct (is_ascii_upper c); reflexivity |].
    apply N.ltb_ge in E.
    destruct Hc as [Hc|[->| ->]]; [lia | reflexivity | reflexivity].
Qed.

Lemma fold_case_lowercase (p : codepoint) : lowercase_letter p -> fold_case p = p.
Proof.
  unfold lowercase_letter, fold_case, ascii_lower, is_ascii_upper, in_range.
  intros Hp.
  assert (U : (65 <=? p) && (p <=? 90) = false)
    by (apply andb_false_iff; rewrite !N.leb_gt; lia).
  rewrite U. destruct (p <? 128); reflexivity.
Qed.

Lemma fold_case_capital (p : codepoint) : lowercase_letter p -> fold_case (p - 32) = p.
Proof.
  unfold lowercase_letter, fold_case, ascii_lower, is_ascii_upper, in_range.
  intros Hp.
  assert (L : (p - 32 <? 128) = true) by (apply N.ltb_lt; lia).
  assert (U : (65 <=? p - 32) && (p - 32 <=? 90) = true)
    by (apply andb_true_iff; rewrite !N.leb_le; lia).
  rewrite L, U. lia.
Qed.

Lemma letter_matches_self (p : codepoint) : letter_matches p p = true.
Proof. unfold letter_matches. rewrite N.eqb_refl. reflexivity. Qed.

Lemma letter_matches_fold (p c : codepoint) :
  lowercase_letter p -> p <> 107 -> c <> 304 -> letter_matches p c = true ->
  settled c /\ letter_matches p (fold_case c) = true /\
  fold_case (fold_case c) = fold_case c.
Proof.
  intros Hp Hk Hc M. pose proof Hp as Hp'. unfold lowercase_letter in Hp'.
  unfold letter_matches in M.
  rewrite !orb_true_iff, !andb_true_iff, !orb_true_iff, !N.eqb_eq in M.
  destruct M as [[[[E|E]|[E1 [E|E]]]|[E1 E]]|[E1 E]]; try lia; subst.
  - rewrite (fold_case_lowercase p Hp), (fold_case_lowercase p Hp).
    split; [left; lia |]. split; [apply letter_matches_self | reflexivity].
  - rewrite (fold_case_capital p Hp), (fold_case_lowercase p Hp).
    split; [left; lia |]. split; [apply letter_matches_self | reflexivity].
  - split; [right; left; reflexivity |]. split; reflexivity.
  - split; [right; right; reflexivity |]. split; reflexivity.
Qed.

Lemma spells_fold (name g : pystr) :
  Forall (fun p => lowercase_letter p /\ p <> 107) name ->
  ~ In 304 g -> spells name g ->
  Forall settled g /\ spells name (map fold_case g) /\
  map fold_case (map fold_case g) = map fold_case g.
Proof.
  intros L N S. induction S as [|p c name g Hc S IH].
  - repeat split; constructor.
  - inversion L as [|? ? [Hp Hk] L']; subst.
    assert (c <> 304) by (intros ->; apply N; simpl; auto).
    assert (N' : ~ In 304 g) by (intros H0; apply N; simpl; auto).
    destruct (IH L' N') as [F [S' M]].
    destruct (letter_matches_fold p c Hp Hk H Hc) as [Hs [Hm Hf]].
    repeat split; simpl.
    + constructor; assumption.
    + constructor; assumption.
    + rewrite Hf, M. reflexivity.
Qed.

(** Lowercasing a matched text without U+0130 gives a text that spells
    the same name and that [lower] leaves alone. *)
Lemma lower_matched (name g : pystr) :
  In name extensions -> ~ In 304 g -> spells name g ->
  spells name (lower g) /\ lower (lower g) = lower g.
Proof.
  intros I N S.
  destruct (spells_fold name g (extensions_letters _ I) N S) as [F [S' M]].
  unfold lower. rewrite (lower_from_settled [] g F). split; [assumption |].
  rewrite lower_from_settled; [assumption |].
  clear - F. induction F as [|c g Hc F IH]; simpl; constructor; [| assumption].
  unfold fold_case, settled in *. destruct (c <? 128) eqn:E.
  - left. apply N.ltb_lt in E. unfold ascii_lower, is_ascii_upper, in_range.
    destruct ((65 <=? c) && (c <=? 90)) eqn:U; [| assumption].
    rewrite andb_true_iff, !N.leb_le in U. lia.
  - apply N.ltb_ge in E. destruct Hc as [Hc|Hc]; [lia | right; assumption].
Qed.

(** The resolver on the local path that an update wrote. *)
Lemma extension_stable (title url : pystr) :
  ~ In 304 url -> extension (local_path title url) = extension url.
Proof.
  intros N. unfold local_path, expected_filename.
  assert (Skip : forall e,
             re_search_extension (LOCAL_PREFIX ++ sanitize title ++ e) =
             re_search_extension e).
  { intros e. unfold re_search_extension. rewrite app_assoc.
    apply search_from_skip. apply Forall_app. split.
    - apply local_prefix_no_dot.
    - eapply Forall_impl; [| apply sanitize_chars]. apply name_char_not_dot. }
  unfold extension at 1. rewrite Skip.
  unfold extension. destruct (re_search_extension url) as [g|] eqn:Es.
  - unfold re_search_extension in Es. apply search_from_some in Es.
    destruct Es as [pre [[name [rest [E [I [S C]]]]] _]].
    assert (Ng : ~ In 304 g).
    { intros H. apply N. rewrite E. apply in_or_app. right. right.
      apply in_or_app. left. assumption. }
    destruct (lower_matched name g I Ng S) as [S' L'].
    assert (M : re_search_extension (DOT :: lower g) = Some (lower g)).
    { unfold re_search_extension. cbn [search_from].
      assert (H : match_here closing_group (DOT :: lower g) = Some (lower g)).
      { apply match_here_spec. exists name, []. rewrite app_nil_r. auto. }
      rewrite H. reflexivity. }
    rewrite M, L'. reflexivity.
  - reflexivity.
Qed.

Lemma dict_set_twice {V : Type} (k : pystr) (v v' : V) (d : pydict V) :
  dict_set k v' (dict_set k v d) = dict_set k v' d.
Proof.
  induction d as [|[k0 v0] d IH]; simpl.
  - rewrite str_eqb_refl. reflexivity.
  - destruct (str_eqb k0 k) eqn:E; simpl; rewrite E; [reflexivity |].
    rewrite IH. reflexivity.
Qed.

Lemma heading_prints_set (fields : pydict json) (title : pystr) (v : json) :
  heading_prints (dict_set KEY_LOGOURL v fields) title = heading_prints fields title.
Proof.
  unfold heading_prints, id_of. rewrite dict_get_set.
  change (str_eqb KEY_LOGOURL KEY_ID) with false. reflexivity.
Qed.

Lemma chapter_step_again (downloaded_logos : pydict bool)
    (chapter chapter' : json) (o : outcome) :
  plain_url chapter = true ->
  chapter_step downloaded_logos chapter chapter' o ->
  chapter_step downloaded_logos chapter' chapter' o.
Proof.
  intros P H. destruct H as [fields Et | fields title url Eu Hn Etitle Em Hp
                            | fields title url Eu Hn Etitle Em Hp Hu].
  - apply step_skipped; assumption.
  - simpl in P. rewrite Eu in P. apply negb_true_iff in P.
    assert (N : ~ In 304 url).
    { intros H. assert (X : existsb (N.eqb 304) url = true).
      { apply existsb_exists. exists 304. split; [assumption | apply N.eqb_refl]. }
      congruence. }
    set (fields' := dict_set KEY_LOGOURL (JStr (local_path title url)) fields).
    assert (Eu' : url_of fields' = JStr (local_path title url)).
    { unfold url_of, fields'. rewrite dict_get_set, str_eqb_refl. reflexivity. }
    assert (Et' : title_of fields' = JStr title).
    { unfold title_of, fields'. rewrite dict_get_set.
      change (str_eqb KEY_LOGOURL KEY_TITLE) with false. exact Etitle. }
    assert (Ex : expected_filename title (local_path title url) =
                 expected_filename title url).
    { unfold expected_filename at 1. rewrite (extension_stable title url N).
      reflexivity. }
    assert (Hs : chapter_step downloaded_logos (JObj fields')
                   (JObj (dict_set KEY_LOGOURL
                            (JStr (local_path title (local_path title url))) fields'))
                   Updated).
    { apply step_updated; try assumption.
      - unfold local_path, LOCAL_PREFIX. discriminate.
      - rewrite Ex. assumption.
      - unfold fields'. rewrite heading_prints_set. exact Hp. }
    replace (dict_set KEY_LOGOURL
               (JStr (local_path title (local_path title url))) fields')
      with fields' in Hs; [exact Hs |].
    unfold fields'. rewrite dict_set_twice.
    change (local_path title (local_path title url))
      with (LOCAL_PREFIX ++ expected_filename title (local_path title url)).
    rewrite Ex. reflexivity.
  - eapply step_missing; eassumption.
Qed.

(** The search on a local path goes through the prefix and the name. *)
Lemma local_path_search (title e : pystr) :
  re_search_extension (LOCAL_PREFIX ++ sanitize title ++ e) = re_search_extension e.
Proof.
  unfold re_search_extension. rewrite app_assoc.
  apply search_from_skip. apply Forall_app. split.
  - apply local_prefix_no_dot.
  - eapply Forall_impl; [| apply sanitize_chars]. apply name_char_not_dot.
Qed.

Lemma in_existsb (c : codepoint) (s : pystr) :
  existsb (N.eqb c) s = true <-> In c s.
Proof.
  rewrite existsb_exists. split.
  - intros [x [I E]]. apply N.eqb_eq in E. subst x. exact I.
  - intros I. exists c. split; [exact I | apply N.eqb_refl].
Qed.

(** The resolver on the local path, when the text it matched in the URL
    has no U+0130. *)
Lemma extension_stable_matched (title url : pystr) :
  matched_text_plain url = true ->
  extension (local_path title url) = extension url.
Proof.
  unfold matched_text_plain. intros P. unfold local_path, expected_filename.
  unfold extension at 1. rewrite local_path_search.
  unfold extension. destruct (re_search_extension url) as [g|] eqn:Es.
  - unfold re_search_extension in Es. apply search_from_some in Es.
    destruct Es as [pre [[name [rest [E [I [S C]]]]] _]].
    assert (Ng : ~ In 304 g).
    { intros H. apply in_existsb in H. rewrite H in P. discriminate. }
    destruct (lower_matched name g I Ng S) as [S' L'].
    assert (M : re_search_extension (DOT :: lower g) = Some (lower g)).
    { unfold re_search_extension. cbn [search_from].
      assert (H : match_here closing_group (DOT :: lower g) = Some (lower g)).
      { apply match_here_spec. exists name, []. rewrite app_nil_r. auto. }
      rewrite H. reflexivity. }
    rewrite M, L'. reflexivity.
  - reflexivity.
Qed.

Lemma letter_matches_cases (p c : codepoint) :
  letter_matches p c = true ->
  c = p \/ c = p - 32 \/ (p = 105 /\ (c = 304 \/ c = 305)) \/
  (p = 115 /\ c = 383) \/ (p = 107 /\ c = 8490).
Proof.
  unfold letter_matches.
  rewrite !orb_true_iff, !andb_true_iff, !orb_true_iff, !N.eqb_eq. tauto.
Qed.

(** Only "gif" has a letter that U+0130 spells. *)
Lemma spells_dotted (name g : pystr) :
  In name extensions -> spells name g -> In 304 g ->
  exists c1 c3, g = [c1; 304; c3] /\ (c1 = 103 \/ c1 = 71) /\ (c3 = 102 \/ c3 = 70).
Proof.
  intros I S H. unfold extensions in I. cbv in I.
  destruct I as [<-|[<-|[<-|[<-|[<-|[<-|[]]]]]]];
    repeat match goal with
           | S : spells (_ :: _) _ |- _ => inversion S; subst; clear S
           | S : spells [] _ |- _ => inversion S; subst; clear S
           | S : Forall2 _ (_ :: _) _ |- _ => inversion S; subst; clear S
           | S : Forall2 _ [] _ |- _ => inversion S; subst; clear S
           | M : letter_matches _ _ = true |- _ => apply letter_matches_cases in M
           end;
    cbn [In] in H;
    try (exfalso; lia).
  match goal with
  | |- exists c1 c3, [?a; ?b; ?c] = _ /\ _ =>
      assert (b = 304) by lia; subst b; exists a, c;
      split; [reflexivity | split; lia]
  end.
Qed.

Lemma lower_dotted (c1 c3 : codepoint) :
  c1 = 103 \/ c1 = 71 -> c3 = 102 \/ c3 = 70 ->
  lower [c1; 304; c3] = [103; 105; 775; 102].
Proof. intros [->| ->] [->| ->]; reflexivity. Qed.

(** When the matched text has U+0130 the extension is ".gi" + U+0307 +
    "f", which the resolver does not find again. *)
Lemma extension_dotted (url : pystr) :
  matched_text_plain url = false -> extension url = DOT :: [103; 105; 775; 102].
Proof.
  unfold matched_text_plain, extension.
  destruct (re_search_extension url) as [g|] eqn:Es; [| discriminate].
  intros P. apply negb_false_iff, in_existsb in P.
  destruct (search_result_spells _ _ Es) as [name [I S]].
  destruct (spells_dotted name g I S P) as [c1 [c3 [-> [H1 H3]]]].
  f_equal. exact (lower_dotted c1 c3 H1 H3).
Qed.

Lemma extension_after_dotted (title url : pystr) :
  matched_text_plain url = false ->
  extension (local_path title url) = DEFAULT_EXTENSION.
Proof.
  intros P. unfold local_path, expected_filename.
  unfold extension at 1. rewrite local_path_search.
  rewrite (extension_dotted url P). reflexivity.
Qed.

Lemma local_path_injective (title e e' : pystr) :
  LOCAL_PREFIX ++ sanitize title ++ e = LOCAL_PREFIX ++ sanitize title ++ e' -> e = e'.
Proof. intros E. apply app_inv_head in E. apply app_inv_head in E. exact E. Qed.

Lemma dict_set_injective {V : Type} (k : pystr) (v v' : V) (d : pydict V) :
  dict_set k v d = dict_set k v' d -> v = v'.
Proof.
  intros E. apply (f_equal (dict_get k)) in E.
  rewrite !dict_get_set, str_eqb_refl in E. congruence.
Qed.

(** The turn of a second run on the chapter that the first run left: it
    ends, and it leaves the chapter as it finds it exactly when the
    chapter is safe to run again. *)
Lemma chapter_step_second (downloaded_logos : pydict bool)
    (chapter chapter' : json) (o : outcome) :
  chapter_step downloaded_logos chapter chapter' o ->
  exists chapter'' o',
    chapter_step downloaded_logos chapter' chapter'' o' /\
    (chapter'' = chapter' <-> rerun_safe downloaded_logos chapter = true).
Proof.
  intros H. destruct H as [fields Et | fields title url Eu Hn Etitle Em Hp
                          | fields title url Eu Hn Etitle Em Hp Hu].
  - exists (JObj fields), Skipped. split; [apply step_skipped; exact Et |].
    split; [| reflexivity]. intros _. unfold rerun_safe.
    destruct (title_of fields); try reflexivity.
    destruct (url_of fields) as [| | | |url| |]; try reflexivity.
    destruct url; [| discriminate].
    change (matched_text_plain []) with true. rewrite orb_true_r. reflexivity.
  - set (fields' := dict_set KEY_LOGOURL (JStr (local_path title url)) fields).
    assert (Eu' : url_of fields' = JStr (local_path title url)).
    { unfold url_of, fields'. rewrite dict_get_set, str_eqb_refl. reflexivity. }
    assert (Et' : title_of fields' = JStr title).
    { unfold title_of, fields'. rewrite dict_get_set.
      change (str_eqb KEY_LOGOURL KEY_TITLE) with false. exact Etitle. }
    assert (Hn' : local_path title url <> [])
      by (unfold local_path, LOCAL_PREFIX; discriminate).
    assert (Hp' : heading_prints fields' title = true)
      by (unfold fields'; rewrite heading_prints_set; exact Hp).
    assert (Es : rerun_safe downloaded_logos (JObj fields) =
                 matched_text_plain url ||
                 negb (dict_mem (sanitize title ++ DEFAULT_EXTENSION) downloaded_logos)).
    { unfold rerun_safe. rewrite Etitle, Eu, Em. reflexivity. }
    rewrite Es. destruct (matched_text_plain url) eqn:P.
    + assert (Ex : expected_filename title (local_path title url) =
                   expected_filename title url).
      { unfold expected_filename at 1. rewrite (extension_stable_matched title url P).
        reflexivity. }
      exists (JObj fields'), Updated. split; [| split; reflexivity].
      assert (Hs : chapter_step downloaded_logos (JObj fields')
                     (JObj (dict_set KEY_LOGOURL
                              (JStr (local_path title (local_path title url))) fields'))
                     Updated).
      { apply step_updated; try assumption. rewrite Ex. assumption. }
      replace (dict_set KEY_LOGOURL
                 (JStr (local_path title (local_path title url))) fields')
        with fields' in Hs; [exact Hs |].
      unfold fields'. rewrite dict_set_twice.
      change (local_path title (local_path title url))
        with (LOCAL_PREFIX ++ expected_filename title (local_path title url)).
      rewrite Ex. reflexivity.
    + assert (Ex : expected_filename title (local_path title url) =
                   sanitize title ++ DEFAULT_EXTENSION).
      { unfold expected_filename at 1. rewrite (extension_after_dotted title url P).
        reflexivity. }
      destruct (dict_mem (sanitize title ++ DEFAULT_EXTENSION) downloaded_logos)
        eqn:Ed.
      * exists (JObj (dict_set KEY_LOGOURL
                        (JStr (local_path title (local_path title url))) fields')),
          Updated.
        split; [apply step_updated; try assumption; rewrite Ex; exact Ed |].
        split; [| discriminate]. intros E. exfalso. injection E as E.
        unfold fields' in E. rewrite dict_set_twice in E.
        apply dict_set_injective in E.
        assert (E1 : local_path title (local_path title url) = local_path title url)
          by congruence.
        apply local_path_injective in E1.
        pose proof (eq_trans (eq_sym (extension_after_dotted title url P))
                      (eq_trans E1 (extension_dotted url P))) as E2.
        discriminate E2.
      * exists (JObj fields'), Missing. split; [| split; reflexivity].
        apply (step_missing _ _ title (local_path title url)); try assumption.
        -- rewrite Ex. exact Ed.
        -- apply local_path_printable.
  - exists (JObj fields), Missing.
    split; [eapply step_missing; eassumption |].
    split; [| reflexivity]. intros _. unfold rerun_safe.
    rewrite Etitle, Eu, Em. reflexivity.
Qed.

Lemma update_chapters_second (downloaded_logos : pydict bool)
    (items items' : list json) :
  Forall2 (fun c c' => exists o, chapter_step downloaded_logos c c' o) items items' ->
  exists items'',
    Forall2 (fun c c' => exists o, chapter_step downloaded_logos c c' o) items' items'' /\
    (items'' = items' <-> forallb (rerun_safe downloaded_logos) items = true).
Proof.
  induction 1 as [|c c' l l' [o Hs] F [l'' [F' I]]].
  - exists []. split; [constructor | split; reflexivity].
  - destruct (chapter_step_second _ _ _ _ Hs) as [c'' [o' [Hs' Ic]]].
    exists (c'' :: l''). split; [constructor; [exists o'; exact Hs' | exact F'] |].
    cbn [forallb]. rewrite andb_true_iff, <- Ic, <- I. split.
    + intros E; injection E as -> ->. split; reflexivity.
    + intros [-> ->]. reflexivity.
Qed.

(** A second run over the document that a first run left ends, and it
    leaves that document as it finds it exactly when every chapter is
    safe to run again. *)
Lemma run_second (downloaded_logos : pydict bool) (config config1 : json)
    (st1 : stats) :
  run config downloaded_logos = Ok (config1, st1) ->
  exists config2 st2,
    run config1 downloaded_logos = Ok (config2, st2) /\
    (config2 = config1 <-> reruns_safe downloaded_logos config = true).
Proof.
  unfold reruns_safe. intros R.
  destruct (chapters_of config) as [items|] eqn:Ec.
  - apply chapters_of_some in Ec. destruct Ec as [fields [-> Ec]].
    rewrite (run_list _ _ _ Ec) in R.
    destruct (update_chapters downloaded_logos items no_stats)
      as [[items' st]|] eqn:El; [| discriminate].
    injection R as <- <-. apply update_chapters_sound in El. destruct El as [F _].
    destruct (update_chapters_second _ _ _ F) as [items'' [F' I]].
    destruct (update_chapters_complete _ _ _ no_stats F') as [st2 E2].
    exists (JObj (dict_set KEY_CHAPTERS (JArr items'') fields)), st2. split.
    + erewrite run_list.
      * rewrite E2, dict_set_twice. reflexivity.
      * rewrite dict_get_set, str_eqb_refl. reflexivity.
    + rewrite <- I. split.
      * intros E. injection E as E. apply dict_set_injective in E.
        injection E as E. exact E.
      * intros ->. reflexivity.
  - destruct (run_not_list _ _ _ _ Ec R) as [-> _]. exists config, st1.
    split; [exact R | split; reflexivity].
Qed.

(** ** The claims *)

(** C1: a run that ends leaves a document with the same keys in the same
    order and the same values, except under "chapters"; the chapter list
    has the same length, and chapter by chapter, in order, the fields
    are the same except that the value of "logoUrl" may have become the
    local path of an expected filename that is in the inventory.  On a
    document of the data model whose ids, titles and logoUrls standard
    output can encode, the run does end. *)
Theorem C1_only_logo_urls_change (config : json) (downloaded_logos : pydict bool) :
  (document_well_typed config = true -> document_printable config = true ->
   exists config' st, run config downloaded_logos = Ok (config', st)) /\
  (forall config' st,
      run config downloaded_logos = Ok (config', st) ->
      document_frame downloaded_logos config config').
Proof.
  split; [apply run_well_typed | intros config' st; apply run_frame].
Qed.

(** C2: a chapter with a non-empty logoUrl whose expected filename
    sanitize(title) + extension(logoUrl) is in the inventory is counted
    as updated and gets "assets/logos/" + that filename as its logoUrl:
    in the loop turn, which ends when standard output can encode the id
    and the title that it prints, and in the document of every run that
    ends.  For the title "Chapter One: Intro!" and the URL
    "https://x.com/a.PNG" the expected filename is
    "chapter-one-intro.png" and the logoUrl becomes
    "assets/logos/chapter-one-intro.png". *)
Theorem C2_present_file_is_used (downloaded_logos : pydict bool)
    (fields : pydict json) (title url : pystr) (st : stats) :
  title_of fields = JStr title ->
  dict_get KEY_LOGOURL fields = Some (JStr url) -> url <> [] ->
  dict_mem (sanitize title ++ extension url) downloaded_logos = true ->
  ((printable (py_str (id_of fields)) = true -> printable title = true ->
    update_chapter downloaded_logos (JObj fields) st =
      Ok (JObj (dict_set KEY_LOGOURL
                  (JStr (lit "assets/logos/" ++ sanitize title ++ extension url)) fields),
          count_updated st)) /\
   dict_get KEY_LOGOURL
     (dict_set KEY_LOGOURL
        (JStr (lit "assets/logos/" ++ sanitize title ++ extension url)) fields) =
     Some (JStr (lit "assets/logos/" ++ sanitize title ++ extension url)) /\
   after_run downloaded_logos (JObj fields)
     (JObj (dict_set KEY_LOGOURL
              (JStr (lit "assets/logos/" ++ sanitize title ++ extension url)) fields))) /\
  (sanitize example_title ++ extension example_url = lit "chapter-one-intro.png" /\
   (dict_mem (lit "chapter-one-intro.png") downloaded_logos = true ->
    update_chapter downloaded_logos (example_chapter example_url) st =
      Ok (example_chapter (lit "assets/logos/chapter-one-intro.png"),
          count_updated st))).
Proof.
  intros Et Eu Hn Em.
  assert (Eu' : url_of fields = JStr url) by (unfold url_of; rewrite Eu; reflexivity).
  split; [split; [| split] | split].
  - intros Pi Pt. apply (update_chapter_complete _ _ _ Updated).
    apply step_updated; try assumption.
    unfold heading_prints. rewrite Pi, Pt. reflexivity.
  - rewrite dict_get_set, str_eqb_refl. reflexivity.
  - apply one_step_after_run. intros c1 o Hs.
    exact (chapter_step_present _ _ _ _ _ _ Et Eu' Hn Em Hs).
  - reflexivity.
  - intros Hm.
    assert (S : chapter_step downloaded_logos (example_chapter example_url)
                  (JObj (dict_set KEY_LOGOURL
                           (JStr (local_path example_title example_url))
                           [(KEY_ID, JInt 1); (KEY_TITLE, JStr example_title);
                            (KEY_LOGOURL, JStr example_url)])) Updated).
    { apply step_updated;
        [reflexivity | discriminate | reflexivity | exact Hm | reflexivity]. }
    exact (update_chapter_complete _ _ _ _ st S).
Qed.

(** C3: a chapter with a non-empty logoUrl whose expected filename is not
    in the inventory is counted as missing and is left as it was, its
    logoUrl included: in the loop turn, which ends when standard output
    can encode the id, the title and the logoUrl that it prints, and in
    the document of every run that ends. *)
Theorem C3_absent_file_keeps_url (downloaded_logos : pydict bool)
    (fields : pydict json) (title url : pystr) (st : stats) :
  title_of fields = JStr title ->
  dict_get KEY_LOGOURL fields = Some (JStr url) -> url <> [] ->
  dict_mem (sanitize title ++ extension url) downloaded_logos = false ->
  (printable (py_str (id_of fields)) = true -> printable title = true ->
   printable url = true ->
   update_chapter downloaded_logos (JObj fields) st =
     Ok (JObj fields, count_missing st)) /\
  after_run downloaded_logos (JObj fields) (JObj fields).
Proof.
  intros Et Eu Hn Em.
  assert (Eu' : url_of fields = JStr url) by (unfold url_of; rewrite Eu; reflexivity).
  split.
  - intros Pi Pt Pu. apply (update_chapter_complete _ _ _ Missing).
    apply (step_missing _ _ title url); try assumption.
    unfold heading_prints. rewrite Pi, Pt. reflexivity.
  - apply one_step_after_run. intros c1 o Hs.
    exact (chapter_step_absent _ _ _ _ _ _ Et Eu' Em Hs).
Qed.

(** C4 (the code departs from it): sanitize_filename strips the hyphens
    before it cuts the name to 50 characters, so the cut can leave a
    hyphen at the end.  For the title of 49 "a", a space and "b" the
    stripped name is 49 "a", "-", "b" and the result is 49 "a" followed
    by a hyphen. *)
Theorem C4_slice_leaves_trailing_hyphen :
  sanitize_stripped cut_title = repeat 97 49 ++ lit "-b" /\
  sanitize cut_title = repeat 97 49 ++ [HYPHEN] /\
  sanitize_filename (JStr cut_title) = Ok (repeat 97 49 ++ [HYPHEN]).
Proof. repeat split; vm_compute; reflexivity. Qed.

(** C5 (amended): the resolver returns ".png" for an empty or absent URL.
    Otherwise it takes the leftmost place where a dot is followed by a
    text that spells one of jpg, jpeg, png, svg, gif, webp up to case
    and then by the end of the string, by a newline that ends the
    string, or by "?", and returns the dot and that text lowercased,
    which is the name itself when the text is ASCII.  A URL with no such
    place gives ".png". *)
Theorem C5_extension_resolver :
  (get_extension_from_url (JStr []) = Ok (lit ".png") /\
   get_extension_from_url JNull = Ok (lit ".png")) /\
  (forall rest,
      closing_group rest = true <->
      rest = [] \/ rest = [NEWLINE] \/ exists rest', rest = QUESTION :: rest') /\
  (forall url pre g,
      leftmost_token closing_group url pre g ->
      get_extension_from_url (JStr url) = Ok (DOT :: lower g) /\
      exists name, In name extensions /\ spells name g /\
                   (Forall (fun c => c < 128) g -> lower g = name)) /\
  (forall url,
      (forall pre g, ~ token_at closing_group url pre g) ->
      get_extension_from_url (JStr url) = Ok (lit ".png")).
Proof.
  split; [split; reflexivity |]. split; [apply closing_group_spec |]. split.
  - intros url pre g L.
    assert (Es : re_search_extension url = Some g)
      by (apply search_from_some; exists pre; exact L).
    destruct L as [[name [rest [E [I [S C]]]]] _]. split.
    + unfold get_extension_from_url.
      assert (T : truthy (JStr url) = true)
        by (apply truthy_str; rewrite E; destruct pre; discriminate).
      rewrite T. simpl. rewrite (extension_of_match _ _ Es). reflexivity.
    + exists name. repeat split; try assumption.
      apply spells_ascii_lower; [apply extensions_lowercase |]; assumption.
  - intros url H.
    assert (Es : re_search_extension url = None)
      by (apply search_from_none; exact H).
    unfold get_extension_from_url. destruct (truthy (JStr url)); simpl.
    + rewrite (extension_of_no_match _ Es). reflexivity.
    + reflexivity.
Qed.

(** C6: a chapter whose logoUrl is missing, empty or null is counted as
    skipped and left as it is, whatever its title is (a title that is
    not a string would make sanitize_filename raise, were it called), in
    the loop turn and in the document of every run that ends. *)
Theorem C6_no_url_is_skipped (downloaded_logos : pydict bool)
    (fields : pydict json) (st : stats) :
  url_empty_or_absent fields ->
  update_chapter downloaded_logos (JObj fields) st =
    Ok (JObj fields, count_skipped st) /\
  after_run downloaded_logos (JObj fields) (JObj fields).
Proof.
  intros H.
  assert (F : truthy (url_of fields) = false).
  { unfold url_of. destruct H as [->|[->| ->]]; reflexivity. }
  assert (U : update_chapter downloaded_logos (JObj fields) st =
              Ok (JObj fields, count_skipped st)).
  { apply (update_chapter_complete _ _ _ Skipped). apply step_skipped; exact F. }
  split; [exact U | exact (step_after_run _ _ _ _ _ U)].
Qed.

(** C7: when a run over a chapter list ends, updated + missing + skipped
    is the number of chapters of the list; and over chapters of the data
    model whose ids, titles and logoUrls standard output can encode, the
    run does end. *)
Theorem C7_counters_add_up (config : json) (items : list json)
    (downloaded_logos : pydict bool) :
  chapters_of config = Some items ->
  (forallb chapter_well_typed items = true ->
   forallb chapter_printable items = true ->
   exists config' st, run config downloaded_logos = Ok (config', st)) /\
  (forall config' st,
      run config downloaded_logos = Ok (config', st) ->
      (updated_count st + missing_count st + skipped_count st)%nat =
      List.length items).
Proof.
  intros Ec. split.
  - intros W P. apply run_well_typed.
    + unfold document_well_typed. rewrite Ec. exact W.
    + unfold document_printable. rewrite Ec. exact P.
  - intros config' st R. exact (run_total _ _ _ _ _ Ec R).
Qed.

(** C8: a logos directory that does not exist gives the empty inventory
    and no error; a directory gives the inventory that holds, once each,
    exactly those of its entries that do not begin with a dot; so
    ".hidden.png" is in no inventory. *)
Theorem C8_inventory_skips_hidden :
  build_inventory NoSuchPath = Ok [] /\
  (forall entries,
      exists downloaded_logos,
        build_inventory (Directory entries) = Ok downloaded_logos /\
        NoDup (map fst downloaded_logos) /\
        forall name,
          dict_mem name downloaded_logos = true <->
          In name entries /\ startswith name DOT = false) /\
  (forall logos_dir downloaded_logos,
      build_inventory logos_dir = Ok downloaded_logos ->
      dict_mem (lit ".hidden.png") downloaded_logos = false).
Proof.
  split; [reflexivity |]. split.
  - intros entries. exists (inventory_loop entries []). split; [reflexivity |].
    split; [apply inventory_loop_NoDup; constructor |].
    intros name. rewrite inventory_loop_mem. split; [| auto].
    intros [H|H]; [discriminate | exact H].
  - intros logos_dir downloaded_logos E.
    destruct (dict_mem (lit ".hidden.png") downloaded_logos) eqn:Em; [| reflexivity].
    pose proof (build_inventory_mem _ _ _ E Em) as H. discriminate H.
Qed.

(** C9 (amended): a second run with the same inventory over the document
    that a first run left ends, and it leaves that document as it finds
    it exactly when no chapter is one that the first run updates, whose
    logoUrl has U+0130 in the text that the resolver matches, and for
    which a file sanitize(title) + ".png" is in the inventory.  When the
    matched text has no U+0130, the resolver finds on the local path
    written by the first run the extension it found on the original URL.
    On a document of the data model whose ids, titles and logoUrls
    standard output can encode, the first run does end. *)
Theorem C9_second_run_changes_nothing (config : json) (downloaded_logos : pydict bool) :
  (document_well_typed config = true -> document_printable config = true ->
   exists config1 st1, run config downloaded_logos = Ok (config1, st1)) /\
  (forall config1 st1,
      run config downloaded_logos = Ok (config1, st1) ->
      exists config2 st2,
        run config1 downloaded_logos = Ok (config2, st2) /\
        (config2 = config1 <-> reruns_safe downloaded_logos config = true)) /\
  (forall title url,
      matched_text_plain url = true ->
      extension (lit "assets/logos/" ++ sanitize title ++ extension url) =
      extension url).
Proof.
  split; [apply run_well_typed |]. split.
  - intros config1 st1 R. exact (run_second _ _ _ _ R).
  - intros title url P. exact (extension_stable_matched title url P).
Qed.

(** C10: with the inventory of a logos directory, a chapter whose title
    sanitizes to the empty string and whose logoUrl is a non-empty string
    has an expected filename that begins with a dot and is not in the
    inventory; the chapter is counted as missing and left as it is: in
    the loop turn, which ends when standard output can encode the id, the
    title and the logoUrl that it prints, and in the document of every
    run that ends. *)
Theorem C10_empty_name_is_missing (logos_dir : path_state)
    (downloaded_logos : pydict bool) (fields : pydict json)
    (title url : pystr) (st : stats) :
  build_inventory logos_dir = Ok downloaded_logos ->
  title_of fields = JStr title -> sanitize title = [] ->
  dict_get KEY_LOGOURL fields = Some (JStr url) -> url <> [] ->
  startswith (sanitize title ++ extension url) DOT = true /\
  dict_mem (sanitize title ++ extension url) downloaded_logos = false /\
  (printable (py_str (id_of fields)) = true -> printable title = true ->
   printable url = true ->
   update_chapter downloaded_logos (JObj fields) st =
     Ok (JObj fields, count_missing st)) /\
  after_run downloaded_logos (JObj fields) (JObj fields).
Proof.
  intros Ei Et Es Eu Hn.
  assert (D : startswith (sanitize title ++ extension url) DOT = true).
  { rewrite Es. destruct (extension_starts_with_dot url) as [e ->]. reflexivity. }
  assert (M : dict_mem (sanitize title ++ extension url) downloaded_logos = false).
  { destruct (dict_mem (sanitize title ++ extension url) downloaded_logos) eqn:Em;
      [| reflexivity].
    pose proof (build_inventory_mem _ _ _ Ei Em). congruence. }
  assert (Eu' : url_of fields = JStr url) by (unfold url_of; rewrite Eu; reflexivity).
  split; [exact D | split; [exact M | split]].
  - intros Pi Pt Pu. apply (update_chapter_complete _ _ _ Missing).
    apply (step_missing _ _ title url); try assumption.
    unfold heading_prints. rewrite Pi, Pt. reflexivity.
  - apply one_step_after_run. intros c1 o Hs.
    exact (chapter_step_absent _ _ _ _ _ _ Et Eu' M Hs).
Qed.

(** ** Further properties of sanitize *)

Lemma words_cons (c : codepoint) (s : pystr) :
  words (c :: s) =
  if in_a_z_0_9 c then
    match s with
    | [] => [[c]]
    | c' :: _ =>
        if in_a_z_0_9 c' then
          match words s with
          | w :: ws => (c :: w) :: ws
          | [] => [[c]]
          end
        else [c] :: words s
    end
  else words s.
Proof. reflexivity. Qed.

Lemma words_head (c : codepoint) (s : pystr) :
  in_a_z_0_9 c = true -> exists w ws, words (c :: s) = (c :: w) :: ws.
Proof.
  intros Ac. rewrite words_cons, Ac. destruct s as [|c' s'].
  - exists [], []. reflexivity.
  - destruct (in_a_z_0_9 c').
    + destruct (words (c' :: s')) as [|w ws]; [exists [], [] | exists w, ws]; reflexivity.
    + exists [], (words (c' :: s')). reflexivity.
Qed.

Lemma words_are_words (s : pystr) : Forall word (words s).
Proof.
  induction s as [|c s IH]; [constructor |].
  rewrite words_cons. destruct (in_a_z_0_9 c) eqn:Ac; [| exact IH].
  assert (W1 : word [c]) by (split; [discriminate | repeat constructor; exact Ac]).
  destruct s as [|c' s']; [constructor; [exact W1 | constructor] |].
  destruct (in_a_z_0_9 c').
  - destruct (words (c' :: s')) as [|w ws]; [constructor; [exact W1 | constructor] |].
    inversion IH as [|? ? [_ Hw] Hws]; subst. constructor; [| exact Hws].
    split; [discriminate | constructor; assumption].
  - constructor; assumption.
Qed.

Lemma join_cons_char sep (c : codepoint) (w : pystr) (ws : list pystr) :
  join sep ((c :: w) :: ws) = c :: join sep (w :: ws).
Proof. destruct ws; reflexivity. Qed.

Lemma join_cons sep (w w' : pystr) (ws : list pystr) :
  join sep (w :: w' :: ws) = w ++ sep :: join sep (w' :: ws).
Proof. reflexivity. Qed.

(** The first substitution writes the words with one hyphen between
    them, one in front when the string starts outside [[a-z0-9]], and
    hyphens only after them. *)
Lemma sub_runs_words (s : pystr) :
  forall b, exists post,
    Forall (fun c => c = HYPHEN) post /\
    sub_runs not_a_z_0_9 b s = lead_hyphen b s ++ join HYPHEN (words s) ++ post.
Proof.
  induction s as [|c s IH]; intros b.
  - exists []. split; [constructor | destruct b; reflexivity].
  - rewrite words_cons. cbn [sub_runs lead_hyphen].
    destruct (in_a_z_0_9 c) eqn:Ac.
    + assert (Nc : not_a_z_0_9 c = false)
        by (unfold not_a_z_0_9; rewrite Ac; reflexivity).
      rewrite Nc. cbn [andb app].
      destruct (IH false) as [post [Fp E]]. rewrite E. clear E.
      destruct s as [|c' s'].
      * exists post. split; [exact Fp | reflexivity].
      * cbn [lead_hyphen].
        destruct (in_a_z_0_9 c') eqn:Ac'.
        -- assert (Nc' : not_a_z_0_9 c' = false)
             by (unfold not_a_z_0_9; rewrite Ac'; reflexivity).
           rewrite Nc'. cbn [andb app].
           destruct (words_head c' s' Ac') as [w [ws Ew]]. rewrite Ew.
           exists post. split; [exact Fp |].
           rewrite (join_cons_char HYPHEN c (c' :: w) ws). reflexivity.
        -- assert (Nc' : not_a_z_0_9 c' = true)
             by (unfold not_a_z_0_9; rewrite Ac'; reflexivity).
           rewrite Nc'. cbn [andb negb app].
           destruct (words (c' :: s')) as [|w ws].
           ++ exists (HYPHEN :: post). split; [constructor; auto | reflexivity].
           ++ exists post. split; [exact Fp |].
              rewrite join_cons. rewrite <- app_assoc. reflexivity.
    + assert (Nc : not_a_z_0_9 c = true)
        by (unfold not_a_z_0_9; rewrite Ac; reflexivity).
      rewrite Nc. cbn [andb].
      destruct (IH true) as [post [Fp E]]. rewrite E. clear E.
      assert (L : lead_hyphen true s = []).
      { destruct s as [|c' s']; [reflexivity |]. cbn [lead_hyphen negb].
        rewrite andb_false_r. reflexivity. }
      rewrite L. exists post. split; [exact Fp |].
      destruct b; reflexivity.
Qed.

(** [re.sub] over a string in which every character of the class is a
    lone hyphen changes nothing. *)
Lemma sub_runs_fixed cls (s : pystr) :
  (forall c, In c s -> cls c = true -> c = HYPHEN) ->
  forall b : bool,
    no_double HYPHEN ((if b then [HYPHEN] else []) ++ s) ->
    sub_runs cls b s = s.
Proof.
  induction s as [|c s IH]; intros Hc b D; [reflexivity |].
  assert (Hc' : forall c0, In c0 s -> cls c0 = true -> c0 = HYPHEN)
    by (intros; apply Hc; simpl; auto).
  cbn [sub_runs]. destruct (cls c) eqn:Ec.
  - assert (c = HYPHEN) by (apply Hc; simpl; auto). subst c.
    destruct b.
    + exfalso. simpl in D. destruct D as [D _]. apply D. auto.
    + f_equal. apply (IH Hc' true). exact D.
  - f_equal. apply (IH Hc' false). simpl.
    destruct b; simpl in D; tauto.
Qed.

Lemma lstrip_all ch (pre s : pystr) :
  Forall (fun c => c = ch) pre -> lstrip ch (pre ++ s) = lstrip ch s.
Proof.
  induction 1 as [|c pre -> _ IH]; [reflexivity |].
  simpl. rewrite N.eqb_refl. exact IH.
Qed.

Lemma lstrip_id ch (s : pystr) : (forall r, s <> ch :: r) -> lstrip ch s = s.
Proof.
  destruct s as [|c s]; [reflexivity |]. intros H. simpl.
  destruct (N.eqb_spec c ch) as [->|]; [| reflexivity].
  exfalso. exact (H s eq_refl).
Qed.

Lemma rstrip_id ch (s : pystr) : (forall r, s <> r ++ [ch]) -> rstrip ch s = s.
Proof.
  intros H. unfold rstrip. rewrite lstrip_id; [apply rev_involutive |].
  intros r E. apply (H (rev r)).
  rewrite <- (rev_involutive s), E. reflexivity.
Qed.

Lemma rstrip_all ch (s post : pystr) :
  Forall (fun c => c = ch) post -> rstrip ch (s ++ post) = rstrip ch s.
Proof.
  intros F. unfold rstrip. rewrite rev_app_distr, lstrip_all; [reflexivity |].
  apply Forall_rev. exact F.
Qed.

(** What [strip] returns is the part between the hyphens at both ends. *)
Lemma strip_unique ch (pre y post : pystr) :
  Forall (fun c => c = ch) pre -> Forall (fun c => c = ch) post ->
  (forall r, y <> ch :: r) -> (forall r, y <> r ++ [ch]) ->
  strip ch (pre ++ y ++ post) = y.
Proof.
  intros Fpre Fpost Hh Hl. unfold strip. rewrite lstrip_all by exact Fpre.
  destruct y as [|c y].
  - simpl. assert (L : lstrip ch post = []).
    { clear - Fpost. induction Fpost as [|c post -> _ IH]; [reflexivity |].
      simpl. rewrite N.eqb_refl. exact IH. }
    rewrite L. reflexivity.
  - rewrite lstrip_id.
    + rewrite rstrip_all by exact Fpost. apply rstrip_id. exact Hl.
    + intros r E. simpl in E. injection E as -> _. exact (Hh y eq_refl).
Qed.

Lemma word_no_hyphen (w : pystr) : word w -> ~ In HYPHEN w.
Proof.
  intros [_ F] H. rewrite Forall_forall in F. specialize (F _ H). discriminate F.
Qed.

Lemma join_words_head (ws : list pystr) :
  Forall word ws -> forall r, join HYPHEN ws <> HYPHEN :: r.
Proof.
  intros F r E. destruct F as [|w ws Hw F]; [discriminate |].
  pose proof (word_no_hyphen w Hw) as N. destruct Hw as [Hne _].
  destruct w as [|c w]; [congruence |].
  rewrite join_cons_char in E. injection E as -> _. apply N. simpl; auto.
Qed.

Lemma ends_app (a b r : pystr) (x : codepoint) :
  b <> [] -> a ++ b = r ++ [x] -> exists b', b = b' ++ [x].
Proof.
  intros Hb E. destruct (exists_last Hb) as [b' [y Eb]]. subst b.
  rewrite app_assoc in E. apply app_inj_tail in E. destruct E as [_ ->].
  exists b'. reflexivity.
Qed.

Lemma join_words_last (ws : list pystr) :
  Forall word ws -> forall r, join HYPHEN ws <> r ++ [HYPHEN].
Proof.
  induction 1 as [|w ws Hw F IH]; intros r E.
  - destruct r; discriminate.
  - destruct ws as [|w' ws'].
    + simpl in E. apply (word_no_hyphen w Hw). rewrite E.
      apply in_or_app. right. simpl; auto.
    + rewrite join_cons in E.
      assert (Hne : join HYPHEN (w' :: ws') <> []).
      { inversion F as [|? ? [Hw' _] _]; subst.
        destruct w' as [|c w'']; [congruence |].
        rewrite join_cons_char. discriminate. }
      change (w ++ HYPHEN :: join HYPHEN (w' :: ws'))
        with (w ++ [HYPHEN] ++ join HYPHEN (w' :: ws')) in E.
      rewrite app_assoc in E.
      destruct (ends_app _ _ _ _ Hne E) as [b' Eb]. exact (IH b' Eb).
Qed.

Lemma sanitize_stripped_as_words (title : pystr) :
  sanitize_stripped title = join HYPHEN (words (lower title)).
Proof.
  unfold sanitize_stripped, re_sub_plus.
  destruct (sub_runs_words (lower title) false) as [post [Fpost E]].
  assert (D : no_double HYPHEN (sub_runs not_a_z_0_9 false (lower title)))
    by (apply (sub_runs_no_double not_a_z_0_9 eq_refl false)).
  rewrite (sub_runs_fixed is_hyphen).
  - rewrite E. apply strip_unique.
    + unfold lead_hyphen. destruct (lower title) as [|c l]; [constructor |].
      destruct (not_a_z_0_9 c && negb false); repeat constructor.
    + exact Fpost.
    + apply join_words_head, words_are_words.
    + apply join_words_last, words_are_words.
  - intros c _ Hc. apply N.eqb_eq. exact Hc.
  - exact D.
Qed.

Lemma filter_sub_runs cls (b : bool) (s : pystr) :
  (forall c, cls c = true -> in_a_z_0_9 c = false) ->
  filter in_a_z_0_9 (sub_runs cls b s) = filter in_a_z_0_9 s.
Proof.
  intros Hc. revert b; induction s as [|c s IH]; intros b; [reflexivity |].
  cbn [sub_runs]. destruct (cls c) eqn:Ec.
  - cbn [filter]. rewrite (Hc c Ec).
    destruct b; [apply IH |]. cbn [filter].
    change (in_a_z_0_9 HYPHEN) with false. cbn iota. apply IH.
  - cbn [filter]. rewrite IH. reflexivity.
Qed.

Lemma filter_hyphens (s : pystr) :
  Forall (fun c => c = HYPHEN) s -> filter in_a_z_0_9 s = [].
Proof. induction 1 as [|c s -> _ IH]; [reflexivity | exact IH]. Qed.

Lemma sanitize_stripped_filter (title : pystr) :
  filter in_a_z_0_9 (sanitize_stripped title) = filter in_a_z_0_9 (lower title).
Proof.
  unfold sanitize_stripped, re_sub_plus, strip.
  set (s2 := sub_runs is_hyphen false (sub_runs not_a_z_0_9 false (lower title))).
  assert (E2 : filter in_a_z_0_9 s2 = filter in_a_z_0_9 (lower title)).
  { unfold s2. rewrite !filter_sub_runs; [reflexivity | |].
    - intros c Hc. unfold not_a_z_0_9 in Hc. destruct (in_a_z_0_9 c); [discriminate | reflexivity].
    - intros c Hc. apply N.eqb_eq in Hc. subst c. reflexivity. }
  destruct (lstrip_suffix HYPHEN s2) as [pre [Epre Fpre]].
  destruct (rstrip_prefix HYPHEN (lstrip HYPHEN s2)) as [post [Epost Fpost]].
  rewrite <- E2. rewrite Epre at 2. rewrite Epost at 2.
  rewrite !filter_app, (filter_hyphens _ Fpre), (filter_hyphens _ Fpost), app_nil_r.
  reflexivity.
Qed.

Lemma has_double_false h (s : pystr) : has_double h s = false -> no_double h s.
Proof.
  induction s as [|x s IH]; simpl; [tauto |].
  rewrite orb_false_iff. intros [H1 H2]. split; [| auto].
  destruct s as [|y s]; [exact I |].
  intros [-> ->]. rewrite !N.eqb_refl in H1. discriminate.
Qed.

Lemma name_charb_spec (c : codepoint) : name_charb c = true -> name_char c.
Proof.
  unfold name_charb, name_char. rewrite orb_true_iff, N.eqb_eq. tauto.
Qed.

Lemma clean_name_spec (s : pystr) :
  clean_name s = true ->
  Forall name_char s /\ no_double HYPHEN s /\
  (forall r, s <> HYPHEN :: r) /\ (forall r, s <> r ++ [HYPHEN]) /\
  (List.length s <= 50)%nat.
Proof.
  unfold clean_name. rewrite !andb_true_iff, !negb_true_iff.
  intros [[[[F D] Sh] Sl] L]. repeat split.
  - rewrite forallb_forall in F. apply Forall_forall.
    intros c Hc. apply name_charb_spec, F, Hc.
  - apply has_double_false, D.
  - intros r ->. simpl in Sh. discriminate.
  - intros r ->. rewrite rev_app_distr in Sl. simpl in Sl. discriminate.
  - apply Nat.leb_le, L.
Qed.

(** On a name without a hyphen in front the sanitizer only strips the
    hyphens at the end. *)
Lemma sanitize_of_name (s : pystr) :
  Forall name_char s -> no_double HYPHEN s -> (forall r, s <> HYPHEN :: r) ->
  (List.length s <= 50)%nat -> sanitize s = rstrip HYPHEN s.
Proof.
  intros F D Hh L. unfold sanitize, sanitize_stripped, re_sub_plus.
  rewrite (lower_name_chars s F).
  rewrite (sub_runs_fixed not_a_z_0_9 s).
  - rewrite (sub_runs_fixed is_hyphen s).
    + unfold strip. rewrite (lstrip_id HYPHEN s Hh).
      apply firstn_all2.
      destruct (rstrip_prefix HYPHEN s) as [post [E _]].
      apply (f_equal (@List.length codepoint)) in E.
      rewrite length_app in E. lia.
    + intros c _ Hc. apply N.eqb_eq. exact Hc.
    + exact D.
  - intros c Hin Hc. rewrite Forall_forall in F. destruct (F c Hin) as [A | E].
    + unfold not_a_z_0_9 in Hc. rewrite A in Hc. discriminate.
    + exact E.
  - exact D.
Qed.

(** X1: before the cut to 50 characters, the sanitized name is the
    maximal runs of a-z and 0-9 of the lowercased title, in order, with
    one hyphen between two runs; sanitize cuts that to 50 characters. *)
Theorem sanitize_is_words_joined (title : pystr) :
  sanitize_stripped title = join HYPHEN (words (lower title)) /\
  sanitize title = firstn 50 (join HYPHEN (words (lower title))).
Proof.
  unfold sanitize. rewrite sanitize_stripped_as_words. split; reflexivity.
Qed.

(** X2: the letters and digits of the sanitized name are the first
    letters and digits of the lowercased title, in the same order, and
    all of them when the cut takes nothing off. *)
Theorem sanitize_keeps_letters_and_digits (title : pystr) :
  exists cut_off,
    filter in_a_z_0_9 (lower title) = filter in_a_z_0_9 (sanitize title) ++ cut_off /\
    ((List.length (sanitize_stripped title) <= 50)%nat -> cut_off = []).
Proof.
  exists (filter in_a_z_0_9 (skipn 50 (sanitize_stripped title))). split.
  - rewrite <- sanitize_stripped_filter. unfold sanitize.
    rewrite <- filter_app, firstn_skipn. reflexivity.
  - intros L. rewrite skipn_all2 by exact L. reflexivity.
Qed.

(** X3: a name made of a-z, 0-9 and hyphens, with no two hyphens in a
    row, no hyphen at either end and at most 50 characters, is its own
    sanitized name. *)
Theorem sanitize_fixes_clean_names (s : pystr) :
  clean_name s = true -> sanitize s = s.
Proof.
  intros C. destruct (clean_name_spec s C) as [F [D [Hh [Hl L]]]].
  rewrite (sanitize_of_name s F D Hh L). apply rstrip_id. exact Hl.
Qed.

(** X4: sanitizing a sanitized name only strips the hyphen that the cut
    may have left at its end; when the cut took nothing off, the name
    stays as it is. *)
Theorem sanitize_twice (title : pystr) :
  sanitize (sanitize title) = rstrip HYPHEN (sanitize title) /\
  ((List.length (sanitize_stripped title) <= 50)%nat ->
   sanitize (sanitize title) = sanitize title).
Proof.
  assert (E : sanitize (sanitize title) = rstrip HYPHEN (sanitize title)).
  { apply sanitize_of_name.
    - apply sanitize_chars.
    - apply sanitize_no_double.
    - apply sanitize_no_leading_hyphen.
    - apply sanitize_length. }
  split; [exact E |].
  intros L. rewrite E. apply rstrip_id.
  apply sanitize_no_trailing_hyphen_if_short. exact L.
Qed.

(** ** Further properties of the extension resolver *)

Lemma token_part (closing : pystr -> bool) (P : codepoint -> Prop)
    (url pre g : pystr) :
  Forall P url -> token_at closing url pre g -> Forall P g.
Proof.
  intros F [name [rest [E _]]]. rewrite E in F.
  apply Forall_app in F. destruct F as [_ F].
  inversion F as [|? ? _ F']; subst.
  apply Forall_app in F'. tauto.
Qed.

Lemma search_result_part (P : codepoint -> Prop) (url g : pystr) :
  Forall P url -> re_search_extension url = Some g -> Forall P g.
Proof.
  intros F E. unfold re_search_extension in E. apply search_from_some in E.
  destruct E as [pre [T _]]. exact (token_part _ P _ _ _ F T).
Qed.

Lemma is_ascii_spec (s : pystr) : is_ascii s = true <-> Forall (fun c => c < 128) s.
Proof.
  unfold is_ascii. rewrite forallb_forall, Forall_forall.
  split; intros H c Hc; [apply N.ltb_lt | apply N.ltb_lt]; auto.
Qed.

(** What [lower] makes of one matched character. *)
Lemma lower_char_matched (p c : codepoint) (before after : pystr) :
  lowercase_letter p -> p <> 107 -> letter_matches p c = true ->
  Forall plain_char (lower_char before c after) /\
  (List.length (lower_char before c after) <=
   1 + List.length (filter (N.eqb 105) [p]))%nat.
Proof.
  intros Hp Hk M. pose proof Hp as Hp'. unfold lowercase_letter in Hp'.
  unfold letter_matches in M.
  rewrite !orb_true_iff, !andb_true_iff, !orb_true_iff, !N.eqb_eq in M.
  unfold plain_char, DOT, SLASH.
  destruct M as [[[[E|E]|[E1 [E|E]]]|[E1 E]]|[E1 E]]; try lia; subst.
  - unfold lower_char, is_ascii_upper, in_range.
    assert (L : (p <? 128) = true) by (apply N.ltb_lt; lia).
    assert (U : (65 <=? p) && (p <=? 90) = false)
      by (apply andb_false_iff; rewrite !N.leb_gt; lia).
    rewrite L, U. split; [repeat constructor; lia | simpl; lia].
  - unfold lower_char, is_ascii_upper, in_range.
    assert (L : (p - 32 <? 128) = true) by (apply N.ltb_lt; lia).
    assert (U : (65 <=? p - 32) && (p - 32 <=? 90) = true)
      by (apply andb_true_iff; rewrite !N.leb_le; lia).
    rewrite L, U. split; [repeat constructor; lia | simpl; lia].
  - split; [repeat constructor; discriminate | simpl; lia].
  - split; [repeat constructor; discriminate | simpl; lia].
  - split; [repeat constructor; discriminate | simpl; lia].
Qed.

Lemma lower_from_matched (name g before : pystr) :
  Forall (fun p => lowercase_letter p /\ p <> 107) name -> spells name g ->
  Forall plain_char (lower_from before g) /\
  (List.length (lower_from before g) <= lowered_bound name)%nat.
Proof.
  intros L S. revert before; induction S as [|p c name g Hc S IH]; intros before.
  - split; [constructor | simpl; lia].
  - inversion L as [|? ? [Hp Hk] L']; subst.
    destruct (lower_char_matched p c before g Hp Hk Hc) as [F1 B1].
    destruct (IH L' (before ++ [c])) as [F2 B2].
    cbn [lower_from]. split.
    + apply Forall_app. split; assumption.
    + rewrite length_app. unfold lowered_bound in *. cbn [filter List.length] in *.
      destruct (105 =? p); cbn [List.length] in *; lia.
Qed.

Lemma extensions_bound (name : pystr) :
  In name extensions -> (lowered_bound name <= 4)%nat.
Proof.
  simpl. intros [<-|[<-|[<-|[<-|[<-|[<-|[]]]]]]]; vm_compute; lia.
Qed.

(** The resolver's result: a dot and at most four characters, none of
    them a dot or a slash. *)
Lemma extension_shape (url : pystr) :
  exists e, extension url = DOT :: e /\ Forall plain_char e /\
            (List.length e <= 4)%nat.
Proof.
  unfold extension. destruct (re_search_extension url) as [g|] eqn:Es.
  - destruct (search_result_spells url g Es) as [name [I S]].
    destruct (lower_from_matched name g [] (extensions_letters name I) S) as [F B].
    exists (lower g). split; [reflexivity |]. split; [exact F |].
    pose proof (extensions_bound name I). unfold lower. lia.
  - exists (lit "png"). split; [reflexivity |].
    split; [repeat constructor; discriminate | simpl; lia].
Qed.

Lemma name_char_plain (c : codepoint) : name_char c -> plain_char c.
Proof.
  unfold name_char, plain_char, in_a_z_0_9, in_range, HYPHEN, DOT, SLASH.
  intros [H | ->]; [| lia].
  rewrite orb_true_iff, !andb_true_iff, !N.leb_le in H. lia.
Qed.

(** X5: on an ASCII URL the resolver returns one of ".jpg", ".jpeg",
    ".png", ".svg", ".gif", ".webp". *)
Theorem extension_of_ascii_url (url : pystr) :
  is_ascii url = true -> In (extension url) dotted_extensions.
Proof.
  intros A. apply is_ascii_spec in A. unfold extension.
  destruct (re_search_extension url) as [g|] eqn:Es.
  - destruct (search_result_spells url g Es) as [name [I S]].
    pose proof (search_result_part _ url g A Es) as Ag.
    rewrite (spells_ascii_lower name g (extensions_lowercase name I) S Ag).
    unfold dotted_extensions. apply in_map. exact I.
  - vm_compute. auto.
Qed.

(** X6: whatever the title and the URL, the expected filename is a name
    of a-z, 0-9 and hyphens followed by one dot and at most four
    characters, none of them a dot or a slash; it has at most 55
    characters and the local path at most 68. *)
Theorem expected_filename_shape (title url : pystr) :
  exists e,
    expected_filename title url = sanitize title ++ DOT :: e /\
    Forall name_char (sanitize title) /\ Forall plain_char e /\
    (List.length e <= 4)%nat /\
    (List.length (expected_filename title url) <= 55)%nat /\
    (List.length (local_path title url) <= 68)%nat.
Proof.
  destruct (extension_shape url) as [e [E [F B]]].
  pose proof (sanitize_length title) as L.
  exists e. unfold local_path, expected_filename. rewrite E.
  split; [reflexivity |]. split; [apply sanitize_chars |].
  split; [exact F |]. split; [exact B |].
  rewrite !length_app. cbn [List.length].
  change (List.length LOCAL_PREFIX) with 13%nat. lia.
Qed.

(** ** Case of the title and of the URL *)

Lemma ascii_lower_cases (c : codepoint) :
  (65 <= c <= 90 /\ ascii_lower c = c + 32) \/
  (~ 65 <= c <= 90 /\ ascii_lower c = c).
Proof.
  unfold ascii_lower, is_ascii_upper, in_range.
  destruct ((65 <=? c) && (c <=? 90)) eqn:U.
  - rewrite andb_true_iff, !N.leb_le in U. left. split; [lia | reflexivity].
  - rewrite andb_false_iff, !N.leb_gt in U. right. split; [lia | reflexivity].
Qed.

Lemma letter_matches_ascii_lower (p c : codepoint) :
  lowercase_letter p -> letter_matches p (ascii_lower c) = letter_matches p c.
Proof.
  unfold lowercase_letter. intros Hp. apply eq_iff_eq_true.
  unfold letter_matches.
  rewrite !orb_true_iff, !andb_true_iff, !orb_true_iff, !N.eqb_eq.
  destruct (ascii_lower_cases c) as [[R ->]|[R ->]]; lia.
Qed.

Lemma eqb_ascii_lower (k c : codepoint) :
  k < 65 -> (ascii_lower c =? k) = (c =? k).
Proof.
  intros Hk. apply eq_iff_eq_true. rewrite !N.eqb_eq.
  destruct (ascii_lower_cases c) as [[R ->]|[R ->]]; lia.
Qed.

Lemma match_letters_ascii_lower (name s : pystr) :
  Forall lowercase_letter name ->
  match_letters name (map ascii_lower s) =
  match match_letters name s with
  | Some (g, rest) => Some (map ascii_lower g, map ascii_lower rest)
  | None => None
  end.
Proof.
  intros L; revert s; induction L as [|p name Hp L IH]; intros s; [reflexivity |].
  destruct s as [|c s]; [reflexivity |].
  cbn [map match_letters]. rewrite (letter_matches_ascii_lower p c Hp).
  destruct (letter_matches p c); [| reflexivity].
  rewrite IH. destruct (match_letters name s) as [[g rest]|]; reflexivity.
Qed.

Lemma closing_group_ascii_lower (rest : pystr) :
  closing_group (map ascii_lower rest) = closing_group rest.
Proof.
  destruct rest as [|c rest]; [reflexivity |]. cbn [map closing_group].
  rewrite (eqb_ascii_lower QUESTION c) by (unfold QUESTION; lia).
  rewrite (eqb_ascii_lower NEWLINE c) by (unfold NEWLINE; lia).
  destruct rest; reflexivity.
Qed.

Lemma try_names_ascii_lower (names : list pystr) (s : pystr) :
  Forall (Forall lowercase_letter) names ->
  try_names closing_group names (map ascii_lower s) =
  option_map (map ascii_lower) (try_names closing_group names s).
Proof.
  induction 1 as [|name names Hn _ IH]; [reflexivity |].
  cbn [try_names]. rewrite (match_letters_ascii_lower name s Hn).
  destruct (match_letters name s) as [[g rest]|]; [| exact IH].
  rewrite closing_group_ascii_lower.
  destruct (closing_group rest); [reflexivity | exact IH].
Qed.

Lemma search_ascii_lower (url : pystr) :
  re_search_extension (map ascii_lower url) =
  option_map (map ascii_lower) (re_search_extension url).
Proof.
  unfold re_search_extension.
  assert (N : Forall (Forall lowercase_letter) extensions).
  { apply Forall_forall. intros name I. apply extensions_lowercase. exact I. }
  induction url as [|c url IH]; [reflexivity |].
  cbn [map search_from match_here].
  rewrite (eqb_ascii_lower DOT c) by (unfold DOT; lia).
  destruct (c =? DOT).
  - rewrite (try_names_ascii_lower extensions url N).
    destruct (try_names closing_group extensions url); [reflexivity | exact IH].
  - exact IH.
Qed.

Lemma lower_ascii (s : pystr) :
  Forall (fun c => c < 128) s -> lower s = map ascii_lower s.
Proof. apply lower_from_ascii. Qed.

(** X7: two ASCII titles that differ only in the case of their letters,
    and two ASCII URLs that differ only in the case of theirs, give the
    same expected filename. *)
Theorem expected_filename_ignores_case (title1 title2 url1 url2 : pystr) :
  is_ascii title1 = true -> is_ascii title2 = true ->
  is_ascii url1 = true -> is_ascii url2 = true ->
  map ascii_lower title1 = map ascii_lower title2 ->
  map ascii_lower url1 = map ascii_lower url2 ->
  expected_filename title1 url1 = expected_filename title2 url2.
Proof.
  intros A1 A2 B1 B2 Et Eu.
  apply is_ascii_spec in A1. apply is_ascii_spec in A2.
  apply is_ascii_spec in B1. apply is_ascii_spec in B2.
  unfold expected_filename. f_equal.
  - unfold sanitize, sanitize_stripped.
    rewrite (lower_ascii title1 A1), (lower_ascii title2 A2), Et. reflexivity.
  - pose proof (search_ascii_lower url1) as S1.
    pose proof (search_ascii_lower url2) as S2.
    rewrite Eu, S2 in S1. unfold extension.
    destruct (re_search_extension url1) as [g1|] eqn:E1;
      destruct (re_search_extension url2) as [g2|] eqn:E2;
      try discriminate; [| reflexivity].
    injection S1 as S1.
    rewrite (lower_ascii g1 (search_result_part _ url1 g1 B1 E1)).
    rewrite (lower_ascii g2 (search_result_part _ url2 g2 B2 E2)).
    rewrite S1. reflexivity.
Qed.

(** ** When the loop raises *)

Lemma update_chapter_not_object (downloaded_logos : pydict bool) (chapter : json)
    (st : stats) :
  (forall fields, chapter <> JObj fields) ->
  update_chapter downloaded_logos chapter st = Raise AttributeError.
Proof.
  intros H. destruct chapter; try reflexivity. exfalso. exact (H _ eq_refl).
Qed.

Lemma update_chapter_bad_title (downloaded_logos : pydict bool)
    (fields : pydict json) (st : stats) :
  truthy (url_of fields) = true -> is_str (title_of fields) = false ->
  update_chapter downloaded_logos (JObj fields) st = Raise AttributeError.
Proof.
  intros Ht Hs. rewrite update_chapter_fields, Ht. simpl.
  destruct (title_of fields); try reflexivity. discriminate.
Qed.

Lemma update_chapter_bad_url (downloaded_logos : pydict bool)
    (fields : pydict json) (st : stats) :
  truthy (url_of fields) = true -> is_str (title_of fields) = true ->
  is_str (url_of fields) = false ->
  update_chapter downloaded_logos (JObj fields) st = Raise TypeError.
Proof.
  intros Ht Hs Hu. rewrite update_chapter_fields, Ht. simpl.
  destruct (title_of fields); try discriminate. simpl.
  unfold get_extension_from_url. rewrite Ht. simpl.
  destruct (url_of fields); try reflexivity. discriminate.
Qed.

Lemma update_chapter_unprintable (downloaded_logos : pydict bool)
    (fields : pydict json) (title url : pystr) (st : stats) :
  title_of fields = JStr title -> url_of fields = JStr url ->
  chapter_runs downloaded_logos (JObj fields) = false ->
  update_chapter downloaded_logos (JObj fields) st = Raise UnicodeEncodeError.
Proof.
  intros Et Eu R. cbn [chapter_runs] in R. rewrite Et, Eu in R.
  destruct (truthy (JStr url)) eqn:Ht; [| discriminate].
  apply truthy_str in Ht.
  rewrite (update_chapter_strings _ _ title url st Et Eu Ht).
  destruct (dict_mem (expected_filename title url) downloaded_logos);
    destruct (heading_prints fields title); try reflexivity; try discriminate.
  cbn [andb orb] in R |- *. rewrite R. reflexivity.
Qed.

Lemma chapter_step_runs (downloaded_logos : pydict bool)
    (chapter chapter' : json) (o : outcome) :
  chapter_step downloaded_logos chapter chapter' o ->
  chapter_runs downloaded_logos chapter = true.
Proof.
  intros H. destruct H as [fields Et | fields title url Eu Hn Etitle Em Hp
                          | fields title url Eu Hn Etitle Em Hp Hu];
    cbn [chapter_runs].
  - rewrite Et. reflexivity.
  - rewrite Eu, Etitle. apply truthy_str in Hn. rewrite Hn, Hp, Em. reflexivity.
  - rewrite Eu, Etitle. apply truthy_str in Hn. rewrite Hn, Hp, Em, Hu. reflexivity.
Qed.

Lemma chapter_runs_step (downloaded_logos : pydict bool) (chapter : json) :
  chapter_runs downloaded_logos chapter = true ->
  exists chapter' o, chapter_step downloaded_logos chapter chapter' o.
Proof.
  destruct chapter as [| | | | | |fields]; try discriminate. cbn [chapter_runs].
  destruct (truthy (url_of fields)) eqn:Et.
  - destruct (title_of fields) as [| | | |title| |] eqn:Etitle; try discriminate.
    destruct (url_of fields) as [| | | |url| |] eqn:Eurl; try discriminate.
    apply truthy_str in Et. rewrite andb_true_iff. intros [Hp Hu].
    destruct (dict_mem (expected_filename title url) downloaded_logos) eqn:Em.
    + eexists; exists Updated. eapply step_updated; eauto.
    + eexists; exists Missing. eapply step_missing; eauto.
  - intros _. exists (JObj fields), Skipped. apply step_skipped. exact Et.
Qed.

Lemma update_chapter_ok_iff (downloaded_logos : pydict bool) (chapter : json)
    (st : stats) :
  (exists r, update_chapter downloaded_logos chapter st = Ok r) <->
  chapter_runs downloaded_logos chapter = true.
Proof.
  split.
  - intros [[chapter' st'] E]. apply update_chapter_sound in E.
    destruct E as [o [Hs _]]. exact (chapter_step_runs _ _ _ _ Hs).
  - intros R. destruct (chapter_runs_step downloaded_logos chapter R) as [c' [o Hs]].
    exists (c', count o st). apply update_chapter_complete. exact Hs.
Qed.

(** A chapter on which the turn raises, raises the same exception with
    every state of the counters. *)
Lemma chapter_not_runs_raises (downloaded_logos : pydict bool) (chapter : json) :
  chapter_runs downloaded_logos chapter = false ->
  exists e, forall st, update_chapter downloaded_logos chapter st = Raise e.
Proof.
  intros R.
  destruct chapter as [| | | | | |fields];
    try (exists AttributeError; intros; reflexivity).
  destruct (truthy (url_of fields)) eqn:Ht;
    [| cbn [chapter_runs] in R; rewrite Ht in R; discriminate].
  destruct (is_str (title_of fields)) eqn:Hs.
  - destruct (is_str (url_of fields)) eqn:Hu.
    + destruct (title_of fields) as [| | | |title| |] eqn:Et; try discriminate.
      destruct (url_of fields) as [| | | |url| |] eqn:Eu; try discriminate.
      exists UnicodeEncodeError. intros st.
      exact (update_chapter_unprintable _ _ _ _ st Et Eu R).
    + exists TypeError. intros. apply update_chapter_bad_url; assumption.
  - exists AttributeError. intros. apply update_chapter_bad_title; assumption.
Qed.

Lemma update_chapters_ok_iff (downloaded_logos : pydict bool)
    (chapters : list json) (st : stats) :
  (exists r, update_chapters downloaded_logos chapters st = Ok r) <->
  forallb (chapter_runs downloaded_logos) chapters = true.
Proof.
  split.
  - intros [[out st'] E]. apply update_chapters_sound in E. destruct E as [F _].
    induction F as [|c c' l l' [o Hs] F IH]; [reflexivity |].
    simpl. rewrite (chapter_step_runs _ _ _ _ Hs). exact IH.
  - intros W.
    assert (F : exists out,
               Forall2 (fun c c' => exists o, chapter_step downloaded_logos c c' o)
                 chapters out).
    { induction chapters as [|c rest IH]; [exists []; constructor |].
      simpl in W. apply andb_true_iff in W. destruct W as [Wc Wr].
      destruct (chapter_runs_step downloaded_logos c Wc) as [c' [o Hs]].
      destruct (IH Wr) as [out F]. exists (c' :: out).
      constructor; [exists o; assumption | assumption]. }
    destruct F as [out F].
    destruct (update_chapters_complete _ _ _ st F) as [st' E].
    exists (out, st'). exact E.
Qed.

Lemma update_chapters_first_failure (downloaded_logos : pydict bool)
    (good rest : list json) (bad : json) (e : exn) (st0 : stats) :
  forallb (chapter_runs downloaded_logos) good = true ->
  update_chapter downloaded_logos bad st0 = Raise e ->
  forall st, update_chapters downloaded_logos (good ++ bad :: rest) st = Raise e.
Proof.
  intros G B.
  assert (Bad : forall st, update_chapter downloaded_logos bad st = Raise e).
  { destruct (chapter_runs downloaded_logos bad) eqn:R.
    - apply (update_chapter_ok_iff downloaded_logos bad st0) in R.
      destruct R as [r E]. congruence.
    - destruct (chapter_not_runs_raises downloaded_logos bad R) as [e' He'].
      intros st. rewrite He'. rewrite He' in B. exact B. }
  induction good as [|c good IH]; intros st.
  - simpl. rewrite Bad. reflexivity.
  - simpl in G. apply andb_true_iff in G. destruct G as [Gc Gr].
    apply (update_chapter_ok_iff downloaded_logos c st) in Gc.
    destruct Gc as [[c' st1] E]. cbn [app update_chapters]. rewrite E. simpl.
    rewrite (IH Gr st1). reflexivity.
Qed.

Lemma run_not_object (downloaded_logos : pydict bool) (config : json) :
  (forall fields, config <> JObj fields) ->
  run config downloaded_logos = Raise TypeError.
Proof.
  intros H. unfold run. rewrite print_updating.
  destruct config; try reflexivity. exfalso. exact (H _ eq_refl).
Qed.

Lemma run_no_chapters (downloaded_logos : pydict bool) (fields : pydict json) :
  dict_get KEY_CHAPTERS fields = None ->
  run (JObj fields) downloaded_logos = Raise KeyError.
Proof.
  intros E. unfold run, py_getitem. rewrite print_updating, E. reflexivity.
Qed.

Lemma run_ok_iff (downloaded_logos : pydict bool) (config : json) :
  (exists r, run config downloaded_logos = Ok r) <->
  config_runs downloaded_logos config = true.
Proof.
  destruct config as [| | | | | |fields];
    try (rewrite run_not_object by discriminate;
         split; [intros [r E]; discriminate E | discriminate]).
  unfold config_runs.
  destruct (dict_get KEY_CHAPTERS fields) as [v|] eqn:Ed.
  - destruct v as [| | | |sv|items|d].
    1-4: (unfold run, py_getitem; rewrite print_updating, Ed; simpl;
          split; [intros [r E]; discriminate E | discriminate]).
    + unfold run, py_getitem. rewrite print_updating, Ed.
      destruct sv as [|c sv]; simpl.
      * split; [reflexivity | intros _; eexists; reflexivity].
      * split; [intros [r E]; discriminate E | discriminate].
    + rewrite (run_list _ _ _ Ed).
      rewrite <- (update_chapters_ok_iff downloaded_logos items no_stats).
      destruct (update_chapters downloaded_logos items no_stats) as [[items' st]|].
      * split; intros _; eexists; reflexivity.
      * split; intros [r E]; discriminate E.
    + unfold run, py_getitem. rewrite print_updating, Ed.
      destruct d as [|kv d]; simpl.
      * split; [reflexivity | intros _; eexists; reflexivity].
      * split; [intros [r E]; discriminate E | discriminate].
  - rewrite (run_no_chapters _ _ Ed).
    split; [intros [r E]; discriminate E | discriminate].
Qed.

(** X8: a loop turn ends exactly on a mapping whose logoUrl is falsy, or
    whose title and logoUrl are both strings and whose lines standard
    output can encode: the id and the title, and the logoUrl when the
    expected file is not in the inventory.  On anything but a mapping it
    raises AttributeError; with a truthy logoUrl it raises AttributeError
    when the title is not a string, TypeError when the title is a string
    and the logoUrl is not, and UnicodeEncodeError when both are strings
    and a line cannot be encoded. *)
Theorem loop_turn_raises (downloaded_logos : pydict bool) (chapter : json)
    (st : stats) :
  ((exists r, update_chapter downloaded_logos chapter st = Ok r) <->
   chapter_runs downloaded_logos chapter = true) /\
  ((forall fields, chapter <> JObj fields) ->
   update_chapter downloaded_logos chapter st = Raise AttributeError) /\
  (forall fields,
      chapter = JObj fields -> truthy (url_of fields) = true ->
      (is_str (title_of fields) = false ->
       update_chapter downloaded_logos chapter st = Raise AttributeError) /\
      (is_str (title_of fields) = true -> is_str (url_of fields) = false ->
       update_chapter downloaded_logos chapter st = Raise TypeError) /\
      (is_str (title_of fields) = true -> is_str (url_of fields) = true ->
       chapter_runs downloaded_logos chapter = false ->
       update_chapter downloaded_logos chapter st = Raise UnicodeEncodeError)).
Proof.
  split; [apply update_chapter_ok_iff |].
  split; [apply update_chapter_not_object |].
  intros fields -> Ht. split; [| split].
  - intros Hs. apply update_chapter_bad_title; assumption.
  - intros Hs Hu. apply update_chapter_bad_url; assumption.
  - intros Hs Hu R.
    destruct (title_of fields) as [| | | |title| |] eqn:Et; try discriminate.
    destruct (url_of fields) as [| | | |url| |] eqn:Eu; try discriminate.
    exact (update_chapter_unprintable _ _ _ _ st Et Eu R).
Qed.

(** X9: the run ends exactly when the document is a mapping whose
    "chapters" is a list of chapters on each of which a loop turn ends
    with the inventory of the run, or an empty string or an empty
    mapping. *)
Theorem run_ends_iff (config : json) (downloaded_logos : pydict bool) :
  (exists config' st, run config downloaded_logos = Ok (config', st)) <->
  config_runs downloaded_logos config = true.
Proof.
  rewrite <- (run_ok_iff downloaded_logos config). split.
  - intros [config' [st E]]. exists (config', st). exact E.
  - intros [[config' st] E]. exists config', st. exact E.
Qed.

(** X10: the run raises TypeError on a document that is not a mapping,
    KeyError on a mapping without "chapters", and otherwise the
    exception of the first chapter on which a loop turn raises, whatever
    comes after that chapter. *)
Theorem run_raises (downloaded_logos : pydict bool) :
  (forall config,
      (forall fields, config <> JObj fields) ->
      run config downloaded_logos = Raise TypeError) /\
  (forall fields,
      dict_get KEY_CHAPTERS fields = None ->
      run (JObj fields) downloaded_logos = Raise KeyError) /\
  (forall config good bad rest e,
      chapters_of config = Some (good ++ bad :: rest) ->
      forallb (chapter_runs downloaded_logos) good = true ->
      update_chapter downloaded_logos bad no_stats = Raise e ->
      run config downloaded_logos = Raise e).
Proof.
  split; [intros config; apply run_not_object |].
  split; [intros fields; apply run_no_chapters |].
  intros config good bad rest e Ec G B.
  apply chapters_of_some in Ec. destruct Ec as [fields [-> Ec]].
  rewrite (run_list _ _ _ Ec).
  rewrite (update_chapters_first_failure _ good rest bad e no_stats G B).
  reflexivity.
Qed.

(** ** The run and the inventory *)

Lemma dict_set_same {V : Type} (k : pystr) (v : V) (d : pydict V) :
  dict_get k d = Some v -> dict_set k v d = d.
Proof.
  induction d as [|[k0 v0] d IH]; simpl; [discriminate |].
  destruct (str_eqb k0 k).
  - intros E; injection E as ->. reflexivity.
  - intros E. rewrite (IH E). reflexivity.
Qed.

Lemma chapter_step_kind (downloaded_logos : pydict bool)
    (chapter chapter' : json) (o : outcome) :
  chapter_step downloaded_logos chapter chapter' o ->
  kind_of downloaded_logos chapter = o.
Proof.
  intros H. destruct H as [fields Et | fields title url Eu Hn Etitle Em Hp
                          | fields title url Eu Hn Etitle Em Hp Hu]; simpl.
  - rewrite Et. reflexivity.
  - rewrite Eu, Etitle. apply truthy_str in Hn. rewrite Hn, Em. reflexivity.
  - rewrite Eu, Etitle. apply truthy_str in Hn. rewrite Hn, Em. reflexivity.
Qed.

Lemma chapter_step_same (downloaded_logos : pydict bool)
    (chapter chapter' : json) (o : outcome) :
  chapter_step downloaded_logos chapter chapter' o -> o <> Updated ->
  chapter' = chapter.
Proof. intros H N. destruct H; [reflexivity | congruence | reflexivity]. Qed.

Lemma kind_of_nothing_there (downloaded_logos : pydict bool) (chapter : json) :
  (forall name, dict_mem name downloaded_logos = false) ->
  kind_of downloaded_logos chapter <> Updated.
Proof.
  intros H. destruct chapter as [| | | | | |fields]; simpl; try discriminate.
  destruct (truthy (url_of fields)); [| discriminate].
  destruct (title_of fields); try discriminate.
  destruct (url_of fields); try discriminate.
  rewrite H. discriminate.
Qed.

Lemma count_kind_cons (downloaded_logos : pydict bool) (o : outcome)
    (c : json) (items : list json) :
  count_kind downloaded_logos o (c :: items) =
  ((if outcome_eqb (kind_of downloaded_logos c) o then 1 else 0) +
   count_kind downloaded_logos o items)%nat.
Proof.
  unfold count_kind. cbn [filter].
  destruct (outcome_eqb (kind_of downloaded_logos c) o); reflexivity.
Qed.

(** Each counter grows by the number of chapters of its kind. *)
Lemma update_chapters_kinds (downloaded_logos : pydict bool)
    (chapters out : list json) (st st' : stats) :
  update_chapters downloaded_logos chapters st = Ok (out, st') ->
  updated_count st' =
    (updated_count st + count_kind downloaded_logos Updated chapters)%nat /\
  skipped_count st' =
    (skipped_count st + count_kind downloaded_logos Skipped chapters)%nat /\
  missing_count st' =
    (missing_count st + count_kind downloaded_logos Missing chapters)%nat.
Proof.
  revert out st; induction chapters as [|c rest IH]; intros out st E.
  - simpl in E. injection E as <- <-. unfold count_kind. simpl. lia.
  - apply update_chapters_cons in E.
    destruct E as [c1 [st1 [r1 [E1 [E2 ->]]]]].
    apply update_chapter_sound in E1. destruct E1 as [o [Hs ->]].
    apply chapter_step_kind in Hs.
    destruct (IH _ _ E2) as [U [S M]].
    rewrite !count_kind_cons, Hs, U, S, M.
    destruct o; simpl; lia.
Qed.

Lemma update_chapters_unchanged (downloaded_logos : pydict bool)
    (chapters out : list json) (st st' : stats) :
  (forall c, In c chapters -> kind_of downloaded_logos c <> Updated) ->
  update_chapters downloaded_logos chapters st = Ok (out, st') ->
  out = chapters.
Proof.
  revert out st; induction chapters as [|c rest IH]; intros out st H E.
  - simpl in E. injection E as <- _. reflexivity.
  - apply update_chapters_cons in E.
    destruct E as [c1 [st1 [r1 [E1 [E2 ->]]]]].
    apply update_chapter_sound in E1. destruct E1 as [o [Hs _]].
    assert (No : o <> Updated).
    { rewrite <- (chapter_step_kind _ _ _ _ Hs). apply H. simpl; auto. }
    rewrite (chapter_step_same _ _ _ _ Hs No). f_equal.
    apply (IH r1 st1); [| exact E2]. intros c0 Hc. apply H. simpl; auto.
Qed.

Lemma count_kind_none (downloaded_logos : pydict bool) (o : outcome)
    (items : list json) :
  (forall c, In c items -> kind_of downloaded_logos c <> o) ->
  count_kind downloaded_logos o items = 0%nat.
Proof.
  induction items as [|c items IH]; intros H; [reflexivity |].
  rewrite count_kind_cons, IH by (intros c0 Hc; apply H; simpl; auto).
  assert (N : kind_of downloaded_logos c <> o) by (apply H; simpl; auto).
  destruct (kind_of downloaded_logos c), o; try reflexivity; congruence.
Qed.

Lemma run_nothing_there (downloaded_logos : pydict bool)
    (config config' : json) (st : stats) :
  (forall name, dict_mem name downloaded_logos = false) ->
  run config downloaded_logos = Ok (config', st) ->
  config' = config /\ updated_count st = 0%nat.
Proof.
  intros H R. destruct (chapters_of config) as [items|] eqn:Ec.
  - apply chapters_of_some in Ec. destruct Ec as [fields [-> Ec]].
    rewrite (run_list _ _ _ Ec) in R.
    destruct (update_chapters downloaded_logos items no_stats)
      as [[items' st1]|] eqn:El; [| discriminate].
    injection R as <- <-.
    assert (K : forall c, In c items -> kind_of downloaded_logos c <> Updated)
      by (intros; apply kind_of_nothing_there; exact H).
    rewrite (update_chapters_unchanged _ _ _ _ _ K El).
    rewrite (dict_set_same _ _ _ Ec). split; [reflexivity |].
    destruct (update_chapters_kinds _ _ _ _ _ El) as [U _].
    rewrite U, (count_kind_none _ _ _ K). reflexivity.
  - destruct (run_not_list _ _ _ _ Ec R) as [-> ->]. split; reflexivity.
Qed.

Lemma update_chapter_ext (inv1 inv2 : pydict bool) (chapter : json) (st : stats) :
  (forall name, dict_mem name inv1 = dict_mem name inv2) ->
  update_chapter inv1 chapter st = update_chapter inv2 chapter st.
Proof.
  intros H. destruct chapter as [| | | | | |fields]; try reflexivity.
  rewrite !update_chapter_fields.
  destruct (negb (truthy (url_of fields))); [reflexivity |].
  destruct (sanitize_filename (title_of fields)) as [base|]; [| reflexivity].
  destruct (get_extension_from_url (url_of fields)) as [ext|]; [| reflexivity].
  simpl. rewrite H. reflexivity.
Qed.

Lemma update_chapters_ext (inv1 inv2 : pydict bool) (chapters : list json)
    (st : stats) :
  (forall name, dict_mem name inv1 = dict_mem name inv2) ->
  update_chapters inv1 chapters st = update_chapters inv2 chapters st.
Proof.
  intros H. revert st; induction chapters as [|c rest IH]; intros st; [reflexivity |].
  cbn [update_chapters]. rewrite (update_chapter_ext inv1 inv2 c st H).
  destruct (update_chapter inv2 c st) as [[c' st1]|]; [| reflexivity].
  simpl. rewrite IH. reflexivity.
Qed.

(** The run sees the inventory only through the membership test. *)
Lemma run_ext (inv1 inv2 : pydict bool) (config : json) :
  (forall name, dict_mem name inv1 = dict_mem name inv2) ->
  run config inv1 = run config inv2.
Proof.
  intros H. unfold run.
  destruct (py_getitem config KEY_CHAPTERS) as [chapters|]; [| reflexivity].
  simpl. destruct (py_iter chapters) as [items|]; [| reflexivity].
  simpl. rewrite (update_chapters_ext inv1 inv2 items no_stats H). reflexivity.
Qed.

(** The line that reports the size of the inventory always goes out. *)
Lemma print_found (n : nat) :
  py_print (FOUND_PREFIX ++ int_text (Z.of_nat n) ++ FOUND_SUFFIX) = Ok tt.
Proof.
  apply py_print_ok. rewrite !printable_app, int_text_printable. reflexivity.
Qed.

Lemma script_directory (config : json) (entries : list pystr) :
  script config (Directory entries) = run config (inventory_loop entries []).
Proof.
  unfold script. cbn [build_inventory bind]. rewrite print_found. reflexivity.
Qed.

Lemma script_no_directory (config : json) :
  script config NoSuchPath = run config [].
Proof.
  unfold script. cbn [build_inventory bind]. rewrite print_found. reflexivity.
Qed.

Lemma chapter_runs_grows (inv1 inv2 : pydict bool) (chapter : json) :
  (forall name, dict_mem name inv1 = true -> dict_mem name inv2 = true) ->
  chapter_runs inv1 chapter = true -> chapter_runs inv2 chapter = true.
Proof.
  intros H. destruct chapter as [| | | | | |fields]; try discriminate.
  cbn [chapter_runs]. destruct (truthy (url_of fields)); [| reflexivity].
  destruct (title_of fields) as [| | | |title| |]; try discriminate.
  destruct (url_of fields) as [| | | |url| |]; try discriminate.
  rewrite !andb_true_iff, !orb_true_iff. intros [Hp [Hm|Hu]]; auto.
Qed.

Lemma config_runs_grows (inv1 inv2 : pydict bool) (config : json) :
  (forall name, dict_mem name inv1 = true -> dict_mem name inv2 = true) ->
  config_runs inv1 config = true -> config_runs inv2 config = true.
Proof.
  intros H. destruct config as [| | | | | |fields]; try discriminate.
  unfold config_runs. destruct (dict_get KEY_CHAPTERS fields) as [v|]; [| discriminate].
  destruct v as [| | | |sv|items|d]; try discriminate; try (intros E; exact E).
  rewrite !forallb_forall. intros F c Hc.
  exact (chapter_runs_grows inv1 inv2 c H (F c Hc)).
Qed.

Lemma inventory_loop_keys (entries : list pystr) (acc : pydict bool) :
  NoDup entries -> (forall e, In e entries -> ~ In e (map fst acc)) ->
  map fst (inventory_loop entries acc) = map fst acc ++ filter kept entries.
Proof.
  intros N; revert acc; induction N as [|e entries He N IH]; intros acc D.
  - simpl. rewrite app_nil_r. reflexivity.
  - cbn [inventory_loop filter]. unfold kept at 1.
    destruct (startswith e DOT); cbn [negb].
    + apply IH. intros x Hx. apply D. simpl; auto.
    + rewrite IH.
      * rewrite dict_set_keys.
        assert (M : dict_mem e acc = false).
        { destruct (dict_mem e acc) eqn:Em; [| reflexivity].
          apply dict_mem_keys in Em. exfalso. apply (D e); simpl; auto. }
        rewrite M, <- app_assoc. reflexivity.
      * intros x Hx. rewrite dict_set_keys.
        destruct (dict_mem e acc).
        -- apply D. simpl; auto.
        -- rewrite in_app_iff. intros [Hin|[->|[]]].
           ++ apply (D x); simpl; auto.
           ++ exact (He Hx).
Qed.

Lemma dict_set_values (k : pystr) (d : pydict bool) :
  Forall (fun kv => snd kv = true) d ->
  Forall (fun kv => snd kv = true) (dict_set k true d).
Proof.
  induction 1 as [|[k0 v0] d Hv F IH]; simpl; [repeat constructor |].
  destruct (str_eqb k0 k); constructor; auto.
Qed.

Lemma inventory_loop_values (entries : list pystr) (acc : pydict bool) :
  Forall (fun kv => snd kv = true) acc ->
  Forall (fun kv => snd kv = true) (inventory_loop entries acc).
Proof.
  revert acc; induction entries as [|e entries IH]; intros acc F; [exact F |].
  simpl. destruct (startswith e DOT); apply IH; [exact F |].
  apply dict_set_values. exact F.
Qed.

Lemma update_chapters_again (downloaded_logos : pydict bool)
    (chapters out : list json) (st st' : stats) :
  forallb plain_url chapters = true ->
  update_chapters downloaded_logos chapters st = Ok (out, st') ->
  update_chapters downloaded_logos out st = Ok (out, st').
Proof.
  revert out st; induction chapters as [|c rest IH]; intros out st P E.
  - simpl in E. injection E as <- <-. reflexivity.
  - simpl in P. apply andb_true_iff in P. destruct P as [Pc Pr].
    apply update_chapters_cons in E.
    destruct E as [c1 [st1 [r1 [E1 [E2 ->]]]]].
    apply update_chapter_sound in E1. destruct E1 as [o [Hs ->]].
    pose proof (chapter_step_again _ _ _ _ Pc Hs) as Hs'.
    cbn [update_chapters].
    rewrite (update_chapter_complete _ _ _ _ st Hs'). simpl.
    rewrite (IH _ _ Pr E2). reflexivity.
Qed.

Lemma kind_of_grows (inv1 inv2 : pydict bool) (chapter : json) :
  (forall name, dict_mem name inv1 = true -> dict_mem name inv2 = true) ->
  (kind_of inv1 chapter = Updated -> kind_of inv2 chapter = Updated) /\
  (kind_of inv1 chapter = Skipped <-> kind_of inv2 chapter = Skipped).
Proof.
  intros H. destruct chapter as [| | | | | |fields]; simpl; try tauto.
  destruct (truthy (url_of fields)); [| tauto].
  destruct (title_of fields); try tauto.
  destruct (url_of fields); try tauto.
  match goal with
  | |- context [dict_mem ?k inv1] =>
      destruct (dict_mem k inv1) eqn:E1; [rewrite (H _ E1) |];
      destruct (dict_mem k inv2)
  end; split; try tauto; try discriminate; split; discriminate.
Qed.

Lemma count_kind_le (inv1 inv2 : pydict bool) (o : outcome) (items : list json) :
  (forall c, kind_of inv1 c = o -> kind_of inv2 c = o) ->
  (count_kind inv1 o items <= count_kind inv2 o items)%nat.
Proof.
  intros H. induction items as [|c items IH]; [unfold count_kind; simpl; lia |].
  rewrite !count_kind_cons.
  destruct (outcome_eqb (kind_of inv1 c) o) eqn:E1; [| lia].
  assert (K : kind_of inv1 c = o) by (destruct (kind_of inv1 c), o; try discriminate; reflexivity).
  rewrite (H c K). destruct o; simpl; lia.
Qed.

(** X11: with an inventory that holds nothing, and so when the logos
    directory does not exist, a run that ends writes the document as it
    was loaded and counts no chapter as updated. *)
Theorem run_without_logos_changes_nothing (config : json) :
  (forall downloaded_logos config' st,
      (forall name, dict_mem name downloaded_logos = false) ->
      run config downloaded_logos = Ok (config', st) ->
      config' = config /\ updated_count st = 0%nat) /\
  (forall config' st,
      script config NoSuchPath = Ok (config', st) ->
      config' = config /\ updated_count st = 0%nat).
Proof.
  split.
  - intros downloaded_logos config' st H R. exact (run_nothing_there _ _ _ _ H R).
  - intros config' st R. rewrite script_no_directory in R.
    exact (run_nothing_there [] _ _ _ (fun _ => eq_refl) R).
Qed.

(** X12: the result of the script depends on the directory only through
    the set of its entries: two listings with the same entries, in any
    order and with any repetition, give the same result. *)
Theorem script_ignores_listing_order (config : json) (entries entries' : list pystr) :
  (forall name, In name entries <-> In name entries') ->
  script config (Directory entries) = script config (Directory entries').
Proof.
  intros H. rewrite !script_directory. apply run_ext. intros name.
  apply eq_iff_eq_true. rewrite !inventory_loop_mem, H. reflexivity.
Qed.

(** X13: when a run ends, each counter is the number of chapters of its
    kind: skipped for a falsy logoUrl, updated for an expected filename
    that is in the inventory, missing for one that is not. *)
Theorem counters_count_kinds (config config' : json) (items : list json)
    (downloaded_logos : pydict bool) (st : stats) :
  chapters_of config = Some items ->
  run config downloaded_logos = Ok (config', st) ->
  updated_count st = count_kind downloaded_logos Updated items /\
  skipped_count st = count_kind downloaded_logos Skipped items /\
  missing_count st = count_kind downloaded_logos Missing items.
Proof.
  intros Ec R. apply chapters_of_some in Ec. destruct Ec as [fields [-> Ec]].
  rewrite (run_list _ _ _ Ec) in R.
  destruct (update_chapters downloaded_logos items no_stats)
    as [[items' st1]|] eqn:El; [| discriminate].
  injection R as <- <-. exact (update_chapters_kinds _ _ _ _ _ El).
Qed.

(** X14: for a listing without repetition, the keys of the inventory are
    the entries that do not begin with a dot, in the order of the
    listing, each with the value True; so the number of logos that the
    script reports is the number of those entries. *)
Theorem inventory_is_the_kept_entries (entries : list pystr) :
  NoDup entries ->
  exists downloaded_logos,
    build_inventory (Directory entries) = Ok downloaded_logos /\
    map fst downloaded_logos = filter kept entries /\
    Forall (fun kv => snd kv = true) downloaded_logos /\
    List.length downloaded_logos = List.length (filter kept entries).
Proof.
  intros N. exists (inventory_loop entries []).
  assert (K : map fst (inventory_loop entries []) = filter kept entries).
  { rewrite (inventory_loop_keys entries [] N); [reflexivity |].
    intros e _ []. }
  split; [reflexivity |]. split; [exact K |].
  split; [apply inventory_loop_values; constructor |].
  rewrite <- K, length_map. reflexivity.
Qed.

(** X15: when no logoUrl of the document contains U+0130, a second run
    over the document that a first run left ends with the same document
    and the same three counters: the chapters that were updated are
    counted as updated again. *)
Theorem second_run_same_counters (config config1 : json)
    (downloaded_logos : pydict bool) (st1 : stats) :
  plain_urls config = true ->
  run config downloaded_logos = Ok (config1, st1) ->
  run config1 downloaded_logos = Ok (config1, st1).
Proof.
  unfold plain_urls. intros P R.
  destruct (chapters_of config) as [items|] eqn:Ec.
  - apply chapters_of_some in Ec. destruct Ec as [fields [-> Ec]].
    rewrite (run_list _ _ _ Ec) in R.
    destruct (update_chapters downloaded_logos items no_stats)
      as [[items' st]|] eqn:El; [| discriminate].
    injection R as <- <-. erewrite run_list.
    + rewrite (update_chapters_again _ _ _ _ _ P El), dict_set_twice. reflexivity.
    + rewrite dict_get_set, str_eqb_refl. reflexivity.
  - destruct (run_not_list _ _ _ _ Ec R) as [-> _]. exact R.
Qed.

(** X16: when a run ends with one inventory, it ends with every
    inventory that holds at least the same names, and then counts at
    least as many chapters as updated and as many as skipped. *)
Theorem more_logos_more_updates (config config1 : json)
    (inv1 inv2 : pydict bool) (st1 : stats) :
  (forall name, dict_mem name inv1 = true -> dict_mem name inv2 = true) ->
  run config inv1 = Ok (config1, st1) ->
  exists config2 st2,
    run config inv2 = Ok (config2, st2) /\
    (updated_count st1 <= updated_count st2)%nat /\
    skipped_count st2 = skipped_count st1.
Proof.
  intros H R1.
  assert (Ends : exists r, run config inv2 = Ok r).
  { apply run_ok_iff. apply (config_runs_grows inv1 inv2 config H).
    apply run_ok_iff. eexists; exact R1. }
  destruct Ends as [[config2 st2] R2]. exists config2, st2.
  split; [exact R2 |].
  destruct (chapters_of config) as [items|] eqn:Ec.
  - apply chapters_of_some in Ec. destruct Ec as [fields [-> Ec]].
    rewrite (run_list inv1 _ _ Ec) in R1. rewrite (run_list inv2 _ _ Ec) in R2.
    destruct (update_chapters inv1 items no_stats) as [[i1 s1]|] eqn:E1;
      [| discriminate].
    destruct (update_chapters inv2 items no_stats) as [[i2 s2]|] eqn:E2;
      [| discriminate].
    injection R1 as <- <-. injection R2 as <- <-.
    destruct (update_chapters_kinds _ _ _ _ _ E1) as [U1 [S1 _]].
    destruct (update_chapters_kinds _ _ _ _ _ E2) as [U2 [S2 _]].
    rewrite U1, U2, S1, S2. split.
    + apply Nat.add_le_mono_l. apply count_kind_le.
      intros c. apply (kind_of_grows inv1 inv2 c H).
    + f_equal. apply Nat.le_antisymm; apply count_kind_le; intros c;
        apply (kind_of_grows inv1 inv2 c H).
  - destruct (run_not_list _ _ _ _ Ec R1) as [_ ->].
    destruct (run_not_list _ _ _ _ Ec R2) as [_ ->].
    split; [apply Nat.le_refl | reflexivity].
Qed.

(** ** Runs after the first *)

(** A local path that the script writes has no U+0130. *)
Lemma local_path_plain (title url : pystr) :
  existsb (N.eqb 304) (local_path title url) = false.
Proof.
  assert (F : Forall (fun c => c <> 304) (local_path title url)).
  { unfold local_path, expected_filename. apply Forall_app. split.
    - repeat constructor; discriminate.
    - apply Forall_app. split.
      + eapply Forall_impl; [| apply sanitize_chars].
        intros c Hc. apply name_char_ascii in Hc. lia.
      + unfold extension. destruct (re_search_extension url) as [g|] eqn:Es.
        * destruct (search_result_spells url g Es) as [name [I S]].
          constructor; [discriminate |].
          eapply Forall_impl;
            [| exact (lower_from_matched_values name g []
                        (extensions_letters name I) S)].
          unfold lowered_char. intros c Hc. lia.
        * repeat constructor; discriminate. }
  destruct (existsb (N.eqb 304) (local_path title url)) eqn:E; [| reflexivity].
  apply existsb_exists in E. destruct E as [x [Hx Ex]].
  apply N.eqb_eq in Ex. subst x. rewrite Forall_forall in F.
  exfalso. exact (F _ Hx eq_refl).
Qed.

Lemma chapter_step_settles (downloaded_logos : pydict bool)
    (chapter chapter' : json) (o : outcome) :
  chapter_step downloaded_logos chapter chapter' o ->
  settles downloaded_logos chapter'.
Proof.
  intros H. pose proof H as H0.
  destruct H as [fields Et | fields title url Eu Hn Etitle Em Hp
                | fields title url Eu Hn Etitle Em Hp Hu].
  - exists (JObj fields), Skipped. split; exact H0.
  - set (fields' := dict_set KEY_LOGOURL (JStr (local_path title url)) fields).
    assert (Eu' : url_of fields' = JStr (local_path title url)).
    { unfold url_of, fields'. rewrite dict_get_set, str_eqb_refl. reflexivity. }
    assert (Et' : title_of fields' = JStr title).
    { unfold title_of, fields'. rewrite dict_get_set.
      change (str_eqb KEY_LOGOURL KEY_TITLE) with false. exact Etitle. }
    assert (P : plain_url (JObj fields') = true).
    { simpl. rewrite Eu'. rewrite local_path_plain. reflexivity. }
    assert (R : chapter_runs downloaded_logos (JObj fields') = true).
    { cbn [chapter_runs]. rewrite Eu', Et'. unfold fields'.
      rewrite heading_prints_set, Hp, local_path_printable, orb_true_r.
      reflexivity. }
    destruct (chapter_runs_step downloaded_logos _ R) as [c2 [o' Hs]].
    exists c2, o'. split; [exact Hs |].
    exact (chapter_step_again _ _ _ _ P Hs).
  - exists (JObj fields), Missing. split; exact H0.
Qed.

Lemma update_chapters_settle (downloaded_logos : pydict bool) (chapters : list json) :
  Forall (settles downloaded_logos) chapters ->
  forall st, exists out st',
      update_chapters downloaded_logos chapters st = Ok (out, st') /\
      update_chapters downloaded_logos out st = Ok (out, st').
Proof.
  induction 1 as [|c rest [c' [o [H1 H2]]] F IH]; intros st.
  - exists [], st. split; reflexivity.
  - destruct (IH (count o st)) as [out [st' [E1 E2]]].
    exists (c' :: out), st'. cbn [update_chapters].
    rewrite (update_chapter_complete _ _ _ _ st H1).
    rewrite (update_chapter_complete _ _ _ _ st H2). simpl.
    rewrite E1, E2. split; reflexivity.
Qed.

(** X17: after a run that ends, a second run with the same inventory
    ends too, and the document it leaves is left as it is, with the same
    counters, by every further run: the script settles after at most two
    runs, whatever the URLs are. *)
Theorem script_settles_in_two_runs (config config1 : json)
    (downloaded_logos : pydict bool) (st1 : stats) :
  run config downloaded_logos = Ok (config1, st1) ->
  exists config2 st2,
    run config1 downloaded_logos = Ok (config2, st2) /\
    run config2 downloaded_logos = Ok (config2, st2).
Proof.
  intros R. destruct (chapters_of config) as [items|] eqn:Ec.
  - apply chapters_of_some in Ec. destruct Ec as [fields [-> Ec]].
    rewrite (run_list _ _ _ Ec) in R.
    destruct (update_chapters downloaded_logos items no_stats)
      as [[items1 st]|] eqn:El; [| discriminate].
    injection R as <- <-. apply update_chapters_sound in El. destruct El as [F _].
    assert (S : Forall (settles downloaded_logos) items1).
    { clear Ec. induction F as [|c c' l l' [o Hs] F IH]; constructor; [| exact IH].
      exact (chapter_step_settles _ _ _ _ Hs). }
    destruct (update_chapters_settle _ _ S no_stats) as [items2 [st2 [E1 E2]]].
    exists (JObj (dict_set KEY_CHAPTERS (JArr items2) fields)), st2. split.
    + erewrite run_list.
      * rewrite E1, dict_set_twice. reflexivity.
      * rewrite dict_get_set, str_eqb_refl. reflexivity.
    + erewrite run_list.
      * rewrite E2, dict_set_twice. reflexivity.
      * rewrite dict_get_set, str_eqb_refl. reflexivity.
  - destruct (run_not_list _ _ _ _ Ec R) as [-> _].
    exists config, st1. split; exact R.
Qed.

End Script.

(** ** Runs on concrete inputs *)

Lemma sample_inventory_built : build_inventory sample_dir = Ok sample_inventory.
Proof. reflexivity. Qed.

Lemma sample_script :
  script plain_table plain_repr strict_stdout sample_config sample_dir =
  Ok (JObj [(lit "name", JStr (lit "guide"));
            (KEY_CHAPTERS,
             JArr [example_chapter (lit "assets/logos/chapter-one-intro.png");
                   JObj [(KEY_ID, JInt 2); (KEY_TITLE, JStr (lit "??"))];
                   JObj [(KEY_TITLE, JStr (lit "Foo Bar"));
                         (KEY_LOGOURL, JStr (lit "https://cdn.x/img.svg?v=2"))]])],
      mkStats 1 1 1).
Proof. reflexivity. Qed.

(** A title of 80 characters and a URL without an extension token: the
    base name is cut to 50 characters and the extension is ".png". *)
Lemma long_title_example :
  sanitize plain_table (repeat 97 80) = repeat 97 50 /\
  get_extension_from_url plain_table (JStr (lit "https://x.com/logo")) = Ok (lit ".png").
Proof. split; reflexivity. Qed.

(** Matched texts outside ASCII come back lowercased as they are. *)
Lemma long_s_example :
  get_extension_from_url plain_table (JStr (lit "a." ++ [383] ++ lit "vg")) =
  Ok (DOT :: 383 :: lit "vg").
Proof. reflexivity. Qed.

Lemma C1_witness :
  exists config' st,
    run plain_table plain_repr strict_stdout sample_config sample_inventory =
      Ok (config', st) /\
    document_frame plain_table sample_inventory sample_config config'.
Proof.
  destruct (C1_only_logo_urls_change plain_table plain_repr strict_stdout
              sample_config sample_inventory) as [T F].
  destruct (T eq_refl eq_refl) as [config' [st E]].
  exists config', st. split; [exact E | exact (F config' st E)].
Defined.

Lemma C2_witness :
  update_chapter plain_table plain_repr strict_stdout sample_inventory
    (example_chapter example_url) no_stats =
  Ok (example_chapter (lit "assets/logos/chapter-one-intro.png"), mkStats 1 0 0).
Proof.
  refine (proj1 (proj1 (C2_present_file_is_used plain_table plain_repr strict_stdout
                          sample_inventory
                          [(KEY_ID, JInt 1); (KEY_TITLE, JStr example_title);
                           (KEY_LOGOURL, JStr example_url)]
                          example_title example_url no_stats _ _ _ _)) _ _);
    [reflexivity | reflexivity | discriminate | reflexivity | reflexivity
    | reflexivity].
Defined.

Lemma C3_witness :
  update_chapter plain_table plain_repr strict_stdout []
    (JObj [(KEY_TITLE, JStr (lit "Foo Bar"));
           (KEY_LOGOURL, JStr (lit "https://cdn.x/img.svg?v=2"))]) no_stats =
  Ok (JObj [(KEY_TITLE, JStr (lit "Foo Bar"));
            (KEY_LOGOURL, JStr (lit "https://cdn.x/img.svg?v=2"))], mkStats 0 0 1).
Proof.
  refine (proj1 (C3_absent_file_keeps_url plain_table plain_repr strict_stdout []
                   [(KEY_TITLE, JStr (lit "Foo Bar"));
                    (KEY_LOGOURL, JStr (lit "https://cdn.x/img.svg?v=2"))]
                   (lit "Foo Bar") (lit "https://cdn.x/img.svg?v=2") no_stats
                   _ _ _ _) _ _ _);
    [reflexivity | reflexivity | discriminate | reflexivity | reflexivity
    | reflexivity | reflexivity].
Defined.

(** C5, as the specification words it, fails on [newline_url]: no
    extension of it is followed by the end of the string or by "?", and
    the resolver returns ".jpg". *)
Lemma C5_counterexample :
  (forall pre g, ~ token_at spec_closing newline_url pre g) /\
  get_extension_from_url plain_table (JStr newline_url) = Ok (lit ".jpg") /\
  get_extension_from_url plain_table (JStr newline_url) <> Ok (lit ".png").
Proof.
  split; [| split].
  - apply search_from_none. reflexivity.
  - reflexivity.
  - discriminate.
Qed.

Lemma C5_witness :
  get_extension_from_url plain_table (JStr example_url) = Ok (lit ".png") /\
  get_extension_from_url plain_table (JStr (lit "https://x.com/logo")) = Ok (lit ".png").
Proof.
  destruct (C5_extension_resolver plain_table) as [_ [_ [Found Default]]].
  split.
  - assert (L : exists pre, leftmost_token closing_group example_url pre (lit "PNG"))
      by (apply search_from_some; reflexivity).
    destruct L as [pre L]. exact (proj1 (Found example_url pre (lit "PNG") L)).
  - apply Default. apply search_from_none. reflexivity.
Defined.

Lemma C6_witness :
  update_chapter plain_table plain_repr strict_stdout sample_inventory
    (JObj [(KEY_ID, JInt 2); (KEY_TITLE, JInt 7)]) no_stats =
  Ok (JObj [(KEY_ID, JInt 2); (KEY_TITLE, JInt 7)], mkStats 0 1 0).
Proof.
  refine (proj1 (C6_no_url_is_skipped plain_table plain_repr strict_stdout sample_inventory
                   [(KEY_ID, JInt 2); (KEY_TITLE, JInt 7)] no_stats _)).
  left. reflexivity.
Defined.

Lemma C7_witness :
  exists config' st,
    run plain_table plain_repr strict_stdout sample_config sample_inventory =
      Ok (config', st) /\
    (updated_count st + missing_count st + skipped_count st)%nat = 3%nat.
Proof.
  destruct (C7_counters_add_up plain_table plain_repr strict_stdout
              sample_config _ sample_inventory eq_refl) as [T S].
  destruct (T eq_refl eq_refl) as [config' [st E]].
  exists config', st. split; [exact E | exact (S config' st E)].
Defined.

Lemma C8_witness :
  dict_mem (lit ".hidden.png") sample_inventory = false.
Proof.
  destruct C8_inventory_skips_hidden as [_ [_ H]].
  exact (H sample_dir sample_inventory eq_refl).
Defined.

(** C9, as the specification words it, fails on [dotted_config]: the
    first run writes the path that ends in "gi" U+0307 "f"; on that path
    the resolver finds no extension and falls back to ".png", and the
    second run writes "assets/logos/a.png". *)
Lemma C9_counterexample :
  script plain_table plain_repr strict_stdout dotted_config dotted_dir =
    Ok (dotted_after (lit "assets/logos/a.g" ++ [105; 775] ++ lit "f"), mkStats 1 0 0) /\
  script plain_table plain_repr strict_stdout
      (dotted_after (lit "assets/logos/a.g" ++ [105; 775] ++ lit "f")) dotted_dir =
    Ok (dotted_after (lit "assets/logos/a.png"), mkStats 1 0 0) /\
  dotted_after (lit "assets/logos/a.png") <>
    dotted_after (lit "assets/logos/a.g" ++ [105; 775] ++ lit "f").
Proof.
  split; [reflexivity |]. split; [reflexivity |]. discriminate.
Qed.

Lemma C9_witness :
  (exists config1 st1 st2,
      run plain_table plain_repr strict_stdout sample_config sample_inventory =
        Ok (config1, st1) /\
      run plain_table plain_repr strict_stdout config1 sample_inventory =
        Ok (config1, st2)) /\
  extension plain_table
    (lit "assets/logos/" ++ sanitize plain_table example_title ++
     extension plain_table example_url) =
  extension plain_table example_url.
Proof.
  destruct (C9_second_run_changes_nothing plain_table plain_repr strict_stdout
              sample_config sample_inventory) as [T [Again Stable]].
  split.
  - destruct (T eq_refl eq_refl) as [config1 [st1 E]].
    destruct (Again config1 st1 E) as [config2 [st2 [E2 I]]].
    exists config1, st1, st2. split; [exact E |].
    assert (Same : config2 = config1) by (apply I; reflexivity).
    rewrite Same in E2. exact E2.
  - exact (Stable example_title example_url eq_refl).
Defined.

Lemma C10_witness :
  update_chapter plain_table plain_repr strict_stdout sample_inventory
    (JObj [(KEY_TITLE, JStr (lit "??")); (KEY_LOGOURL, JStr example_url)]) no_stats =
  Ok (JObj [(KEY_TITLE, JStr (lit "??")); (KEY_LOGOURL, JStr example_url)],
      mkStats 0 0 1).
Proof.
  refine (proj1 (proj2 (proj2
            (C10_empty_name_is_missing plain_table plain_repr strict_stdout
               sample_dir sample_inventory
               [(KEY_TITLE, JStr (lit "??")); (KEY_LOGOURL, JStr example_url)]
               (lit "??") example_url no_stats _ _ _ _ _))) _ _ _);
    [reflexivity | reflexivity | reflexivity | reflexivity | discriminate
    | reflexivity | reflexivity | reflexivity].
Defined.

(** ** The further properties on concrete inputs *)

Lemma sanitize_keeps_letters_and_digits_witness :
  filter in_a_z_0_9 (lower plain_table example_title) =
  filter in_a_z_0_9 (sanitize plain_table example_title).
Proof.
  destruct (sanitize_keeps_letters_and_digits plain_table example_title)
    as [cut_off [E H]].
  rewrite (H ltac:(apply Nat.leb_le; reflexivity)), app_nil_r in E. exact E.
Defined.

Lemma sanitize_fixes_clean_names_witness :
  sanitize plain_table (lit "chapter-one-intro") = lit "chapter-one-intro".
Proof.
  apply (sanitize_fixes_clean_names plain_table (lit "chapter-one-intro")).
  reflexivity.
Defined.

Lemma sanitize_twice_witness :
  sanitize plain_table (sanitize plain_table example_title) =
  sanitize plain_table example_title.
Proof.
  apply (proj2 (sanitize_twice plain_table example_title)).
  apply Nat.leb_le. reflexivity.
Defined.

Lemma extension_of_ascii_url_witness :
  In (extension plain_table example_url) dotted_extensions.
Proof.
  apply (extension_of_ascii_url plain_table example_url). reflexivity.
Defined.

Lemma expected_filename_ignores_case_witness :
  expected_filename plain_table (lit "Foo Bar") (lit "https://cdn.x/IMG.SVG") =
  expected_filename plain_table (lit "FOO bar") (lit "HTTPS://CDN.X/img.svg").
Proof.
  apply (expected_filename_ignores_case plain_table); reflexivity.
Defined.

Lemma loop_turn_raises_witness :
  update_chapter plain_table plain_repr strict_stdout sample_inventory
    (JObj untitled_fields) no_stats = Raise AttributeError /\
  update_chapter plain_table plain_repr strict_stdout sample_inventory
    (JObj surrogate_fields) no_stats = Raise UnicodeEncodeError.
Proof.
  split.
  - destruct (loop_turn_raises plain_table plain_repr strict_stdout sample_inventory
                (JObj untitled_fields) no_stats) as [_ [_ H]].
    destruct (H untitled_fields eq_refl eq_refl) as [Bad _].
    apply Bad. reflexivity.
  - destruct (loop_turn_raises plain_table plain_repr strict_stdout sample_inventory
                (JObj surrogate_fields) no_stats) as [_ [_ H]].
    destruct (H surrogate_fields eq_refl eq_refl) as [_ [_ Bad]].
    apply Bad; reflexivity.
Defined.

Lemma run_ends_iff_witness :
  exists config' st, run plain_table plain_repr strict_stdout sample_config sample_inventory = Ok (config', st).
Proof.
  apply (proj2 (run_ends_iff plain_table plain_repr strict_stdout sample_config sample_inventory)).
  reflexivity.
Defined.

Lemma run_raises_witness :
  run plain_table plain_repr strict_stdout broken_config sample_inventory =
    Raise AttributeError /\
  run plain_table plain_repr strict_stdout surrogate_config sample_inventory =
    Raise UnicodeEncodeError.
Proof.
  destruct (run_raises plain_table plain_repr strict_stdout sample_inventory)
    as [_ [_ H]].
  split.
  - apply (H broken_config [example_chapter example_url] (JInt 3) [JObj []]);
      reflexivity.
  - apply (H surrogate_config [] (JObj surrogate_fields) [JInt 3]); reflexivity.
Defined.

Lemma run_without_logos_changes_nothing_witness :
  exists config' st,
    script plain_table plain_repr strict_stdout sample_config NoSuchPath = Ok (config', st) /\
    config' = sample_config /\ updated_count st = 0%nat.
Proof.
  exists sample_config, (mkStats 0 1 2). split; [reflexivity |].
  apply (proj2 (run_without_logos_changes_nothing plain_table plain_repr strict_stdout sample_config)).
  reflexivity.
Defined.

Lemma script_ignores_listing_order_witness :
  script plain_table plain_repr strict_stdout sample_config
    (Directory [lit ".hidden.png"; lit "chapter-one-intro.png"]) =
  script plain_table plain_repr strict_stdout sample_config
    (Directory [lit "chapter-one-intro.png"; lit ".hidden.png";
                lit "chapter-one-intro.png"]).
Proof.
  apply (script_ignores_listing_order plain_table plain_repr strict_stdout sample_config).
  intros name. simpl. tauto.
Defined.

Lemma counters_count_kinds_witness :
  exists config' st,
    run plain_table plain_repr strict_stdout sample_config sample_inventory = Ok (config', st) /\
    updated_count st = 1%nat /\ skipped_count st = 1%nat /\ missing_count st = 1%nat.
Proof.
  eexists _, (mkStats 1 1 1). split; [reflexivity |].
  exact (counters_count_kinds plain_table plain_repr strict_stdout sample_config _ _ sample_inventory
           (mkStats 1 1 1) eq_refl eq_refl).
Defined.

Lemma inventory_is_the_kept_entries_witness :
  exists downloaded_logos,
    build_inventory (Directory [lit ".hidden.png"; lit "chapter-one-intro.png"]) =
      Ok downloaded_logos /\
    List.length downloaded_logos = 1%nat.
Proof.
  destruct (inventory_is_the_kept_entries
              [lit ".hidden.png"; lit "chapter-one-intro.png"])
    as [inv [E [_ [_ L]]]].
  - constructor; [| constructor; [intros [] | constructor]].
    simpl. intros [E|[]]. discriminate E.
  - exists inv. split; [exact E | exact L].
Defined.

Lemma second_run_same_counters_witness :
  run plain_table plain_repr strict_stdout (sample_config_after) sample_inventory =
  Ok (sample_config_after, mkStats 1 1 1).
Proof.
  exact (second_run_same_counters plain_table plain_repr strict_stdout sample_config sample_config_after
           sample_inventory (mkStats 1 1 1) eq_refl eq_refl).
Defined.

Lemma more_logos_more_updates_witness :
  exists config2 st2,
    run plain_table plain_repr strict_stdout sample_config fuller_inventory =
      Ok (config2, st2) /\
    (1 <= updated_count st2)%nat /\ skipped_count st2 = 1%nat.
Proof.
  refine (more_logos_more_updates plain_table plain_repr strict_stdout
            sample_config sample_config_after
            sample_inventory fuller_inventory (mkStats 1 1 1) _ eq_refl).
  intros name. unfold dict_mem, sample_inventory, fuller_inventory.
  cbn [dict_get].
  destruct (str_eqb (lit "chapter-one-intro.png") name);
    [reflexivity | discriminate].
Defined.

Lemma script_settles_in_two_runs_witness :
  exists config2 st2,
    run plain_table plain_repr strict_stdout
      (dotted_after (lit "assets/logos/a.g" ++ [105; 775] ++ lit "f"))
      dotted_inventory = Ok (config2, st2) /\
    run plain_table plain_repr strict_stdout config2 dotted_inventory = Ok (config2, st2).
Proof.
  exact (script_settles_in_two_runs plain_table plain_repr strict_stdout dotted_config
           (dotted_after (lit "assets/logos/a.g" ++ [105; 775] ++ lit "f"))
           dotted_inventory (mkStats 1 0 0) eq_refl).
Defined.
